(** * PRT sprite container: the codec of [prt_file.py]

    A shallow embedding of [PRTFile.Load] and [PRTFile.Write] and the
    properties of the byte format they implement.

    The main stream ([_prt_file]) is a forward-only byte stream, the
    companion blob ([_bmp_file]) a seekable byte string.  Python integers
    are [Z]; [struct.pack] range checks and [struct.unpack] decodings are
    written out over little-endian byte lists. *)

From Stdlib Require Import ZArith List Lia Bool.
From coqutil Require Import Byte Word.LittleEndianList.
Import ListNotations.
Local Open Scope Z_scope.
Local Open Scope list_scope.

(** ** Exceptions and outcomes *)

(** The messages of [PRTLoadError], one constructor per [raise] site. *)
Inductive load_error : Type :=
| RanOutOfData (expected got : nat)
| BadSignature (tag : list byte)
| UnexpectedPPALSize (section_size : Z)
| RIFFNotImplemented
| UnexpectedHeadSize (section_size : Z)
| UnexpectedDataSize (section_size : Z)
| UnhandledTag (tag : list byte) (section_size : Z)
| InvalidBMP
| PaletteIdOutOfRange (i pal_id : Z)
| IncorrectAnimations (loaded expected : Z)
| IncorrectFrames (loaded expected : Z)
| IncorrectSubframes (loaded expected : Z).

(** Python exceptions the two routines can raise: [PRTLoadError];
    [struct.error] from [struct.pack] and [struct.unpack]; [TypeError]
    from [int(None)]; [IndexError] from indexing a short list;
    [OverflowError] from [read] with a size above [sys.maxsize]. *)
Inductive exn : Type :=
| PRTLoadError (e : load_error)
| struct_error
| TypeError
| IndexError
| OverflowError.

(** [OutOfFuel] is the model's own: the [while] loop of [_LoadPalettes]
    runs on fuel.  [Load_never_OutOfFuel] shows it is never returned. *)
Inductive outcome (A : Type) : Type :=
| Return (a : A)
| Raise (e : exn)
| OutOfFuel.
Arguments Return {A} a.
Arguments Raise {A} e.
Arguments OutOfFuel {A}.

(** ** The reader monad: a forward-only cursor on the main stream *)

Definition Reader (A : Type) : Type := list byte -> outcome (A * list byte).

Definition ret {A} (a : A) : Reader A := fun s => Return (a, s).

Definition bind {A B} (m : Reader A) (k : A -> Reader B) : Reader B :=
  fun s => match m s with
           | Return (a, s') => k a s'
           | Raise e => Raise e
           | OutOfFuel => OutOfFuel
           end.

Definition raise {A} (e : load_error) : Reader A :=
  fun _ => Raise (PRTLoadError e).

(** A computation that does not touch the main stream. *)
Definition lift {A} (o : outcome A) : Reader A :=
  fun s => match o with
           | Return a => Return (a, s)
           | Raise e => Raise e
           | OutOfFuel => OutOfFuel
           end.

Notation "x <- m ;; k" := (bind m (fun x => k))
  (at level 61, m at next level, right associativity).
Notation "' pat <- m ;; k" := (bind m (fun x => match x with pat => k end))
  (at level 61, pat pattern, m at next level, right associativity).

(** [for i in range(n): st = body(i, st)], the index starting at [i]. *)
Fixpoint for_range {St} (n : nat) (i : Z) (body : Z -> St -> Reader St)
    (st : St) : Reader St :=
  match n with
  | O => ret st
  | S n' => st' <- body i st ;; for_range n' (i + 1) body st'
  end.

(** [_ReadAndUnpack]: read [size] bytes or raise. *)
Definition _ReadAndUnpack (size : nat) : Reader (list byte) :=
  fun s =>
    let data := firstn size s in
    if Nat.eqb (length data) size
    then Return (data, skipn size s)
    else Raise (PRTLoadError (RanOutOfData size (length data))).

(** ** [struct] formats, little-endian, no padding *)

(** Fields of an unpacked buffer, by byte offset. *)
Definition bytes_at (off len : nat) (buf : list byte) : list byte :=
  firstn len (skipn off buf).

(** [B]: unsigned 8-bit. *)
Definition u8_at (off : nat) (buf : list byte) : Z :=
  le_combine (bytes_at off 1 buf).

(** [I]: unsigned 32-bit. *)
Definition u32_at (off : nat) (buf : list byte) : Z :=
  le_combine (bytes_at off 4 buf).

(** Two's complement reading of a 16-bit value. *)
Definition to_signed16 (v : Z) : Z := if v <? 32768 then v else v - 65536.

(** [h]: signed 16-bit. *)
Definition i16_at (off : nat) (buf : list byte) : Z :=
  to_signed16 (le_combine (bytes_at off 2 buf)).

(** [struct.pack] raises [struct.error] on a value outside the format's
    range. *)
Definition pack_B (v : Z) : outcome (list byte) :=
  if (0 <=? v) && (v <=? 255) then Return (le_split 1 v) else Raise struct_error.

Definition pack_I (v : Z) : outcome (list byte) :=
  if (0 <=? v) && (v <=? 4294967295) then Return (le_split 4 v)
  else Raise struct_error.

Definition pack_h (v : Z) : outcome (list byte) :=
  if (-32768 <=? v) && (v <=? 32767) then Return (le_split 2 v)
  else Raise struct_error.

(** Several fields in one [struct.pack] call: the first bad one raises. *)
Fixpoint pack_all (fields : list (outcome (list byte))) : outcome (list byte) :=
  match fields with
  | [] => Return []
  | f :: rest =>
      match f with
      | Return bs =>
          match pack_all rest with
          | Return bs' => Return (bs ++ bs')
          | Raise e => Raise e
          | OutOfFuel => OutOfFuel
          end
      | Raise e => Raise e
      | OutOfFuel => OutOfFuel
      end
  end.

(** Section tags. *)
Definition tag_CPAL : list byte := [Byte.x43; Byte.x50; Byte.x41; Byte.x4c]. (* b'CPAL' *)
Definition tag_PPAL : list byte := [Byte.x50; Byte.x50; Byte.x41; Byte.x4c]. (* b'PPAL' *)
Definition tag_RIFF : list byte := [Byte.x52; Byte.x49; Byte.x46; Byte.x46]. (* b'RIFF' *)
Definition tag_head : list byte := [Byte.x68; Byte.x65; Byte.x61; Byte.x64]. (* b'head' *)
Definition tag_data : list byte := [Byte.x64; Byte.x61; Byte.x74; Byte.x61]. (* b'data' *)
Definition sig_BM : list byte := [Byte.x42; Byte.x4d]. (* b'BM' *)

Fixpoint bytes_eqb (a b : list byte) : bool :=
  match a, b with
  | [], [] => true
  | x :: a', y :: b' => Byte.eqb x y && bytes_eqb a' b'
  | _, _ => false
  end.

(** ** Data model

    Each class, namedtuple and dict shape is a record in a module of its
    name, so that fields keep the names of the source ([Color.r],
    [Frame.unknown], [Subframe.unknown], ...). *)

(** Modelled from the spec: the [palette] module is not part of the
    sources; [Color] has the four 8-bit fields the codec reads and writes. *)
Module Color.
Record t : Type := mk { r : Z; g : Z; b : Z; flags : Z }.
End Color.

(** Modelled from the spec: [palette.Palette()] starts with an empty
    [colors] list, to which the codec appends. *)
Module Palette.
Record t : Type := mk { colors : list Color.t }.
End Palette.

(** Modelled from the spec: [bitmap.Bitmap()], the attributes the codec
    sets and reads.  [palette] is the palette object at [palette_id]. *)
Module Bitmap.
Record t : Type := mk {
  palette : Palette.t;
  palette_id : Z;
  image_type : Z;
  width : Z;
  height : Z;
  data : list byte
}.
End Bitmap.

Module Rect.
Record t : Type := mk { left : Z; top : Z; right : Z; bottom : Z }.
End Rect.

Module Point.
Record t : Type := mk { x : Z; y : Z }.
End Point.

(** The [subframe_data] dict. *)
Module Subframe.
Record t : Type := mk {
  bitmap_id : Z;
  unknown : Z;
  subframe_id : Z;
  offset : Point.t
}.
End Subframe.

(** The [frame_data] dict; [None] is Python's [None]. *)
Module Frame.
Record t : Type := mk {
  subframes : list Subframe.t;
  unknown : Z;
  optional1 : option Z;
  optional2 : option Z;
  optional3 : option Z;
  optional4 : option Z
}.
End Frame.

(** The [animation] dict. *)
Module Animation.
Record t : Type := mk {
  unknown1 : Z;
  bounding_box : Rect.t;
  offset : Point.t;
  unknown2 : Z;
  frames : list Frame.t;
  appendix : list (list Z);
  unknown3 : Z
}.
End Animation.

(** The attributes of a [PRTFile] object. *)
Record PRTFile : Type := mkPRTFile {
  palettes : list Palette.t;
  bitmaps : list Bitmap.t;
  animations : list Animation.t;
  num_optional_entries : Z;
  extra_data : list byte
}.

(** ** Load *)

(** One palette entry as stored: [(b, g, r, flags)]. *)
Definition unpack_color (entry : list byte) : Color.t :=
  Color.mk (u8_at 2 entry) (u8_at 1 entry) (u8_at 0 entry) (u8_at 3 entry).

(** The [while num_tags_left > 0] loop of one palette. *)
Fixpoint load_palette_tags (fuel : nat) (num_tags_left : Z) (pal : list Color.t)
    : Reader (list Color.t) :=
  if num_tags_left >? 0 then
    match fuel with
    | O => fun _ => OutOfFuel
    | S fuel' =>
        let num_tags_left := num_tags_left - 1 in
        hdr <- _ReadAndUnpack 8 ;;
        let tag := bytes_at 0 4 hdr in
        let section_size := u32_at 4 hdr in
        if bytes_eqb tag tag_PPAL then
          if negb (section_size =? 1048)
          then raise (UnexpectedPPALSize section_size)
          else load_palette_tags fuel' num_tags_left pal
        else if bytes_eqb tag tag_RIFF then
          raise RIFFNotImplemented
        else if bytes_eqb tag tag_head then
          if negb (section_size =? 4)
          then raise (UnexpectedHeadSize section_size)
          else cnt <- _ReadAndUnpack 4 ;;
               load_palette_tags fuel' (u32_at 0 cnt) pal
        else if bytes_eqb tag tag_data then
          if negb (section_size =? 1024)
          then raise (UnexpectedDataSize section_size)
          else pal' <- for_range 256 0
                         (fun _ cs => entry <- _ReadAndUnpack 4 ;;
                                      ret (cs ++ [unpack_color entry])) pal ;;
               load_palette_tags fuel' num_tags_left pal'
        else raise (UnhandledTag tag section_size)
    end
  else ret pal.

(** Every turn of the loop reads 8 bytes, so the length of the stream
    bounds the number of turns. *)
Definition load_palette : Reader Palette.t :=
  fun s => (cs <- load_palette_tags (S (length s)) 2 [] ;; ret (Palette.mk cs)) s.

Definition _LoadPalettes (palettes0 : list Palette.t) : Reader (list Palette.t) :=
  hdr <- _ReadAndUnpack 8 ;;
  let tag := bytes_at 0 4 hdr in
  let num_palettes := u32_at 4 hdr in
  if negb (bytes_eqb tag tag_CPAL) then raise (BadSignature tag)
  else for_range (Z.to_nat num_palettes) 0
         (fun _ pals => pal <- load_palette ;; ret (pals ++ [pal])) palettes0.

(** [self.palettes[pal_id]] for an index already checked to be in range. *)
Definition palette_at (pals : list Palette.t) (pal_id : Z) : Palette.t :=
  nth (Z.to_nat pal_id) pals (Palette.mk []).

(** [sys.maxsize] of a 64-bit build, the largest size [read] converts to
    its index type. *)
Definition PY_SSIZE_T_MAX : Z := 2 ^ 63 - 1.

(** What the companion blob holds from position [pos] on, up to [n]
    bytes. *)
Definition bmp_slice (bmp : list byte) (pos n : Z) : list byte :=
  firstn (Z.to_nat n) (skipn (Z.to_nat pos) bmp).

(** [seek(pos)] then [read(n)] on the companion blob, for
    [0 <= pos < 2^63] and [0 <= n] as [_LoadBitmaps] gives them: [read]
    raises [OverflowError] on a size above [sys.maxsize]; any other size
    is read as far as the blob goes, a position past the end and a short
    read being no errors.  Memory is not bounded. *)
Definition bmp_read_at (bmp : list byte) (pos n : Z) : outcome (list byte) :=
  if n >? PY_SSIZE_T_MAX then Raise OverflowError
  else Return (bmp_slice bmp pos n).

(** The body of the loop of [_LoadBitmaps]. *)
Definition load_bitmap (bmp : list byte) (data_start : Z) (pals : list Palette.t)
    (i : Z) (bitmaps0 : list Bitmap.t) : Reader (list Bitmap.t) :=
  rec <- _ReadAndUnpack 20 ;;
  let padded_w := u32_at 0 rec in
  let offset := u32_at 4 rec in
  let h := u32_at 8 rec in
  let w := u32_at 12 rec in
  let img_type := i16_at 16 rec in
  let pal_id := i16_at 18 rec in
  if (pal_id <? 0) || (pal_id >? Z.of_nat (length pals) - 1)
  then raise (PaletteIdOutOfRange i pal_id)
  else data <- lift (bmp_read_at bmp (offset + data_start) (padded_w * h)) ;;
       ret (bitmaps0 ++
              [Bitmap.mk (palette_at pals pal_id) pal_id img_type w h data]).

Definition _LoadBitmaps (bmp : list byte) (pals : list Palette.t)
    (bitmaps0 : list Bitmap.t) : Reader (list Bitmap.t) :=
  let buf := firstn 14 bmp in
  if negb (Nat.eqb (length buf) 14) then fun _ => Raise struct_error
  else
    let signature := bytes_at 0 2 buf in
    let data_start := u32_at 10 buf in
    if negb (bytes_eqb signature sig_BM) then raise InvalidBMP
    else
      cnt <- _ReadAndUnpack 4 ;;
      for_range (Z.to_nat (u32_at 0 cnt)) 0 (load_bitmap bmp data_start pals)
        bitmaps0.

(** The body of the subframe loop; the state is the frame's subframe list
    and [num_loaded_subframes]. *)
Definition load_subframe (_ : Z) (st : list Subframe.t * Z)
    : Reader (list Subframe.t * Z) :=
  let '(sfs, num_loaded_subframes) := st in
  rec <- _ReadAndUnpack 8 ;;
  let subframe_data :=
    Subframe.mk (i16_at 0 rec) (u8_at 2 rec) (u8_at 3 rec)
      (Point.mk (i16_at 4 rec) (i16_at 6 rec)) in
  ret (sfs ++ [subframe_data], num_loaded_subframes + 1).

(** The two leading bytes of a frame and the optional pairs they gate. *)
Definition load_frame_head : Reader (Z * Z * option Z * option Z * option Z * option Z) :=
  hd <- _ReadAndUnpack 2 ;;
  let subframes := u8_at 0 hd in
  let unknown := u8_at 1 hd in
  '(subframes, optional1, optional2) <-
     (if negb (Z.land subframes 128 =? 0)
      then o <- _ReadAndUnpack 2 ;;
           ret (Z.land subframes 127, Some (u8_at 0 o), Some (u8_at 1 o))
      else ret (subframes, None, None)) ;;
  '(unknown, optional3, optional4) <-
     (if negb (Z.land unknown 128 =? 0)
      then o <- _ReadAndUnpack 2 ;;
           ret (Z.land unknown 127, Some (u8_at 0 o), Some (u8_at 1 o))
      else ret (unknown, None, None)) ;;
  ret (subframes, unknown, optional1, optional2, optional3, optional4).

(** The body of the frame loop; the state is the animation's frame list,
    [num_loaded_frames] and [num_loaded_subframes]. *)
Definition load_frame (_ : Z) (st : list Frame.t * Z * Z)
    : Reader (list Frame.t * Z * Z) :=
  let '(frs, num_loaded_frames, num_loaded_subframes) := st in
  '(subframes, unknown, optional1, optional2, optional3, optional4) <-
     load_frame_head ;;
  '(sfs, num_loaded_subframes) <-
     for_range (Z.to_nat subframes) 0 load_subframe ([], num_loaded_subframes) ;;
  ret (frs ++ [Frame.mk sfs unknown optional1 optional2 optional3 optional4],
       num_loaded_frames + 1, num_loaded_subframes).

(** The body of the appendix loop; it counts into [num_loaded_anims]. *)
Definition load_appendix (_ : Z) (st : list (list Z) * Z)
    : Reader (list (list Z) * Z) :=
  let '(aps, num_loaded_anims) := st in
  rec <- _ReadAndUnpack 16 ;;
  ret (aps ++ [[u32_at 0 rec; u32_at 4 rec; u32_at 8 rec; u32_at 12 rec]],
       num_loaded_anims + 1).

(** The counters [Load] keeps next to [self.animations]. *)
Record counters : Type := mkCounters {
  num_loaded_frames : Z;
  num_loaded_subframes : Z;
  num_loaded_anims : Z
}.

(** The body of the animation loop. *)
Definition load_animation (_ : Z) (st : list Animation.t * counters)
    : Reader (list Animation.t * counters) :=
  let '(anims, cn) := st in
  rec <- _ReadAndUnpack 36 ;;
  let unk1 := u32_at 0 rec in
  let bbox := Rect.mk (u32_at 4 rec) (u32_at 8 rec) (u32_at 12 rec) (u32_at 16 rec) in
  let off := Point.mk (u32_at 20 rec) (u32_at 24 rec) in
  let unk2 := u32_at 28 rec in
  let nframes := u32_at 32 rec in
  '(frs, nlf, nlsf) <-
     for_range (Z.to_nat nframes) 0 load_frame
       ([], num_loaded_frames cn, num_loaded_subframes cn) ;;
  u <- _ReadAndUnpack 4 ;;
  let unk3 := u32_at 0 u in
  '(aps, nla) <-
     for_range (Z.to_nat unk3) 0 load_appendix ([], num_loaded_anims cn) ;;
  ret (anims ++ [Animation.mk unk1 bbox off unk2 frs aps unk3],
       mkCounters nlf nlsf nla).

(** The animation header as read: the three declared totals and
    [num_optional_entries]. *)
Record anim_header : Type := mkHeader {
  num_anims : Z;
  num_frames : Z;
  num_subframes : Z;
  hdr_optional_entries : Z
}.

Definition load_header : Reader anim_header :=
  a <- _ReadAndUnpack 4 ;;
  f <- _ReadAndUnpack 4 ;;
  s <- _ReadAndUnpack 4 ;;
  o <- _ReadAndUnpack 4 ;;
  ret (mkHeader (u32_at 0 a) (u32_at 0 f) (u32_at 0 s) (u32_at 0 o)).

(** Everything [Load] parses before it compares the totals. *)
Record parsed : Type := mkParsed {
  p_palettes : list Palette.t;
  p_bitmaps : list Bitmap.t;
  p_header : anim_header;
  p_animations : list Animation.t;
  p_counters : counters
}.

Definition Load_sections (bmp : list byte) : Reader parsed :=
  pals <- _LoadPalettes [] ;;
  bmps <- _LoadBitmaps bmp pals [] ;;
  hdr <- load_header ;;
  '(anims, cn) <-
     for_range (Z.to_nat (num_anims hdr)) 0 load_animation
       ([], mkCounters 0 0 0) ;;
  ret (mkParsed pals bmps hdr anims cn).

(** The three comparisons that end [Load]. *)
Definition check_counts (p : parsed) : Reader unit :=
  let hdr := p_header p in
  let cn := p_counters p in
  if negb (Z.of_nat (length (p_animations p)) =? num_anims hdr)
  then raise (IncorrectAnimations (num_loaded_anims cn) (num_anims hdr))
  else if negb (num_loaded_frames cn =? num_frames hdr)
  then raise (IncorrectFrames (num_loaded_frames cn) (num_frames hdr))
  else if negb (num_loaded_subframes cn =? num_subframes hdr)
  then raise (IncorrectSubframes (num_loaded_subframes cn) (num_loaded_subframes cn))
  else ret tt.

(** [PRTFile(prt_file, bmp_file).Load()] on a fresh object: [prt] is the
    main stream from its cursor on, [bmp] the companion blob, its cursor at
    the start.  The rest of the main stream becomes [extra_data]. *)
Definition Load (prt bmp : list byte) : outcome PRTFile :=
  match (p <- Load_sections bmp ;; _ <- check_counts p ;; ret p) prt with
  | Return (p, rest) =>
      Return (mkPRTFile (p_palettes p) (p_bitmaps p) (p_animations p)
                (hdr_optional_entries (p_header p)) rest)
  | Raise e => Raise e
  | OutOfFuel => OutOfFuel
  end.

(** ** The writer monad: bytes appended to the two output files *)

(** The bytes a computation appends to the main stream and to the
    companion blob, and how it ends.  What was written before a raise
    stays written. *)
Definition Writer (A : Type) : Type := (list byte * list byte) * outcome A.

Definition wret {A} (a : A) : Writer A := (([], []), Return a).

Definition wbind {A B} (m : Writer A) (k : A -> Writer B) : Writer B :=
  match m with
  | ((p1, b1), Return a) =>
      let '((p2, b2), o) := k a in ((p1 ++ p2, b1 ++ b2), o)
  | (out, Raise e) => (out, Raise e)
  | (out, OutOfFuel) => (out, OutOfFuel)
  end.

Notation "m >> k" := (wbind m (fun _ => k))
  (at level 62, right associativity).

(** [self._prt_file.write(struct.pack(...))]: nothing is written when
    [struct.pack], or the evaluation of its arguments, raises. *)
Definition prt_write (packed : outcome (list byte)) : Writer unit :=
  match packed with
  | Return bs => ((bs, []), Return tt)
  | Raise e => (([], []), Raise e)
  | OutOfFuel => (([], []), OutOfFuel)
  end.

(** [for x in l: body(x)]. *)
Fixpoint for_each {A} (l : list A) (body : A -> Writer unit) : Writer unit :=
  match l with
  | [] => wret tt
  | a :: l' => body a >> for_each l' body
  end.

(** [int(v)]: [int(None)] raises [TypeError]. *)
Definition py_int (v : option Z) : outcome Z :=
  match v with
  | Some n => Return n
  | None => Raise TypeError
  end.

(** [v is not None]. *)
Definition is_not_None (v : option Z) : bool :=
  match v with Some _ => true | None => false end.

(** [l[i]]: raises [IndexError] past the end. *)
Definition py_index (l : list Z) (i : nat) : outcome Z :=
  match nth_error l i with
  | Some n => Return n
  | None => Raise IndexError
  end.

(** Arguments of a call are evaluated, left to right, before the call. *)
Definition with_arg {A B} (a : outcome A) (k : A -> outcome B) : outcome B :=
  match a with
  | Return v => k v
  | Raise e => Raise e
  | OutOfFuel => OutOfFuel
  end.

Definition len {A} (l : list A) : Z := Z.of_nat (length l).

(** ** Write *)

Definition write_color (color : Color.t) : Writer unit :=
  prt_write (pack_all [pack_B (Color.b color); pack_B (Color.g color);
                       pack_B (Color.r color); pack_B (Color.flags color)]).

Definition write_palette (pal : Palette.t) : Writer unit :=
  prt_write (pack_all [Return tag_PPAL; pack_I 1048]) >>
  prt_write (pack_all [Return tag_head; pack_I 4; pack_I 1]) >>
  prt_write (pack_all [Return tag_data; pack_I 1024]) >>
  for_each (Palette.colors pal) write_color.

Definition _WritePalettes (pals : list Palette.t) : Writer unit :=
  prt_write (pack_all [Return tag_CPAL; pack_I (len pals)]) >>
  for_each pals write_palette.

(** [(bmp.width + 3) & ~3] on Python integers. *)
Definition padded_width (w : Z) : Z := Z.land (w + 3) (Z.lnot 3).

(** The metadata loop of [_WriteBitmaps]; [master_data] is
    [master_bmp.data], returned as it stands after the loop. *)
Fixpoint write_bitmaps_meta (bmps : list Bitmap.t) (master_data : list byte)
    : Writer (list byte) :=
  match bmps with
  | [] => wret master_data
  | bmp :: rest =>
      prt_write (pack_all [pack_I (padded_width (Bitmap.width bmp));
                           pack_I (len master_data);
                           pack_I (Bitmap.height bmp);
                           pack_I (Bitmap.width bmp);
                           pack_h (Bitmap.image_type bmp);
                           pack_h (Bitmap.palette_id bmp)]) >>
      write_bitmaps_meta rest (master_data ++ Bitmap.data bmp)
  end.

(** The palette [_WriteBitmaps] gives the master bitmap: 256 black
    entries. *)
Definition master_palette : Palette.t :=
  Palette.mk (repeat (Color.mk 0 0 0 0) 256).

Definition write_subframe (sf : Subframe.t) : Writer unit :=
  prt_write (pack_all [pack_h (Subframe.bitmap_id sf);
                       pack_B (Subframe.unknown sf);
                       pack_B (Subframe.subframe_id sf);
                       pack_h (Point.x (Subframe.offset sf));
                       pack_h (Point.y (Subframe.offset sf))]).

(** [struct.pack('<2B', int(a), int(b))]. *)
Definition pack_2B_int (a b : option Z) : outcome (list byte) :=
  with_arg (py_int a) (fun a' =>
  with_arg (py_int b) (fun b' =>
  pack_all [pack_B a'; pack_B b'])).

(** The body of the frame loop of [Write], up to the subframe loop: the
    two leading bytes and the optional pairs. *)
Definition write_frame_head (frame : Frame.t) : Writer unit :=
  let subframes := len (Frame.subframes frame) in
  let unknown := Frame.unknown frame in
  let opt1 := Frame.optional1 frame in
  let opt2 := Frame.optional2 frame in
  let opt3 := Frame.optional3 frame in
  let opt4 := Frame.optional4 frame in
  let subframes :=
    if is_not_None opt1 || is_not_None opt2 then Z.lor subframes 128
    else subframes in
  let unknown :=
    if is_not_None opt3 || is_not_None opt4 then Z.lor unknown 128
    else unknown in
  prt_write (pack_all [pack_B subframes; pack_B unknown]) >>
  (if is_not_None opt1 || is_not_None opt2
   then prt_write (pack_2B_int opt1 opt2) else wret tt) >>
  (if is_not_None opt3 || is_not_None opt4
   then prt_write (pack_2B_int opt3 opt4) else wret tt).

(** The body of the frame loop of [Write]. *)
Definition write_frame (frame : Frame.t) : Writer unit :=
  write_frame_head frame >>
  for_each (Frame.subframes frame) write_subframe.

(** [struct.pack('<4I', ap[0], ap[1], ap[2], ap[3])]. *)
Definition write_appendix (ap : list Z) : Writer unit :=
  prt_write
    (with_arg (py_index ap 0) (fun a0 =>
     with_arg (py_index ap 1) (fun a1 =>
     with_arg (py_index ap 2) (fun a2 =>
     with_arg (py_index ap 3) (fun a3 =>
     pack_all [pack_I a0; pack_I a1; pack_I a2; pack_I a3]))))).

(** The body of the animation loop of [Write]. *)
Definition write_animation (anim : Animation.t) : Writer unit :=
  let bbox := Animation.bounding_box anim in
  let off := Animation.offset anim in
  prt_write (pack_all [pack_I (Animation.unknown1 anim);
                       pack_I (Rect.left bbox); pack_I (Rect.top bbox);
                       pack_I (Rect.right bbox); pack_I (Rect.bottom bbox);
                       pack_I (Point.x off); pack_I (Point.y off);
                       pack_I (Animation.unknown2 anim);
                       pack_I (len (Animation.frames anim))]) >>
  for_each (Animation.frames anim) write_frame >>
  prt_write (pack_all [pack_I (Animation.unknown3 anim)]) >>
  for_each (Animation.appendix anim) write_appendix.

(** The totals [Write] recomputes: the two nested counting loops. *)
Definition count_subframes (frs : list Frame.t) (num_subframes : Z) : Z :=
  fold_left (fun n frame => n + len (Frame.subframes frame)) frs num_subframes.

Definition count_totals (anims : list Animation.t) : Z * Z :=
  fold_left
    (fun '(num_frames, num_subframes) anim =>
       (num_frames + len (Animation.frames anim),
        count_subframes (Animation.frames anim) num_subframes))
    anims (0, 0).

Section Write.

(** The [bitmap] module is not part of the sources.
    [WriteBMPToOpenFile pal data] stands for the bytes
    [master_bmp.WriteBMPToOpenFile] writes to the companion file for a
    bitmap with palette [pal] and pixel bytes [data]. *)
Variable WriteBMPToOpenFile : Palette.t -> list byte -> list byte.

Definition _WriteBitmaps (bmps : list Bitmap.t) : Writer unit :=
  prt_write (pack_all [pack_I (len bmps)]) >>
  wbind (write_bitmaps_meta bmps [])
    (fun master_data =>
       (([], WriteBMPToOpenFile master_palette master_data), Return tt)).

Definition Write (self : PRTFile) : Writer unit :=
  _WritePalettes (palettes self) >>
  _WriteBitmaps (bitmaps self) >>
  let '(num_frames, num_subframes) := count_totals (animations self) in
  prt_write (pack_all [pack_I (len (animations self))]) >>
  prt_write (pack_all [pack_I num_frames]) >>
  prt_write (pack_all [pack_I num_subframes]) >>
  prt_write (pack_all [pack_I (num_optional_entries self)]) >>
  for_each (animations self) write_animation >>
  prt_write (Return (extra_data self)).

End Write.

(** Modelled from the spec: a companion-blob writer of the layout the spec
    gives, a 14-byte header (magic [BM], three ignored fields, a 32-bit
    [dataStart]) followed at [dataStart] by the pixel bytes.  Here the
    ignored fields are the file size and two zero words, and [dataStart]
    is 14. *)
Definition minimal_WriteBMPToOpenFile (_ : Palette.t) (data : list byte)
    : list byte :=
  sig_BM ++ le_split 4 (14 + len data) ++ le_split 2 0 ++ le_split 2 0
    ++ le_split 4 14 ++ data.

(** ** Ranges, totals and the shape of a loaded container *)

Definition u8 (v : Z) : Prop := 0 <= v <= 255.
Definition u32 (v : Z) : Prop := 0 <= v <= 4294967295.
Definition i16 (v : Z) : Prop := -32768 <= v <= 32767.

Definition sumZ (l : list Z) : Z := fold_right Z.add 0 l.

(** The number of subframes in a list of frames, of frames and of
    subframes in a list of animations. *)
Definition subframes_in (frs : list Frame.t) : Z :=
  sumZ (map (fun f => len (Frame.subframes f)) frs).

Definition total_frames (anims : list Animation.t) : Z :=
  sumZ (map (fun a => len (Animation.frames a)) anims).

Definition total_subframes (anims : list Animation.t) : Z :=
  sumZ (map (fun a => subframes_in (Animation.frames a)) anims).

Definition total_appendix (anims : list Animation.t) : Z :=
  sumZ (map (fun a => len (Animation.appendix a)) anims).

(** What one turn of each loop of [Load] does to the loop's state. *)
Definition step_list {A} (l : list A) (a : A) : list A := l ++ [a].

Definition step_counted {A} (st : list A * Z) (a : A) : list A * Z :=
  (fst st ++ [a], snd st + 1).

Definition step_frame (st : list Frame.t * Z * Z) (f : Frame.t)
    : list Frame.t * Z * Z :=
  let '(frs, nlf, nlsf) := st in
  (frs ++ [f], nlf + 1, nlsf + len (Frame.subframes f)).

Definition step_animation (st : list Animation.t * counters) (a : Animation.t)
    : list Animation.t * counters :=
  let '(anims, cn) := st in
  (anims ++ [a],
   mkCounters (num_loaded_frames cn + len (Animation.frames a))
     (num_loaded_subframes cn + subframes_in (Animation.frames a))
     (num_loaded_anims cn + len (Animation.appendix a))).

Definition Color_wf (c : Color.t) : Prop :=
  u8 (Color.r c) /\ u8 (Color.g c) /\ u8 (Color.b c) /\ u8 (Color.flags c).

Definition Palette_wf (p : Palette.t) : Prop := Forall Color_wf (Palette.colors p).

(** A whole number of 256-color blocks, one per [data] section read. *)
Definition colors_in_blocks (p : Palette.t) : Prop :=
  exists k, length (Palette.colors p) = (256 * k)%nat.

(** The sections the tag loop of a palette entry accepts, as stored: a
    [PPAL] header declaring 1048 bytes; a [head] section of 4 bytes, its
    count; a [data] section of 1024 bytes, its 256 entries of four
    bytes. *)
Inductive palette_section : Type :=
| PPAL_section
| head_section (count : Z)
| data_section (entries : list (list byte)).

Definition section_bytes (sec : palette_section) : list byte :=
  match sec with
  | PPAL_section => tag_PPAL ++ le_split 4 1048
  | head_section count => (tag_head ++ le_split 4 4) ++ le_split 4 count
  | data_section entries => (tag_data ++ le_split 4 1024) ++ concat entries
  end.

(** The colors the loop appends for a section. *)
Definition section_colors (sec : palette_section) : list Color.t :=
  match sec with
  | data_section entries => map unpack_color entries
  | _ => []
  end.

(** The palette of an entry made of the sections [secs]. *)
Definition entry_palette (secs : list palette_section) : Palette.t :=
  Palette.mk (flat_map section_colors secs).

(** The number of [data] sections among [secs]. *)
Fixpoint data_sections (secs : list palette_section) : nat :=
  match secs with
  | [] => 0
  | data_section _ :: rest => S (data_sections rest)
  | _ :: rest => data_sections rest
  end.

(** The sections one run of the tag loop reads when it is entered with
    [num_tags_left]: it stops when the counter is not positive; a [PPAL]
    or a [data] section takes 1 off the counter; a [head] section replaces
    what is left by its count. *)
Fixpoint tags_run (num_tags_left : Z) (secs : list palette_section) : Prop :=
  match secs with
  | [] => num_tags_left <= 0
  | sec :: rest =>
      0 < num_tags_left
      /\ match sec with
         | PPAL_section => tags_run (num_tags_left - 1) rest
         | head_section count => u32 count /\ tags_run count rest
         | data_section entries =>
             length entries = 256%nat
             /\ Forall (fun e => length e = 4%nat) entries
             /\ tags_run (num_tags_left - 1) rest
         end
  end.

Definition Bitmap_wf (pals : list Palette.t) (bm : Bitmap.t) : Prop :=
  Bitmap.palette bm = palette_at pals (Bitmap.palette_id bm)
  /\ 0 <= Bitmap.palette_id bm <= len pals - 1
  /\ i16 (Bitmap.palette_id bm) /\ i16 (Bitmap.image_type bm)
  /\ u32 (Bitmap.width bm) /\ u32 (Bitmap.height bm).

Definition Subframe_wf (sf : Subframe.t) : Prop :=
  i16 (Subframe.bitmap_id sf) /\ u8 (Subframe.unknown sf)
  /\ u8 (Subframe.subframe_id sf)
  /\ i16 (Point.x (Subframe.offset sf)) /\ i16 (Point.y (Subframe.offset sf)).

(** An optional pair is absent, or present with both members bytes. *)
Definition pair_wf (o1 o2 : option Z) : Prop :=
  (o1 = None /\ o2 = None)
  \/ (exists a b, o1 = Some a /\ o2 = Some b /\ u8 a /\ u8 b).

(** What [Write] needs of a frame besides its subframe count. *)
Definition Frame_fields_wf (f : Frame.t) : Prop :=
  u8 (Frame.unknown f)
  /\ pair_wf (Frame.optional3 f) (Frame.optional4 f)
  /\ Forall Subframe_wf (Frame.subframes f).

Definition Frame_wf (f : Frame.t) : Prop :=
  len (Frame.subframes f) <= 127
  /\ 0 <= Frame.unknown f <= 127
  /\ pair_wf (Frame.optional1 f) (Frame.optional2 f)
  /\ pair_wf (Frame.optional3 f) (Frame.optional4 f)
  /\ Forall Subframe_wf (Frame.subframes f).

Definition appendix_wf (ap : list Z) : Prop :=
  exists a0 a1 a2 a3, ap = [a0; a1; a2; a3] /\ u32 a0 /\ u32 a1 /\ u32 a2 /\ u32 a3.

Definition Animation_wf (a : Animation.t) : Prop :=
  u32 (Animation.unknown1 a)
  /\ (u32 (Rect.left (Animation.bounding_box a))
      /\ u32 (Rect.top (Animation.bounding_box a))
      /\ u32 (Rect.right (Animation.bounding_box a))
      /\ u32 (Rect.bottom (Animation.bounding_box a)))
  /\ (u32 (Point.x (Animation.offset a)) /\ u32 (Point.y (Animation.offset a)))
  /\ u32 (Animation.unknown2 a)
  /\ u32 (len (Animation.frames a))
  /\ Forall Frame_wf (Animation.frames a)
  /\ Animation.unknown3 a = len (Animation.appendix a)
  /\ u32 (Animation.unknown3 a)
  /\ Forall appendix_wf (Animation.appendix a).

(** What every container that [Load] returns satisfies. *)
Definition PRTFile_wf (c : PRTFile) : Prop :=
  u32 (len (palettes c))
  /\ Forall Palette_wf (palettes c)
  /\ u32 (len (bitmaps c))
  /\ Forall (Bitmap_wf (palettes c)) (bitmaps c)
  /\ u32 (len (animations c))
  /\ Forall Animation_wf (animations c)
  /\ u32 (total_frames (animations c))
  /\ u32 (total_subframes (animations c))
  /\ u32 (num_optional_entries c).

(** The bitmap [_LoadBitmaps] makes of a 20-byte record
    [(paddedWidth, offset, height, width, type, paletteId)]. *)
Definition record_bitmap (bmp : list byte) (data_start : Z)
    (pals : list Palette.t) (rec : list byte) : Bitmap.t :=
  Bitmap.mk (palette_at pals (i16_at 18 rec)) (i16_at 18 rec) (i16_at 16 rec)
    (u32_at 12 rec) (u32_at 8 rec)
    (bmp_slice bmp (u32_at 4 rec + data_start) (u32_at 0 rec * u32_at 8 rec)).

(** A record [_LoadBitmaps] accepts over [pals]. *)
Definition record_ok (pals : list Palette.t) (rec : list byte) : Prop :=
  length rec = 20%nat
  /\ 0 <= i16_at 18 rec <= len pals - 1
  /\ u32_at 0 rec * u32_at 8 rec <= PY_SSIZE_T_MAX.

(** What [Load] cannot check of a bitmap, and [Write] relies on: the pixel
    buffer has the length [Write] declares for it. *)
Definition Bitmap_padded (bm : Bitmap.t) : Prop :=
  padded_width (Bitmap.width bm) <= 4294967295
  /\ len (Bitmap.data bm) = padded_width (Bitmap.width bm) * Bitmap.height bm.

(** The pixel bytes of all bitmaps, in order: [master_bmp.data] after the
    loop of [_WriteBitmaps]. *)
Definition master_data (bmps : list Bitmap.t) : list byte :=
  concat (map Bitmap.data bmps).

(** The layout the spec gives for the companion blob, as a property of the
    writer: at least a 14-byte header that starts with [BM] and whose last
    field, [dataStart], is the position of the pixel bytes, which run to the
    end of the blob. *)
Definition bmp_layout (W : Palette.t -> list byte -> list byte) : Prop :=
  forall pal d,
    (14 <= length (W pal d))%nat
    /\ bytes_at 0 2 (W pal d) = sig_BM
    /\ skipn (Z.to_nat (u32_at 10 (W pal d))) (W pal d) = d.

(** A writer that completes having appended [p] to the main stream and
    [bm] to the companion blob. *)
Definition wrote (w : Writer unit) (p bm : list byte) : Prop :=
  w = ((p, bm), Return tt).

(** A writer that completes having appended [bs] to the main stream only. *)
Definition emits (w : Writer unit) (bs : list byte) : Prop := wrote w bs [].

(** A reader that consumes exactly [bs] and returns [a], whatever follows. *)
Definition decodes {A} (m : Reader A) (bs : list byte) (a : A) : Prop :=
  forall rest, m (bs ++ rest) = Return (a, rest).

(** ** The frame head in the spec's words *)

(** Follows the spec's words (Animation Table Codec, decode steps 2 and
    3): if the flag bit was set, two more bytes are read as the pair;
    otherwise the pair is absent. *)
Definition optional_pair_spec (flagged : bool) (s : list byte)
    : outcome (option Z * option Z * list byte) :=
  if flagged then
    match s with
    | o1 :: o2 :: s' =>
        Return (Some (byte.unsigned o1), Some (byte.unsigned o2), s')
    | _ => Raise (PRTLoadError (RanOutOfData 2 (length s)))
    end
  else Return (None, None, s).

(** Follows the spec's words (decode steps 1 to 3): read
    [subframeCountByte] and [unknownByte]; bit 0x80 of the first gates
    [optional1, optional2], bit 0x80 of the second, independently, gates
    [optional3, optional4]; each byte is kept with that bit cleared. *)
Definition frame_head_spec (s : list byte)
    : outcome (Z * Z * option Z * option Z * option Z * option Z * list byte) :=
  match s with
  | c :: u :: s1 =>
      let subframeCountByte := byte.unsigned c in
      let unknownByte := byte.unsigned u in
      match optional_pair_spec (Z.testbit subframeCountByte 7) s1 with
      | Return (o1, o2, s2) =>
          match optional_pair_spec (Z.testbit unknownByte 7) s2 with
          | Return (o3, o4, s3) =>
              Return (Z.clearbit subframeCountByte 7, Z.clearbit unknownByte 7,
                      o1, o2, o3, o4, s3)
          | Raise e => Raise e
          | OutOfFuel => OutOfFuel
          end
      | Raise e => Raise e
      | OutOfFuel => OutOfFuel
      end
  | _ => Raise (PRTLoadError (RanOutOfData 2 (length s)))
  end.

(** The errors of the three comparisons that end [Load]. *)
Definition count_mismatch (e : load_error) : Prop :=
  match e with
  | IncorrectAnimations _ _ | IncorrectFrames _ _ | IncorrectSubframes _ _ => True
  | _ => False
  end.

(** ** Properties of readers *)

(** A reader that depends only on the bytes it consumes: whenever it
    returns, the stream is what it consumed followed by what it left, and
    it returns the same on the consumed bytes followed by anything. *)
Definition local {A} (m : Reader A) : Prop :=
  forall s a s', m s = Return (a, s') ->
    exists pre, s = pre ++ s' /\ decodes m pre a.

(** A reader all of whose exceptions satisfy [P]. *)
Definition raises_only {A} (P : exn -> Prop) (m : Reader A) : Prop :=
  forall s e, m s = Raise e -> P e.

(** The errors of the three sections: every [PRTLoadError] but the three
    count mismatches. *)
Definition section_error (k : load_error) : Prop :=
  match k with
  | IncorrectAnimations _ _ | IncorrectFrames _ _ | IncorrectSubframes _ _ => False
  | _ => True
  end.

(** What the sections of [Load] can raise over the companion blob [bmp]:
    [struct.error] for a blob shorter than its 14-byte header,
    [OverflowError] from the read of a pixel buffer, which comes after the
    check of the blob's header, and section errors. *)
Definition sections_raise (bmp : list byte) (e : exn) : Prop :=
  (e = struct_error /\ (length bmp < 14)%nat)
  \/ (e = OverflowError
      /\ (14 <= length bmp)%nat /\ bytes_at 0 2 bmp = sig_BM)
  \/ (exists k, e = PRTLoadError k /\ section_error k).

(** The container [Load] returns with [extra] as its trailing bytes. *)
Definition with_extra_data (c : PRTFile) (extra : list byte) : PRTFile :=
  mkPRTFile (palettes c) (bitmaps c) (animations c) (num_optional_entries c)
    extra.

(** A fresh [PRTFile] object, as [__init__] leaves it. *)
Definition PRTFile_init : PRTFile := mkPRTFile [] [] [] 0 [].

(** A writer that appends nothing to the companion blob. *)
Definition prt_only {A} (w : Writer A) : Prop := snd (fst w) = [].

(** A container whose fields [Write] can store and [Load] gives back:
    the shape of a loaded container, palettes of exactly 256 colors, pixel
    buffers of the length [Write] declares, less than 2^32 pixel bytes in
    all. *)
Definition PRTFile_canonical (c : PRTFile) : Prop :=
  PRTFile_wf c
  /\ Forall (fun p => length (Palette.colors p) = 256%nat) (palettes c)
  /\ Forall Bitmap_padded (bitmaps c)
  /\ len (master_data (bitmaps c)) <= 4294967295.

(** An animation, and a container, with every appendix record cut to its
    first four entries. *)
Definition truncate_appendix (a : Animation.t) : Animation.t :=
  Animation.mk (Animation.unknown1 a) (Animation.bounding_box a)
    (Animation.offset a) (Animation.unknown2 a) (Animation.frames a)
    (map (firstn 4) (Animation.appendix a)) (Animation.unknown3 a).

Definition truncate_appendices (c : PRTFile) : PRTFile :=
  mkPRTFile (palettes c) (bitmaps c) (map truncate_appendix (animations c))
    (num_optional_entries c) (extra_data c).

(** The error of a short read: fewer bytes were left than the read
    asked for. *)
Definition out_of_data (e : exn) : Prop :=
  exists n k, (k < n)%nat /\ e = PRTLoadError (RanOutOfData n k).

(** A reader that notices a cut: whenever it returns on a stream, on the
    same stream with some trailing bytes cut off it either returns the
    same, leaving that much less, or raises the error of a short read. *)
Definition starves {A} (m : Reader A) : Prop :=
  forall s t a s', m (s ++ t) = Return (a, s') ->
    (exists u, s' = u ++ t /\ m s = Return (a, u))
    \/ (exists e, out_of_data e /\ m s = Raise e).

(** ** Sample streams *)

Module Sample.

Definition le32 (v : Z) : list byte := le_split 4 v.
Definition le16 (v : Z) : list byte := le_split 2 v.
Definition le8 (v : Z) : list byte := le_split 1 v.

(** A companion blob with no pixel bytes. *)
Definition bmp_empty : list byte :=
  minimal_WriteBMPToOpenFile master_palette [].

(** A companion blob with 16 pixel bytes, 1 to 16. *)
Definition pixels16 : list byte :=
  map byte.of_Z [1; 2; 3; 4; 5; 6; 7; 8; 9; 10; 11; 12; 13; 14; 15; 16].
Definition bmp_16 : list byte :=
  minimal_WriteBMPToOpenFile master_palette pixels16.

(** No palettes, no bitmaps, an empty animation table. *)
Definition no_palettes : list byte := tag_CPAL ++ le32 0.
Definition no_bitmaps : list byte := le32 0.
Definition no_animations : list byte := le32 0 ++ le32 0 ++ le32 0 ++ le32 0.

(** The 256 entries of a [data] section, all [(b, g, r, flags)] =
    [(1, 2, 3, 4)]. *)
Definition entries256 : list (list byte) :=
  repeat [Byte.x01; Byte.x02; Byte.x03; Byte.x04] 256.

(** One palette entry with a [head] count of 0: the loop ends before any
    [data] section. *)
Definition one_empty_palette : list byte :=
  tag_CPAL ++ le32 1 ++ tag_PPAL ++ le32 1048 ++ tag_head ++ le32 4 ++ le32 0.

Definition prt_empty_palette : list byte :=
  one_empty_palette ++ no_bitmaps ++ no_animations.

(** One palette entry of the usual layout, color [i] being
    [(r, g, b, flags) = (i, 255 - i, 7, 0)]. *)
Definition color_of (i : Z) : Color.t := Color.mk i (255 - i) 7 0.
Definition palette256 : Palette.t :=
  Palette.mk (map (fun i => color_of (Z.of_nat i)) (seq 0 256)).
Definition one_palette : list byte :=
  tag_CPAL ++ le32 1 ++ tag_PPAL ++ le32 1048 ++ tag_head ++ le32 4 ++ le32 1
    ++ tag_data ++ le32 1024
    ++ flat_map (fun c => le8 (Color.b c) ++ le8 (Color.g c) ++ le8 (Color.r c)
                            ++ le8 (Color.flags c))
         (Palette.colors palette256).

(** A bitmap record: [paddedWidth, offset, height, width, imageType,
    paletteId]. *)
Definition bitmap_record (padded_w offset height width img_type pal_id : Z)
    : list byte :=
  le32 padded_w ++ le32 offset ++ le32 height ++ le32 width
    ++ le16 img_type ++ le16 pal_id.

(** A record that declares [2^32 - 1] rows of [2^32 - 1] bytes. *)
Definition prt_huge_bitmap : list byte :=
  one_palette ++ le32 1 ++ bitmap_record 4294967295 0 4294967295 5 1 0
    ++ no_animations.

(** Width 5, height 2, but a stored [paddedWidth] of 4. *)
Definition prt_narrow_bitmap : list byte :=
  one_palette ++ le32 1 ++ bitmap_record 4 0 2 5 1 0 ++ no_animations.

(** Width 5, height 1, but a stored [paddedWidth] of 16. *)
Definition prt_wide_bitmap : list byte :=
  one_palette ++ le32 1 ++ bitmap_record 16 0 1 5 1 0 ++ no_animations.

(** A bitmap record whose [paletteId] is the number of palettes, here 0. *)
Definition prt_bad_palette_id : list byte :=
  no_palettes ++ le32 1 ++ bitmap_record 8 0 2 5 1 0 ++ no_animations.

(** One animation of one frame: [optional1, optional2 = 3, 4], one
    subframe with [bitmapId] 7, and one appendix record; one trailing
    byte. *)
Definition animation_record : list byte :=
  le32 11 ++ le32 1 ++ le32 2 ++ le32 3 ++ le32 4 ++ le32 5 ++ le32 6
    ++ le32 12 ++ le32 1
    ++ (le8 129 ++ le8 5 ++ le8 3 ++ le8 4)
    ++ (le16 7 ++ le8 9 ++ le8 8 ++ le16 (-2) ++ le16 300)
    ++ le32 1 ++ (le32 1 ++ le32 2 ++ le32 3 ++ le32 4).

Definition prt_one_animation : list byte :=
  no_palettes ++ no_bitmaps ++ (le32 1 ++ le32 1 ++ le32 1 ++ le32 7)
    ++ animation_record ++ le8 77.

Definition loaded_animation : Animation.t :=
  Animation.mk 11 (Rect.mk 1 2 3 4) (Point.mk 5 6) 12
    [Frame.mk [Subframe.mk 7 9 8 (Point.mk (-2) 300)] 5 (Some 3) (Some 4) None None]
    [[1; 2; 3; 4]] 1.

Definition loaded_one_animation : PRTFile :=
  mkPRTFile [] [] [loaded_animation] 7 [Byte.x4d].

(** The header declares 5 frames; the one animation has 4, all empty. *)
Definition prt_five_frames_declared : list byte :=
  no_palettes ++ no_bitmaps ++ (le32 1 ++ le32 5 ++ le32 0 ++ le32 0)
    ++ (le32 0 ++ le32 0 ++ le32 0 ++ le32 0 ++ le32 0 ++ le32 0 ++ le32 0
        ++ le32 0 ++ le32 4
        ++ (le8 0 ++ le8 0) ++ (le8 0 ++ le8 0) ++ (le8 0 ++ le8 0) ++ (le8 0 ++ le8 0)
        ++ le32 0).

(** A whole container: the 256-color palette, one 5 by 2 bitmap with
    rows padded to 8 bytes, and the animation above. *)
Definition prt_full : list byte :=
  one_palette ++ le32 1 ++ bitmap_record 8 0 2 5 1 0
    ++ (le32 1 ++ le32 1 ++ le32 1 ++ le32 7) ++ animation_record ++ le8 77.

Definition loaded_full : PRTFile :=
  mkPRTFile [palette256]
    [Bitmap.mk palette256 0 1 5 2 pixels16]
    [loaded_animation] 7 [Byte.x4d].

(** What [Load] returns for some of the streams above. *)
Definition loaded_empty_palette : PRTFile :=
  mkPRTFile [Palette.mk []] [] [] 0 [].

Definition loaded_narrow_bitmap : PRTFile :=
  mkPRTFile [palette256]
    [Bitmap.mk palette256 0 1 5 2 (firstn 8 pixels16)] [] 0 [].

Definition loaded_wide_bitmap : PRTFile :=
  mkPRTFile [palette256] [Bitmap.mk palette256 0 1 5 1 pixels16] [] 0 [].

(** A frame with [optional1] present and [optional2] absent. *)
Definition half_pair_frame : Frame.t := Frame.mk [] 0 (Some 3) None None None.

(** A frame of 256 empty subframes. *)
Definition frame_256 : Frame.t :=
  Frame.mk (repeat (Subframe.mk 0 0 0 (Point.mk 0 0)) 256) 0 None None None None.

(** A frame whose [unknown] value has bit 0x80 set and no optional pair. *)
Definition frame_unknown_200 : Frame.t := Frame.mk [] 200 None None None None.

(** The loaded animation with a fifth entry in its appendix record. *)
Definition animation_long_appendix : Animation.t :=
  Animation.mk 11 (Rect.mk 1 2 3 4) (Point.mk 5 6) 12
    [Frame.mk [Subframe.mk 7 9 8 (Point.mk (-2) 300)] 5 (Some 3) (Some 4) None None]
    [[1; 2; 3; 4; 99]] 1.

Definition container_long_appendix : PRTFile :=
  mkPRTFile [] [] [animation_long_appendix] 7 [Byte.x4d].

(** The whole container with its bitmap pointing at palette 1, which does
    not exist. *)
Definition container_bad_palette_id : PRTFile :=
  mkPRTFile [palette256]
    [Bitmap.mk palette256 1 1 5 2 pixels16]
    [loaded_animation] 7 [Byte.x4d].

(** A frame of 128 empty subframes and no optional pair. *)
Definition frame_128 : Frame.t :=
  Frame.mk (repeat (Subframe.mk 0 0 0 (Point.mk 0 0)) 128) 0 None None None None.

(** Frames of 128 empty subframes and no first pair that cannot be
    written: an [unknown] value of 256; [optional3] without
    [optional4]. *)
Definition frame_128_unknown_256 : Frame.t :=
  Frame.mk (repeat (Subframe.mk 0 0 0 (Point.mk 0 0)) 128) 256
    None None None None.

Definition frame_128_half_pair : Frame.t :=
  Frame.mk (repeat (Subframe.mk 0 0 0 (Point.mk 0 0)) 128) 0
    None None (Some 1) None.

(** The stream of one animation with its header declaring 2 subframes;
    the animation has 1. *)
Definition prt_two_subframes_declared : list byte :=
  no_palettes ++ no_bitmaps ++ (le32 1 ++ le32 1 ++ le32 2 ++ le32 7)
    ++ animation_record ++ le8 77.

End Sample.
(** ** Bytes and [struct] fields *)

Lemma bytes_eqb_eq (a b : list byte) : bytes_eqb a b = true <-> a = b.
Proof.
  revert b; induction a as [|x a IH]; intros [|y b]; simpl; try (split; congruence).
  rewrite andb_true_iff, IH. split.
  - intros [H ->]. apply Byte.byte_dec_bl in H. now subst.
  - intros [= -> ->]. split; [now apply Byte.byte_dec_lb | reflexivity].
Qed.

Lemma le_combine_1_of_Z v : le_combine [byte.of_Z v] = v mod 2 ^ 8.
Proof. exact (le_combine_split 1 v). Qed.

Lemma le_combine_2_of_Z v :
  le_combine [byte.of_Z v; byte.of_Z (Z.shiftr v 8)] = v mod 2 ^ 16.
Proof. exact (le_combine_split 2 v). Qed.

Lemma le_combine_4_of_Z v :
  le_combine [byte.of_Z v; byte.of_Z (Z.shiftr v 8);
              byte.of_Z (Z.shiftr (Z.shiftr v 8) 8);
              byte.of_Z (Z.shiftr (Z.shiftr (Z.shiftr v 8) 8) 8)]
  = v mod 2 ^ 32.
Proof. exact (le_combine_split 4 v). Qed.

Lemma u8_small v : 0 <= v <= 255 -> v mod 2 ^ 8 = v.
Proof. intros. apply Z.mod_small. lia. Qed.

Lemma u32_small v : 0 <= v <= 4294967295 -> v mod 2 ^ 32 = v.
Proof. intros. apply Z.mod_small. lia. Qed.

Lemma signed16_wrap v :
  -32768 <= v <= 32767 -> to_signed16 (v mod 2 ^ 16) = v.
Proof.
  intros H. unfold to_signed16.
  change (2 ^ 16) with 65536.
  destruct (Z.ltb_spec (v mod 65536) 32768) as [L|L].
  - destruct (Z_lt_le_dec v 0) as [N|N].
    + rewrite <- (Z.mod_add v 1 65536) in L by lia.
      rewrite Z.mod_small in L by lia. lia.
    + apply Z.mod_small. lia.
  - destruct (Z_lt_le_dec v 0) as [N|N].
    + rewrite <- (Z.mod_add v 1 65536) by lia.
      rewrite Z.mod_small by lia. lia.
    + rewrite Z.mod_small in L by lia. lia.
Qed.

Lemma u8_at_range off buf : 0 <= u8_at off buf <= 255.
Proof.
  unfold u8_at. pose proof (le_combine_bound (bytes_at off 1 buf)) as H.
  assert (L : (length (bytes_at off 1 buf) <= 1)%nat)
    by (unfold bytes_at; apply firstn_le_length).
  assert (2 ^ (8 * Z.of_nat (length (bytes_at off 1 buf))) <= 2 ^ 8)
    by (apply Z.pow_le_mono_r; lia).
  change (2 ^ 8) with 256 in *. lia.
Qed.

Lemma u32_at_range off buf : 0 <= u32_at off buf <= 4294967295.
Proof.
  unfold u32_at. pose proof (le_combine_bound (bytes_at off 4 buf)) as H.
  assert (L : (length (bytes_at off 4 buf) <= 4)%nat)
    by (unfold bytes_at; apply firstn_le_length).
  assert (2 ^ (8 * Z.of_nat (length (bytes_at off 4 buf))) <= 2 ^ 32)
    by (apply Z.pow_le_mono_r; lia).
  change (2 ^ 32) with 4294967296 in *. lia.
Qed.

Lemma i16_at_range off buf : -32768 <= i16_at off buf <= 32767.
Proof.
  unfold i16_at, to_signed16. pose proof (le_combine_bound (bytes_at off 2 buf)) as H.
  assert (L : (length (bytes_at off 2 buf) <= 2)%nat)
    by (unfold bytes_at; apply firstn_le_length).
  assert (2 ^ (8 * Z.of_nat (length (bytes_at off 2 buf))) <= 2 ^ 16)
    by (apply Z.pow_le_mono_r; lia).
  change (2 ^ 16) with 65536 in *.
  destruct (Z.ltb_spec (le_combine (bytes_at off 2 buf)) 32768); lia.
Qed.

Lemma pack_B_ok v : 0 <= v <= 255 -> pack_B v = Return [byte.of_Z v].
Proof.
  intros H. unfold pack_B.
  destruct (Z.leb_spec 0 v); [|lia]. destruct (Z.leb_spec v 255); [|lia]. reflexivity.
Qed.

Lemma pack_I_ok v : 0 <= v <= 4294967295 -> pack_I v = Return (le_split 4 v).
Proof.
  intros H. unfold pack_I.
  destruct (Z.leb_spec 0 v); [|lia]. destruct (Z.leb_spec v 4294967295); [|lia]. reflexivity.
Qed.

Lemma pack_h_ok v : -32768 <= v <= 32767 -> pack_h v = Return (le_split 2 v).
Proof.
  intros H. unfold pack_h.
  destruct (Z.leb_spec (-32768) v); [|lia]. destruct (Z.leb_spec v 32767); [|lia]. reflexivity.
Qed.

(** ** The reader monad *)

Lemma bind_Return {A B} (m : Reader A) (k : A -> Reader B) s a s' :
  m s = Return (a, s') -> bind m k s = k a s'.
Proof. unfold bind. now intros ->. Qed.

Lemma bind_Raise {A B} (m : Reader A) (k : A -> Reader B) s e :
  m s = Raise e -> bind m k s = Raise e.
Proof. unfold bind. now intros ->. Qed.

Lemma bind_inv {A B} (m : Reader A) (k : A -> Reader B) s r :
  bind m k s = Return r ->
  exists a s1, m s = Return (a, s1) /\ k a s1 = Return r.
Proof.
  unfold bind. destruct (m s) as [[a s1]| |]; try discriminate.
  intros H. now exists a, s1.
Qed.

Lemma ret_inv {A} (a : A) s r : ret a s = Return r -> r = (a, s).
Proof. unfold ret. congruence. Qed.

Lemma raise_inv {A} e s (r : A * list byte) : raise e s = Return r -> False.
Proof. discriminate. Qed.

Lemma read_inv n s data s' :
  _ReadAndUnpack n s = Return (data, s') -> s = data ++ s' /\ length data = n.
Proof.
  unfold _ReadAndUnpack.
  destruct (Nat.eqb_spec (length (firstn n s)) n) as [E|E]; [|discriminate].
  intros [= <- <-]. split; [symmetry; apply firstn_skipn | exact E].
Qed.

Lemma read_app n bs rest :
  length bs = n -> _ReadAndUnpack n (bs ++ rest) = Return (bs, rest).
Proof.
  intros <-. unfold _ReadAndUnpack.
  rewrite firstn_app, firstn_all, Nat.sub_diag, firstn_O, app_nil_r.
  rewrite Nat.eqb_refl.
  rewrite skipn_app, skipn_all, Nat.sub_diag, skipn_O. reflexivity.
Qed.

Lemma read_enough n s :
  (n <= length s)%nat -> _ReadAndUnpack n s = Return (firstn n s, skipn n s).
Proof.
  intros H. unfold _ReadAndUnpack.
  rewrite length_firstn, Nat.min_l by exact H. now rewrite Nat.eqb_refl.
Qed.

Lemma read_short n s :
  (length s < n)%nat ->
  _ReadAndUnpack n s = Raise (PRTLoadError (RanOutOfData n (length s))).
Proof.
  intros H. unfold _ReadAndUnpack.
  rewrite length_firstn, Nat.min_r by lia.
  destruct (Nat.eqb_spec (length s) n); [lia | reflexivity].
Qed.

(** The read of a pixel buffer. *)
Lemma blob_read_inv bmp pos n s data s' :
  lift (bmp_read_at bmp pos n) s = Return (data, s') ->
  n <= PY_SSIZE_T_MAX /\ data = bmp_slice bmp pos n /\ s' = s.
Proof.
  unfold lift, bmp_read_at. destruct (Z.gtb_spec n PY_SSIZE_T_MAX); [discriminate|].
  intros [= <- <-]. repeat split. lia.
Qed.

Lemma blob_read_ok bmp pos n s :
  n <= PY_SSIZE_T_MAX ->
  lift (bmp_read_at bmp pos n) s = Return (bmp_slice bmp pos n, s).
Proof.
  intros H. unfold lift, bmp_read_at.
  destruct (Z.gtb_spec n PY_SSIZE_T_MAX); [lia | reflexivity].
Qed.

Lemma blob_read_big bmp pos n s :
  PY_SSIZE_T_MAX < n -> lift (bmp_read_at bmp pos n) s = Raise OverflowError.
Proof.
  intros H. unfold lift, bmp_read_at.
  destruct (Z.gtb_spec n PY_SSIZE_T_MAX); [reflexivity | lia].
Qed.

(** Taking a computation apart along its binds. *)
Ltac inv_reader H :=
  repeat match type of H with
  | bind _ _ _ = Return _ =>
      let a := fresh "v" in let s1 := fresh "s" in
      let H1 := fresh "R" in
      apply bind_inv in H; destruct H as (a & s1 & H1 & H)
  | ret _ _ = Return _ => apply ret_inv in H
  | raise _ _ = Return _ => exfalso; exact (raise_inv _ _ _ H)
  | (if ?c then _ else _) _ = Return _ =>
      let E := fresh "E" in destruct c eqn:E
  | (let '(_, _) := ?p in _) _ = Return _ => destruct p
  | (match ?p with (_, _) => _ end) _ = Return _ => destruct p
  end.

(** A loop whose every turn is a [step] folds [step] over the values of
    its turns. *)
Lemma for_range_fold {St A} (body : Z -> St -> Reader St)
    (step : St -> A -> St) (P : A -> Prop) :
  (forall i st s st' s', body i st s = Return (st', s') ->
     exists a, st' = step st a /\ P a) ->
  forall n i st s st' s', for_range n i body st s = Return (st', s') ->
    exists l, length l = n /\ Forall P l /\ st' = fold_left step l st.
Proof.
  intros Hbody. induction n as [|n IH]; intros i st s st' s' H; cbn [for_range] in H.
  - apply ret_inv in H. injection H as <- <-. now exists [].
  - apply bind_inv in H. destruct H as (st1 & s1 & H1 & H2).
    apply Hbody in H1. destruct H1 as (a & -> & Pa).
    apply IH in H2. destruct H2 as (l & <- & Pl & ->).
    exists (a :: l). split; [reflexivity | split; [now constructor | reflexivity]].
Qed.

Lemma fold_step_list {A} (l l0 : list A) : fold_left step_list l l0 = l0 ++ l.
Proof.
  revert l0; induction l as [|a l IH]; intros l0; cbn [fold_left].
  - now rewrite app_nil_r.
  - rewrite IH. unfold step_list. now rewrite <- app_assoc.
Qed.

Lemma len_app {A} (l1 l2 : list A) : len (l1 ++ l2) = len l1 + len l2.
Proof. unfold len. rewrite length_app. lia. Qed.

Lemma len_cons {A} (a : A) (l : list A) : len (a :: l) = 1 + len l.
Proof. unfold len. cbn [length]. lia. Qed.

Lemma len_nonneg {A} (l : list A) : 0 <= len l.
Proof. unfold len. lia. Qed.

Lemma fold_step_counted {A} (l l0 : list A) n :
  fold_left step_counted l (l0, n) = (l0 ++ l, n + len l).
Proof.
  revert l0 n; induction l as [|a l IH]; intros l0 n; cbn [fold_left].
  - rewrite app_nil_r. f_equal. unfold len. cbn. lia.
  - unfold step_counted at 2. cbn [fst snd]. rewrite IH, <- app_assoc.
    f_equal. rewrite len_cons. lia.
Qed.

Lemma fold_step_frame l frs nlf nlsf :
  fold_left step_frame l (frs, nlf, nlsf)
  = (frs ++ l, nlf + len l, nlsf + subframes_in l).
Proof.
  revert frs nlf nlsf; induction l as [|f l IH]; intros; cbn [fold_left].
  - rewrite app_nil_r. unfold subframes_in, len. cbn.
    repeat f_equal; lia.
  - cbn [step_frame]. rewrite IH, <- app_assoc, len_cons.
    unfold subframes_in, sumZ. cbn [map fold_right app].
    f_equal; [f_equal|]; lia.
Qed.

Lemma fold_step_animation l anims cn :
  fold_left step_animation l (anims, cn)
  = (anims ++ l,
     mkCounters (num_loaded_frames cn + total_frames l)
       (num_loaded_subframes cn + total_subframes l)
       (num_loaded_anims cn + total_appendix l)).
Proof.
  revert anims cn; induction l as [|a l IH]; intros; cbn [fold_left].
  - rewrite app_nil_r. destruct cn. unfold total_frames, total_subframes, total_appendix.
    cbn. repeat f_equal; lia.
  - cbn [step_animation]. rewrite IH, <- app_assoc.
    cbn [num_loaded_frames num_loaded_subframes num_loaded_anims].
    unfold total_frames, total_subframes, total_appendix, sumZ.
    cbn [map fold_right app].
    f_equal. f_equal; lia.
Qed.

(** ** What a successful [Load] has read *)

Lemma land_128_0 v : 0 <= v <= 255 -> Z.land v 128 = 0 -> v <= 127.
Proof.
  intros R H.
  assert (T : Z.testbit (Z.land v 128) 7 = false) by (rewrite H; apply Z.bits_0).
  rewrite Z.land_spec in T. change (Z.testbit 128 7) with true in T.
  rewrite andb_true_r in T.
  destruct (Z_le_gt_dec v 127) as [L|L]; [exact L|exfalso].
  assert (T' : Z.testbit v 7 = true).
  { apply Z.testbit_true; [lia|]. change (2 ^ 7) with 128.
    assert (v / 128 = 1) as ->; [|reflexivity].
    symmetry. apply Z.div_unique with (r := v - 128); lia. }
  congruence.
Qed.

Lemma land_127_range v : 0 <= Z.land v 127 <= 127.
Proof.
  assert (E : Z.land v 127 = v mod 2 ^ 7) by (apply (Z.land_ones v 7); lia).
  rewrite E. change (2 ^ 7) with 128.
  pose proof (Z.mod_pos_bound v 128 ltac:(lia)). lia.
Qed.

Lemma load_subframe_step i st s st' s' :
  load_subframe i st s = Return (st', s') ->
  exists sf, st' = step_counted st sf /\ Subframe_wf sf.
Proof.
  destruct st as [sfs n]. unfold load_subframe. intros H. inv_reader H.
  injection H as -> ->. eexists; split; [reflexivity|].
  unfold Subframe_wf, u8, i16; cbn.
  repeat split; try apply i16_at_range; apply u8_at_range.
Qed.

Lemma gate_inv v s z o1 o2 s' :
  0 <= v <= 255 ->
  (if negb (Z.land v 128 =? 0)
   then o <- _ReadAndUnpack 2 ;;
        ret (Z.land v 127, Some (u8_at 0 o), Some (u8_at 1 o))
   else ret (v, None, None)) s = Return ((z, o1, o2), s') ->
  0 <= z <= 127 /\ pair_wf o1 o2.
Proof.
  intros R H. destruct (Z.eqb_spec (Z.land v 128) 0) as [E|E]; cbn [negb] in H.
  - apply ret_inv in H. injection H as -> -> -> ->.
    split; [pose proof (land_128_0 v R E); lia | now left].
  - apply bind_inv in H. destruct H as (o & s1 & _ & H).
    apply ret_inv in H. injection H as -> -> -> ->.
    split; [apply land_127_range|].
    right. do 2 eexists. repeat split; apply u8_at_range.
Qed.

Lemma load_frame_head_inv s cnt unk o1 o2 o3 o4 s' :
  load_frame_head s = Return ((cnt, unk, o1, o2, o3, o4), s') ->
  0 <= cnt <= 127 /\ 0 <= unk <= 127 /\ pair_wf o1 o2 /\ pair_wf o3 o4.
Proof.
  unfold load_frame_head. intros H.
  apply bind_inv in H. destruct H as (hd & s0 & _ & H).
  apply bind_inv in H. destruct H as ([[c p1] p2] & s1 & G1 & H).
  apply bind_inv in H. destruct H as ([[u p3] p4] & s2 & G2 & H).
  apply ret_inv in H. injection H as -> -> -> -> -> -> ->.
  apply gate_inv in G1; [|apply u8_at_range].
  apply gate_inv in G2; [|apply u8_at_range].
  tauto.
Qed.

Lemma load_frame_step i st s st' s' :
  load_frame i st s = Return (st', s') ->
  exists f, st' = step_frame st f /\ Frame_wf f.
Proof.
  destruct st as [[frs nlf] nlsf]. unfold load_frame. intros H.
  apply bind_inv in H. destruct H as ([[[[[cnt unk] o1] o2] o3] o4] & s1 & H1 & H).
  apply load_frame_head_inv in H1. destruct H1 as (Hc & Hu & P1 & P2).
  apply bind_inv in H. destruct H as ([sfs n] & s2 & H2 & H).
  apply ret_inv in H. injection H as -> ->.
  apply (for_range_fold _ step_counted Subframe_wf) in H2;
    [|exact load_subframe_step].
  destruct H2 as (l & Hl & Pl & E). rewrite fold_step_counted in E.
  injection E as -> ->. cbn [app].
  exists (Frame.mk l unk o1 o2 o3 o4). split.
  - reflexivity.
  - unfold Frame_wf; cbn. unfold len. rewrite Hl.
    repeat split; try assumption; lia.
Qed.

Lemma load_appendix_step i st s st' s' :
  load_appendix i st s = Return (st', s') ->
  exists ap, st' = step_counted st ap /\ appendix_wf ap.
Proof.
  destruct st as [aps n]. unfold load_appendix. intros H. inv_reader H.
  injection H as -> ->. eexists; split; [reflexivity|].
  do 4 eexists. split; [reflexivity|]. unfold u32.
  repeat split; apply u32_at_range.
Qed.

Lemma Z2Nat_u32_len {A} (l : list A) v :
  0 <= v -> length l = Z.to_nat v -> len l = v.
Proof. unfold len. lia. Qed.

Lemma load_animation_step i st s st' s' :
  load_animation i st s = Return (st', s') ->
  exists a, st' = step_animation st a /\ Animation_wf a.
Proof.
  destruct st as [anims cn]. unfold load_animation. intros H.
  apply bind_inv in H. destruct H as (rec & s1 & _ & H).
  apply bind_inv in H. destruct H as ([[frs nlf] nlsf] & s2 & H2 & H).
  apply bind_inv in H. destruct H as (u & s3 & _ & H).
  apply bind_inv in H. destruct H as ([aps nla] & s4 & H4 & H).
  apply ret_inv in H. injection H as -> ->.
  apply (for_range_fold _ step_frame Frame_wf) in H2; [|exact load_frame_step].
  destruct H2 as (l & Hl & Pl & E). rewrite fold_step_frame in E.
  injection E as -> -> ->. cbn [app].
  apply (for_range_fold _ step_counted appendix_wf) in H4;
    [|exact load_appendix_step].
  destruct H4 as (la & Hla & Pla & E). rewrite fold_step_counted in E.
  injection E as -> ->. cbn [app].
  pose proof (u32_at_range 32 rec) as R32. pose proof (u32_at_range 0 u) as R0.
  apply Z2Nat_u32_len in Hl; [|lia]. apply Z2Nat_u32_len in Hla; [|lia].
  exists (Animation.mk (u32_at 0 rec)
            (Rect.mk (u32_at 4 rec) (u32_at 8 rec) (u32_at 12 rec) (u32_at 16 rec))
            (Point.mk (u32_at 20 rec) (u32_at 24 rec)) (u32_at 28 rec)
            l la (u32_at 0 u)).
  split.
  - reflexivity.
  - unfold Animation_wf, u32; cbn. rewrite Hl, Hla.
    repeat split; try apply u32_at_range; assumption.
Qed.

Lemma unpack_color_wf entry : Color_wf (unpack_color entry).
Proof. unfold Color_wf, unpack_color, u8; cbn. repeat split; apply u8_at_range. Qed.

Lemma load_color_step (i : Z) cs s cs' s' :
  (entry <- _ReadAndUnpack 4 ;; ret (cs ++ [unpack_color entry])) s
    = Return (cs', s') ->
  exists c, cs' = step_list cs c /\ Color_wf c.
Proof.
  intros H. inv_reader H. injection H as -> ->.
  eexists; split; [reflexivity | apply unpack_color_wf].
Qed.

(** The colors one palette entry collects: 256 per [data] section. *)
Lemma load_palette_tags_inv fuel :
  forall n pal s pal' s',
    load_palette_tags fuel n pal s = Return (pal', s') ->
    exists new, pal' = pal ++ new /\ Forall Color_wf new
                /\ exists k, length new = (256 * k)%nat.
Proof.
  induction fuel as [|fuel IH]; intros n pal s pal' s' H; cbn [load_palette_tags] in H.
  - destruct (n >? 0); [discriminate|].
    apply ret_inv in H. injection H as -> ->.
    exists []. rewrite app_nil_r. repeat split; [constructor | now exists 0%nat].
  - destruct (n >? 0).
    2:{ apply ret_inv in H. injection H as -> ->.
        exists []. rewrite app_nil_r. repeat split; [constructor | now exists 0%nat]. }
    apply bind_inv in H. destruct H as (hdr & s1 & _ & H).
    destruct (bytes_eqb (bytes_at 0 4 hdr) tag_PPAL).
    { destruct (negb (u32_at 4 hdr =? 1048)); [discriminate|]. now apply IH in H. }
    destruct (bytes_eqb (bytes_at 0 4 hdr) tag_RIFF); [discriminate|].
    destruct (bytes_eqb (bytes_at 0 4 hdr) tag_head).
    { destruct (negb (u32_at 4 hdr =? 4)); [discriminate|].
      apply bind_inv in H. destruct H as (cnt & s2 & _ & H). now apply IH in H. }
    destruct (bytes_eqb (bytes_at 0 4 hdr) tag_data); [|discriminate].
    destruct (negb (u32_at 4 hdr =? 1024)); [discriminate|].
    apply bind_inv in H. destruct H as (pal1 & s2 & L & H).
    apply (for_range_fold _ step_list Color_wf) in L; [|exact load_color_step].
    destruct L as (l & Hl & Pl & ->). rewrite fold_step_list in H.
    apply IH in H. destruct H as (new & -> & Pn & k & Hk).
    exists (l ++ new). rewrite app_assoc. repeat split.
    + apply Forall_app; now split.
    + exists (S k). rewrite length_app, Hl, Hk. lia.
Qed.

Lemma load_palette_step (i : Z) pals s pals' s' :
  (pal <- load_palette ;; ret (pals ++ [pal])) s = Return (pals', s') ->
  exists p, pals' = step_list pals p /\ (Palette_wf p /\ colors_in_blocks p).
Proof.
  intros H. apply bind_inv in H. destruct H as (pal & s1 & L & H).
  apply ret_inv in H. injection H as -> ->.
  unfold load_palette in L. apply bind_inv in L. destruct L as (cs & s2 & L & H).
  apply ret_inv in H. injection H as -> ->.
  apply load_palette_tags_inv in L. destruct L as (new & -> & Pn & k & Hk).
  eexists; split; [reflexivity|]. cbn [app].
  split; [exact Pn | exists k; exact Hk].
Qed.

Lemma _LoadPalettes_inv pals0 s pals s' :
  _LoadPalettes pals0 s = Return (pals, s') ->
  exists new, pals = pals0 ++ new /\ u32 (len new)
              /\ Forall Palette_wf new /\ Forall colors_in_blocks new.
Proof.
  unfold _LoadPalettes. intros H.
  apply bind_inv in H. destruct H as (hdr & s1 & _ & H).
  destruct (negb (bytes_eqb (bytes_at 0 4 hdr) tag_CPAL)); [discriminate|].
  apply (for_range_fold _ step_list (fun p => Palette_wf p /\ colors_in_blocks p)) in H;
    [|exact load_palette_step].
  destruct H as (l & Hl & Pl & ->). rewrite fold_step_list.
  exists l. pose proof (u32_at_range 4 hdr) as R.
  apply Z2Nat_u32_len in Hl; [|lia].
  apply Forall_and_inv in Pl. unfold u32. rewrite Hl. tauto.
Qed.

Lemma load_bitmap_step bmp data_start pals i bmps s bmps' s' :
  load_bitmap bmp data_start pals i bmps s = Return (bmps', s') ->
  exists bm, bmps' = step_list bmps bm
    /\ (Bitmap_wf pals bm
        /\ exists padded_w offset,
             u32 padded_w /\ u32 offset
             /\ padded_w * Bitmap.height bm <= PY_SSIZE_T_MAX
             /\ Bitmap.data bm
                = bmp_slice bmp (offset + data_start) (padded_w * Bitmap.height bm)).
Proof.
  unfold load_bitmap. intros H.
  apply bind_inv in H. destruct H as (rec & s1 & _ & H).
  destruct (Z.ltb_spec (i16_at 18 rec) 0) as [L|L]; [discriminate|].
  destruct (Z.gtb_spec (i16_at 18 rec) (Z.of_nat (length pals) - 1)) as [G|G];
    [discriminate|].
  cbn [orb] in H. apply bind_inv in H. destruct H as (data & s2 & R & H).
  apply blob_read_inv in R. destruct R as (Hmax & -> & ->).
  apply ret_inv in H. injection H as -> ->.
  eexists; split; [reflexivity|]. split.
  - unfold Bitmap_wf, i16, u32, len; cbn.
    repeat split; try apply i16_at_range; try apply u32_at_range; lia.
  - exists (u32_at 0 rec), (u32_at 4 rec). cbn.
    repeat split; try apply u32_at_range. exact Hmax.
Qed.

Lemma _LoadBitmaps_inv bmp pals bmps0 s bmps s' :
  _LoadBitmaps bmp pals bmps0 s = Return (bmps, s') ->
  exists new, bmps = bmps0 ++ new /\ u32 (len new)
              /\ Forall (Bitmap_wf pals) new.
Proof.
  unfold _LoadBitmaps. intros H.
  destruct (negb (Nat.eqb (length (firstn 14 bmp)) 14)); [discriminate|].
  destruct (negb (bytes_eqb (bytes_at 0 2 (firstn 14 bmp)) sig_BM)); [discriminate|].
  apply bind_inv in H. destruct H as (cnt & s1 & _ & H).
  eapply for_range_fold in H; [|apply load_bitmap_step].
  destruct H as (l & Hl & Pl & ->). rewrite fold_step_list.
  exists l. pose proof (u32_at_range 0 cnt) as R.
  apply Z2Nat_u32_len in Hl; [|lia].
  apply Forall_and_inv in Pl. unfold u32. rewrite Hl. tauto.
Qed.

(** The counters of [Load] are the totals of the animations it has
    parsed. *)
Lemma Load_sections_inv bmp s p s' :
  Load_sections bmp s = Return (p, s') ->
  (u32 (len (p_palettes p)) /\ Forall Palette_wf (p_palettes p)
   /\ Forall colors_in_blocks (p_palettes p))
  /\ (u32 (len (p_bitmaps p)) /\ Forall (Bitmap_wf (p_palettes p)) (p_bitmaps p))
  /\ (len (p_animations p) = num_anims (p_header p)
      /\ Forall Animation_wf (p_animations p))
  /\ (u32 (num_anims (p_header p)) /\ u32 (num_frames (p_header p))
      /\ u32 (num_subframes (p_header p))
      /\ u32 (hdr_optional_entries (p_header p)))
  /\ p_counters p
     = mkCounters (total_frames (p_animations p))
         (total_subframes (p_animations p)) (total_appendix (p_animations p)).
Proof.
  unfold Load_sections. intros H.
  apply bind_inv in H. destruct H as (pals & s1 & HP & H).
  apply bind_inv in H. destruct H as (bmps & s2 & HB & H).
  apply bind_inv in H. destruct H as (hdr & s3 & HH & H).
  apply bind_inv in H. destruct H as ([anims cn] & s4 & HA & H).
  apply ret_inv in H. injection H as -> ->. cbn.
  apply _LoadPalettes_inv in HP. destruct HP as (lp & -> & P1 & P2 & P3).
  apply _LoadBitmaps_inv in HB. destruct HB as (lb & -> & B1 & B2).
  apply (for_range_fold _ step_animation Animation_wf) in HA;
    [|exact load_animation_step].
  destruct HA as (la & Hla & Pla & E). rewrite fold_step_animation in E.
  injection E as -> ->. cbn.
  unfold load_header in HH. inv_reader HH. injection HH as -> ->.
  cbn in Hla |- *.
  pose proof (u32_at_range 0 v) as Rv.
  apply Z2Nat_u32_len in Hla; [|lia].
  unfold u32 in P1, B1.
  repeat split; try apply u32_at_range; try assumption; lia.
Qed.

(** ** The fuel of the palette loop is never exhausted *)

Lemma bind_fuel {A B} (m : Reader A) (k : A -> Reader B) s :
  m s <> OutOfFuel ->
  (forall a s1, m s = Return (a, s1) -> k a s1 <> OutOfFuel) ->
  bind m k s <> OutOfFuel.
Proof.
  unfold bind. intros Hm Hk. destruct (m s) as [[a s1]| |];
    [now apply Hk | discriminate | congruence].
Qed.

Lemma read_fuel n s : _ReadAndUnpack n s <> OutOfFuel.
Proof. unfold _ReadAndUnpack. destruct (Nat.eqb _ _); discriminate. Qed.

Lemma for_range_fuel {St} (body : Z -> St -> Reader St) :
  (forall i st s, body i st s <> OutOfFuel) ->
  forall n i st s, for_range n i body st s <> OutOfFuel.
Proof.
  intros Hb. induction n as [|n IH]; intros i st s; cbn [for_range].
  - discriminate.
  - apply bind_fuel; [apply Hb | intros; apply IH].
Qed.

(** No reader gives back more of the stream than it got. *)
Lemma for_range_shrinks {St} (body : Z -> St -> Reader St) :
  (forall i st s st' s', body i st s = Return (st', s') ->
     (length s' <= length s)%nat) ->
  forall n i st s st' s', for_range n i body st s = Return (st', s') ->
    (length s' <= length s)%nat.
Proof.
  intros Hb. induction n as [|n IH]; intros i st s st' s' H; cbn [for_range] in H.
  - apply ret_inv in H. injection H as <- <-. lia.
  - apply bind_inv in H. destruct H as (st1 & s1 & H1 & H2).
    apply Hb in H1. apply IH in H2. lia.
Qed.

Lemma read_length n s data s' :
  _ReadAndUnpack n s = Return (data, s') -> length s = (n + length s')%nat.
Proof.
  intros H. apply read_inv in H. destruct H as [-> <-]. apply length_app.
Qed.

Lemma load_palette_tags_fuel fuel :
  forall n pal s, (length s < fuel)%nat ->
    load_palette_tags fuel n pal s <> OutOfFuel.
Proof.
  induction fuel as [|fuel IH]; intros n pal s L; [lia|].
  cbn [load_palette_tags]. destruct (n >? 0); [|discriminate].
  apply bind_fuel; [apply read_fuel|]. intros hdr s1 R.
  apply read_length in R.
  destruct (bytes_eqb (bytes_at 0 4 hdr) tag_PPAL).
  { destruct (negb _); [discriminate | apply IH; lia]. }
  destruct (bytes_eqb (bytes_at 0 4 hdr) tag_RIFF); [discriminate|].
  destruct (bytes_eqb (bytes_at 0 4 hdr) tag_head).
  { destruct (negb _); [discriminate|].
    apply bind_fuel; [apply read_fuel|]. intros cnt s2 R2.
    apply read_length in R2. apply IH; lia. }
  destruct (bytes_eqb (bytes_at 0 4 hdr) tag_data); [|discriminate].
  destruct (negb _); [discriminate|].
  apply bind_fuel.
  - apply for_range_fuel. intros i st s0.
    apply bind_fuel; [apply read_fuel | discriminate].
  - intros pal1 s2 R2. apply IH.
    apply for_range_shrinks in R2; [lia|].
    intros i st s0 st' s' H. apply bind_inv in H. destruct H as (e & s3 & H1 & H).
    apply ret_inv in H. injection H as -> ->. apply read_length in H1. lia.
Qed.

Lemma load_palette_fuel s : load_palette s <> OutOfFuel.
Proof.
  unfold load_palette. apply bind_fuel; [|discriminate].
  apply load_palette_tags_fuel. lia.
Qed.

Lemma _LoadPalettes_fuel pals0 s : _LoadPalettes pals0 s <> OutOfFuel.
Proof.
  unfold _LoadPalettes. apply bind_fuel; [apply read_fuel|]. intros hdr s1 _.
  destruct (negb _); [discriminate|].
  apply for_range_fuel. intros i st s0.
  apply bind_fuel; [apply load_palette_fuel | discriminate].
Qed.

Lemma load_bitmap_fuel bmp ds pals i st s : load_bitmap bmp ds pals i st s <> OutOfFuel.
Proof.
  unfold load_bitmap. apply bind_fuel; [apply read_fuel|]. intros rec s1 _.
  destruct (_ || _); [discriminate|].
  apply bind_fuel; [|discriminate].
  unfold lift, bmp_read_at. destruct (_ >? _); discriminate.
Qed.

Lemma _LoadBitmaps_fuel bmp pals st s : _LoadBitmaps bmp pals st s <> OutOfFuel.
Proof.
  unfold _LoadBitmaps. destruct (negb _); [discriminate|].
  destruct (negb _); [discriminate|].
  apply bind_fuel; [apply read_fuel|]. intros cnt s1 _.
  apply for_range_fuel. intros. apply load_bitmap_fuel.
Qed.

Lemma load_subframe_fuel i st s : load_subframe i st s <> OutOfFuel.
Proof.
  destruct st. unfold load_subframe.
  apply bind_fuel; [apply read_fuel | discriminate].
Qed.

Lemma load_frame_head_fuel s : load_frame_head s <> OutOfFuel.
Proof.
  unfold load_frame_head. apply bind_fuel; [apply read_fuel|]. intros hd s1 _.
  apply bind_fuel.
  { destruct (negb _); [|discriminate].
    apply bind_fuel; [apply read_fuel | discriminate]. }
  intros [[c o1] o2] s2 _. apply bind_fuel.
  { destruct (negb _); [|discriminate].
    apply bind_fuel; [apply read_fuel | discriminate]. }
  intros [[u o3] o4] s3 _. discriminate.
Qed.

Lemma load_frame_fuel i st s : load_frame i st s <> OutOfFuel.
Proof.
  destruct st as [[frs a] b0]. unfold load_frame.
  apply bind_fuel; [apply load_frame_head_fuel|].
  intros [[[[[c u] o1] o2] o3] o4] s1 _.
  apply bind_fuel; [apply for_range_fuel, load_subframe_fuel|].
  intros [sfs n] s2 _. discriminate.
Qed.

Lemma load_appendix_fuel i st s : load_appendix i st s <> OutOfFuel.
Proof.
  destruct st. unfold load_appendix.
  apply bind_fuel; [apply read_fuel | discriminate].
Qed.

Lemma load_animation_fuel i st s : load_animation i st s <> OutOfFuel.
Proof.
  destruct st as [anims cn]. unfold load_animation.
  apply bind_fuel; [apply read_fuel|]. intros rec s1 _.
  apply bind_fuel; [apply for_range_fuel, load_frame_fuel|].
  intros [[frs a] b0] s2 _.
  apply bind_fuel; [apply read_fuel|]. intros u s3 _.
  apply bind_fuel; [apply for_range_fuel, load_appendix_fuel|].
  intros [aps n] s4 _. discriminate.
Qed.

Lemma Load_sections_fuel bmp s : Load_sections bmp s <> OutOfFuel.
Proof.
  unfold Load_sections.
  apply bind_fuel; [apply _LoadPalettes_fuel|]. intros pals s1 _.
  apply bind_fuel; [apply _LoadBitmaps_fuel|]. intros bmps s2 _.
  apply bind_fuel.
  { unfold load_header. repeat (apply bind_fuel; [apply read_fuel|]; intros).
    discriminate. }
  intros hdr s3 _.
  apply bind_fuel; [apply for_range_fuel, load_animation_fuel|].
  intros [anims cn] s4 _. discriminate.
Qed.

(** [Load] always ends: it returns a container or raises. *)
Lemma Load_never_OutOfFuel prt bmp : Load prt bmp <> OutOfFuel.
Proof.
  unfold Load.
  assert (H : (p <- Load_sections bmp ;; _ <- check_counts p ;; ret p) prt
              <> OutOfFuel).
  { apply bind_fuel; [apply Load_sections_fuel|]. intros p s1 _.
    apply bind_fuel; [|discriminate].
    unfold check_counts. repeat (destruct (negb _); [discriminate|]). discriminate. }
  destruct ((p <- Load_sections bmp ;; _ <- check_counts p ;; ret p) prt)
    as [[p rest]| |]; [discriminate | discriminate | contradiction].
Qed.

(** A successful [Load], taken apart. *)
Lemma Load_inv prt bmp c :
  Load prt bmp = Return c ->
  exists p,
    Load_sections bmp prt = Return (p, extra_data c)
    /\ c = mkPRTFile (p_palettes p) (p_bitmaps p) (p_animations p)
             (hdr_optional_entries (p_header p)) (extra_data c)
    /\ len (p_animations p) = num_anims (p_header p)
    /\ num_loaded_frames (p_counters p) = num_frames (p_header p)
    /\ num_loaded_subframes (p_counters p) = num_subframes (p_header p).
Proof.
  unfold Load. intros H.
  destruct ((p <- Load_sections bmp ;; _ <- check_counts p ;; ret p) prt)
    as [[p rest]| |] eqn:E; try discriminate.
  injection H as <-. cbn [extra_data].
  apply bind_inv in E. destruct E as (p' & s1 & HS & E).
  apply bind_inv in E. destruct E as ([] & s2 & HC & E).
  apply ret_inv in E. injection E as -> ->.
  unfold check_counts in HC.
  destruct (Z.eqb_spec (Z.of_nat (length (p_animations p'))) (num_anims (p_header p')));
    [|discriminate].
  destruct (Z.eqb_spec (num_loaded_frames (p_counters p')) (num_frames (p_header p')));
    [|discriminate].
  destruct (Z.eqb_spec (num_loaded_subframes (p_counters p')) (num_subframes (p_header p')));
    [|discriminate].
  cbn [negb] in HC. apply ret_inv in HC. injection HC as <-.
  exists p'. repeat split; assumption.
Qed.

Lemma Load_wf prt bmp c : Load prt bmp = Return c -> PRTFile_wf c.
Proof.
  intros H. apply Load_inv in H. destruct H as (p & HS & -> & E1 & E2 & E3).
  apply Load_sections_inv in HS.
  destruct HS as ((P1 & P2 & P3) & (B1 & B2) & (A1 & A2) & (H1 & H2 & H3 & H4) & C).
  rewrite C in E2, E3. cbn [num_loaded_frames num_loaded_subframes] in E2, E3.
  unfold PRTFile_wf.
  cbn [palettes bitmaps animations num_optional_entries].
  rewrite A1, E2, E3. tauto.
Qed.

(** ** Writing, then reading back: the pieces *)

Lemma wrote_bind (w1 w2 : Writer unit) p1 b1 p2 b2 :
  wrote w1 p1 b1 -> wrote w2 p2 b2 -> wrote (w1 >> w2) (p1 ++ p2) (b1 ++ b2).
Proof. unfold wrote. intros -> ->. reflexivity. Qed.

Lemma emits_bind (w1 w2 : Writer unit) p1 p2 :
  emits w1 p1 -> emits w2 p2 -> emits (w1 >> w2) (p1 ++ p2).
Proof. unfold emits. intros H1 H2. exact (wrote_bind _ _ _ _ _ _ H1 H2). Qed.

Lemma emits_write packed bs : packed = Return bs -> emits (prt_write packed) bs.
Proof. intros ->. reflexivity. Qed.

Lemma decodes_bind {A B} (m : Reader A) (k : A -> Reader B) b1 b2 a v :
  decodes m b1 a -> decodes (k a) b2 v -> decodes (bind m k) (b1 ++ b2) v.
Proof.
  intros H1 H2 rest. rewrite <- app_assoc.
  rewrite (bind_Return _ _ _ _ _ (H1 _)). apply H2.
Qed.

Lemma bind_read {B} n (k : list byte -> Reader B) bs rest :
  length bs = n -> bind (_ReadAndUnpack n) k (bs ++ rest) = k bs rest.
Proof. intros H. apply bind_Return. now apply read_app. Qed.

Lemma bind_read_firstn {B} n (k : list byte -> Reader B) s :
  (n <= length s)%nat ->
  bind (_ReadAndUnpack n) k s = k (firstn n s) (skipn n s).
Proof. intros H. apply bind_Return. now apply read_enough. Qed.

Lemma bind_assoc {A B C} (m : Reader A) (k1 : A -> Reader B)
    (k2 : B -> Reader C) s :
  bind (bind m k1) k2 s = bind m (fun a => bind (k1 a) k2) s.
Proof. unfold bind. now destruct (m s) as [[a s1]| |]. Qed.

Lemma bind_ret_l {A B} (a : A) (k : A -> Reader B) s : bind (ret a) k s = k a s.
Proof. reflexivity. Qed.

(** Running a reader over a stream whose first bytes are explicit. *)
Ltac run_reader :=
  repeat (first [ rewrite bind_ret_l
                | rewrite bind_assoc
                | rewrite bind_read_firstn by (cbn [length]; lia) ];
          cbn [firstn skipn negb]; cbv beta iota).

(** A loop of [Write] against the loop of [Load] that reads it back. *)
Lemma loop_roundtrip {St A} (body : Z -> St -> Reader St)
    (wbody : A -> Writer unit) (step : St -> A -> St) (P : A -> Prop) :
  (forall a, P a ->
     exists bs, emits (wbody a) bs
                /\ forall i st, decodes (body i st) bs (step st a)) ->
  forall l, Forall P l ->
    exists bs, emits (for_each l wbody) bs
               /\ forall i st,
                    decodes (for_range (length l) i body st) bs (fold_left step l st).
Proof.
  intros Hbody. induction l as [|a l IH]; intros Pl.
  - exists []. split; [reflexivity | intros i st rest; reflexivity].
  - inversion Pl as [|? ? Pa Pl']; subst.
    destruct (Hbody a Pa) as (b1 & E1 & D1).
    destruct (IH Pl') as (b2 & E2 & D2).
    exists (b1 ++ b2). split.
    + cbn [for_each]. now apply emits_bind.
    + intros i st. cbn [for_range length fold_left].
      eapply decodes_bind; [apply D1 | apply D2].
Qed.

(** *** Colors *)

Lemma write_color_emits c :
  Color_wf c ->
  emits (write_color c)
    [byte.of_Z (Color.b c); byte.of_Z (Color.g c);
     byte.of_Z (Color.r c); byte.of_Z (Color.flags c)].
Proof.
  intros (Hr & Hg & Hb & Hf). unfold write_color.
  apply emits_write.
  rewrite !pack_B_ok by assumption. reflexivity.
Qed.

Lemma unpack_color_bytes c :
  Color_wf c ->
  unpack_color [byte.of_Z (Color.b c); byte.of_Z (Color.g c);
                byte.of_Z (Color.r c); byte.of_Z (Color.flags c)] = c.
Proof.
  intros (Hr & Hg & Hb & Hf). unfold unpack_color, u8_at.
  cbn [bytes_at skipn firstn].
  rewrite !le_combine_1_of_Z, !u8_small by assumption.
  now destruct c.
Qed.

Lemma color_roundtrip c :
  Color_wf c ->
  exists bs, emits (write_color c) bs
    /\ forall (i : Z) cs,
         decodes (entry <- _ReadAndUnpack 4 ;; ret (cs ++ [unpack_color entry]))
           bs (step_list cs c).
Proof.
  intros Hc. eexists. split; [now apply write_color_emits|].
  intros i cs rest.
  rewrite (bind_read 4) by reflexivity.
  now rewrite unpack_color_bytes.
Qed.

(** *** Palette entries: the three tags *)

Lemma tags_PPAL fuel n pal hdr rest :
  0 < n -> length hdr = 8%nat ->
  bytes_at 0 4 hdr = tag_PPAL -> u32_at 4 hdr = 1048 ->
  load_palette_tags (S fuel) n pal (hdr ++ rest)
  = load_palette_tags fuel (n - 1) pal rest.
Proof.
  intros Hn L T Sz. cbn [load_palette_tags].
  destruct (Z.gtb_spec n 0); [|lia].
  rewrite (bind_read 8) by exact L.
  rewrite T, Sz. reflexivity.
Qed.

Lemma tags_head fuel n pal hdr cnt rest :
  0 < n -> length hdr = 8%nat -> length cnt = 4%nat ->
  bytes_at 0 4 hdr = tag_head -> u32_at 4 hdr = 4 ->
  load_palette_tags (S fuel) n pal (hdr ++ cnt ++ rest)
  = load_palette_tags fuel (u32_at 0 cnt) pal rest.
Proof.
  intros Hn L Lc T Sz. cbn [load_palette_tags].
  destruct (Z.gtb_spec n 0); [|lia].
  rewrite (bind_read 8) by exact L.
  rewrite T, Sz.
  change (bytes_eqb tag_head tag_PPAL) with false.
  change (bytes_eqb tag_head tag_RIFF) with false.
  change (bytes_eqb tag_head tag_head) with true.
  change (negb (4 =? 4)) with false. cbv iota.
  rewrite (bind_read 4) by exact Lc. reflexivity.
Qed.

Lemma tags_data fuel n pal hdr cs bs rest :
  0 < n -> length hdr = 8%nat ->
  bytes_at 0 4 hdr = tag_data -> u32_at 4 hdr = 1024 ->
  length cs = 256%nat -> Forall Color_wf cs ->
  emits (for_each cs write_color) bs ->
  load_palette_tags (S fuel) n pal (hdr ++ bs ++ rest)
  = load_palette_tags fuel (n - 1) (pal ++ cs) rest.
Proof.
  intros Hn L T Sz Lcs Wcs E. cbn [load_palette_tags].
  destruct (Z.gtb_spec n 0); [|lia].
  rewrite (bind_read 8) by exact L.
  rewrite T, Sz.
  change (bytes_eqb tag_data tag_PPAL) with false.
  change (bytes_eqb tag_data tag_RIFF) with false.
  change (bytes_eqb tag_data tag_head) with false.
  change (bytes_eqb tag_data tag_data) with true.
  change (negb (1024 =? 1024)) with false. cbv iota.
  destruct (loop_roundtrip _ _ _ _ color_roundtrip cs Wcs) as (bs' & E' & D).
  assert (bs' = bs) as -> by (unfold emits, wrote in E, E'; congruence).
  rewrite <- Lcs.
  rewrite (bind_Return _ _ _ _ _ (D 0 pal rest)).
  now rewrite fold_step_list.
Qed.

Lemma tags_done fuel n pal s :
  n <= 0 -> load_palette_tags fuel n pal s = Return (pal, s).
Proof.
  intros H. destruct fuel; cbn [load_palette_tags];
    (destruct (Z.gtb_spec n 0); [lia | reflexivity]).
Qed.

(** Reading fields back out of a packed record. *)
Ltac fields :=
  cbv [le_split bytes_at u32_at i16_at u8_at
       tag_CPAL tag_PPAL tag_head tag_data sig_BM];
  cbn [app skipn firstn];
  rewrite ?le_combine_4_of_Z, ?le_combine_2_of_Z, ?le_combine_1_of_Z.

Lemma palette_roundtrip pal :
  Palette_wf pal /\ length (Palette.colors pal) = 256%nat ->
  exists bs, emits (write_palette pal) bs
    /\ forall (i : Z) pals,
         decodes (p <- load_palette ;; ret (pals ++ [p])) bs (step_list pals pal).
Proof.
  intros [W L].
  destruct (loop_roundtrip _ _ _ _ color_roundtrip _ W) as (bc & Ec & _).
  set (hP := tag_PPAL ++ le_split 4 1048).
  set (hH := tag_head ++ le_split 4 4).
  set (cH := le_split 4 1).
  set (hD := tag_data ++ le_split 4 1024).
  exists (hP ++ (hH ++ cH) ++ hD ++ bc). split.
  - unfold write_palette.
    repeat (apply emits_bind; [apply emits_write; reflexivity|]). exact Ec.
  - intros i pals rest. rewrite <- !app_assoc.
    rewrite (bind_Return load_palette _ _ pal rest); [reflexivity|].
    unfold load_palette.
    set (s := hP ++ _).
    assert (Ls : (2 <= length s)%nat) by (unfold s; rewrite length_app; cbn; lia).
    destruct (length s) as [|[|f]]; [lia | lia |].
    unfold s.
    rewrite (bind_Return _ _ _ (Palette.colors pal) rest); [now destruct pal|].
    rewrite tags_PPAL; [|lia|reflexivity..].
    rewrite tags_head; [|lia|reflexivity..].
    rewrite (tags_data _ _ _ _ (Palette.colors pal) bc);
      [|reflexivity..|exact L|exact W|exact Ec].
    rewrite tags_done by (vm_compute; discriminate). reflexivity.
Qed.

Lemma palettes_roundtrip pals :
  u32 (len pals) ->
  Forall (fun p => Palette_wf p /\ length (Palette.colors p) = 256%nat) pals ->
  exists bs, emits (_WritePalettes pals) bs /\ decodes (_LoadPalettes []) bs pals.
Proof.
  intros R W.
  destruct (loop_roundtrip _ _ _ _ palette_roundtrip _ W) as (bp & Ep & Dp).
  exists ((tag_CPAL ++ le_split 4 (len pals) ++ []) ++ bp). split.
  - unfold _WritePalettes. apply emits_bind; [|exact Ep].
    apply emits_write. rewrite pack_I_ok by exact R. reflexivity.
  - intros rest. rewrite <- app_assoc. unfold _LoadPalettes.
    rewrite (bind_read 8) by (rewrite !length_app, length_le_split; reflexivity).
    fields. rewrite u32_small by exact R.
    change (negb (bytes_eqb _ _)) with false. cbv iota.
    unfold len. rewrite Nat2Z.id, Dp, fold_step_list. reflexivity.
Qed.

(** *** Bitmaps *)

Lemma bytes_at_firstn off n m (s : list byte) :
  (off + n <= m)%nat -> bytes_at off n (firstn m s) = bytes_at off n s.
Proof.
  intros H. unfold bytes_at.
  rewrite skipn_firstn_comm, firstn_firstn. f_equal. lia.
Qed.

Lemma u32_at_firstn off m (s : list byte) :
  (off + 4 <= m)%nat -> u32_at off (firstn m s) = u32_at off s.
Proof. intros H. unfold u32_at. now rewrite bytes_at_firstn. Qed.

Lemma i16_at_firstn off m (s : list byte) :
  (off + 2 <= m)%nat -> i16_at off (firstn m s) = i16_at off s.
Proof. intros H. unfold i16_at. now rewrite bytes_at_firstn. Qed.

Lemma u8_at_firstn off m (s : list byte) :
  (off + 1 <= m)%nat -> u8_at off (firstn m s) = u8_at off s.
Proof. intros H. unfold u8_at. now rewrite bytes_at_firstn. Qed.

Lemma padded_width_nonneg w : 0 <= w -> 0 <= padded_width w.
Proof.
  intros H. unfold padded_width. apply Z.land_nonneg. left. lia.
Qed.

Lemma bmp_read_slice blob ds pre d post :
  0 <= ds ->
  skipn (Z.to_nat ds) blob = pre ++ d ++ post ->
  bmp_slice blob (len pre + ds) (len d) = d.
Proof.
  intros Hds E. unfold bmp_slice, len.
  replace (Z.to_nat (Z.of_nat (length pre) + ds))
    with (length pre + Z.to_nat ds)%nat by lia.
  rewrite <- skipn_skipn, E.
  rewrite skipn_app, skipn_all, Nat.sub_diag, skipn_O. cbn [app].
  rewrite Nat2Z.id, firstn_app, firstn_all, Nat.sub_diag, firstn_O.
  apply app_nil_r.
Qed.

Lemma bitmap_record_roundtrip blob ds pals bm pre post :
  Bitmap_wf pals bm -> Bitmap_padded bm ->
  u32 (len pre) -> 0 <= ds ->
  len (Bitmap.data bm) <= PY_SSIZE_T_MAX ->
  skipn (Z.to_nat ds) blob = pre ++ Bitmap.data bm ++ post ->
  exists bs,
    pack_all [pack_I (padded_width (Bitmap.width bm)); pack_I (len pre);
              pack_I (Bitmap.height bm); pack_I (Bitmap.width bm);
              pack_h (Bitmap.image_type bm); pack_h (Bitmap.palette_id bm)]
    = Return bs
    /\ forall i st, decodes (load_bitmap blob ds pals i st) bs (st ++ [bm]).
Proof.
  intros (Hp & Hid & Hid16 & Hit & Hw & Hh) (Hpw & Hlen) Hpre Hds Hmax E.
  pose proof (padded_width_nonneg _ (proj1 Hw)) as Hpw0.
  eexists. split.
  - rewrite !pack_I_ok, !pack_h_ok by (assumption || (unfold u32; lia)).
    reflexivity.
  - intros i st rest. unfold load_bitmap.
    rewrite (bind_read 20) by reflexivity.
    fields.
    rewrite !u32_small, !signed16_wrap by (assumption || (unfold u32; lia)).
    destruct (Z.ltb_spec (Bitmap.palette_id bm) 0); [lia|].
    destruct (Z.gtb_spec (Bitmap.palette_id bm) (Z.of_nat (length pals) - 1));
      [unfold len in Hid; lia|].
    cbn [orb]. rewrite <- Hlen.
    rewrite (bind_Return _ _ _ _ _ (blob_read_ok _ _ _ _ Hmax)).
    rewrite (bmp_read_slice _ _ _ _ _ Hds E), <- Hp.
    destruct bm; reflexivity.
Qed.

Lemma master_data_cons bm bmps :
  master_data (bm :: bmps) = Bitmap.data bm ++ master_data bmps.
Proof. reflexivity. Qed.

Lemma bitmaps_meta_roundtrip blob ds pals :
  0 <= ds ->
  forall bmps pre,
    Forall (fun bm => Bitmap_wf pals bm /\ Bitmap_padded bm) bmps ->
    u32 (len (pre ++ master_data bmps)) ->
    skipn (Z.to_nat ds) blob = pre ++ master_data bmps ->
    exists bs,
      write_bitmaps_meta bmps pre = ((bs, []), Return (pre ++ master_data bmps))
      /\ forall i st,
           decodes (for_range (length bmps) i (load_bitmap blob ds pals) st)
             bs (st ++ bmps).
Proof.
  intros Hds. induction bmps as [|bm bmps IH]; intros pre W R E.
  - exists []. split.
    + cbn. now rewrite app_nil_r.
    + intros i st rest. cbn. now rewrite app_nil_r.
  - inversion W as [|? ? [Wb Pb] W']; subst.
    rewrite master_data_cons in *.
    assert (Rpre : u32 (len pre)).
    { unfold u32 in *. rewrite !len_app in R.
      pose proof (len_nonneg pre). pose proof (len_nonneg (Bitmap.data bm)).
      pose proof (len_nonneg (master_data bmps)). lia. }
    assert (Rmax : len (Bitmap.data bm) <= PY_SSIZE_T_MAX).
    { unfold u32, PY_SSIZE_T_MAX in *. rewrite !len_app in R.
      pose proof (len_nonneg pre). pose proof (len_nonneg (master_data bmps)).
      lia. }
    destruct (bitmap_record_roundtrip blob ds pals bm pre _ Wb Pb Rpre Hds Rmax E)
      as (b1 & P1 & D1).
    destruct (IH (pre ++ Bitmap.data bm) W') as (b2 & E2 & D2);
      [now rewrite <- app_assoc.. |].
    exists (b1 ++ b2). split.
    + cbn [write_bitmaps_meta]. rewrite P1. cbn [prt_write wbind].
      rewrite E2. now rewrite <- app_assoc.
    + intros i st. cbn [for_range length].
      eapply decodes_bind; [apply D1|].
      intros rest. rewrite D2, <- app_assoc. reflexivity.
Qed.

Lemma bitmaps_roundtrip W pals bmps :
  bmp_layout W ->
  u32 (len bmps) ->
  Forall (fun bm => Bitmap_wf pals bm /\ Bitmap_padded bm) bmps ->
  u32 (len (master_data bmps)) ->
  exists bs,
    wrote (_WriteBitmaps W bmps) bs (W master_palette (master_data bmps))
    /\ decodes (_LoadBitmaps (W master_palette (master_data bmps)) pals []) bs bmps.
Proof.
  intros HW Rn Wb Rm.
  destruct (HW master_palette (master_data bmps)) as (L14 & Sig & Skip).
  set (blob := W master_palette (master_data bmps)) in *.
  pose proof (u32_at_range 10 blob) as Rds.
  destruct (bitmaps_meta_roundtrip blob (u32_at 10 blob) pals (proj1 Rds) bmps []
              Wb Rm Skip) as (bm & Em & Dm).
  exists ((le_split 4 (len bmps) ++ []) ++ bm). split.
  - unfold _WriteBitmaps, wrote. rewrite pack_I_ok by exact Rn.
    cbn [pack_all prt_write wbind]. rewrite Em. cbn [wbind app].
    rewrite !app_nil_r. reflexivity.
  - intros rest. rewrite <- app_assoc. unfold _LoadBitmaps.
    rewrite length_firstn, Nat.min_l by exact L14.
    cbn [Nat.eqb negb].
    rewrite !bytes_at_firstn, u32_at_firstn by lia. rewrite Sig.
    change (negb (bytes_eqb sig_BM sig_BM)) with false. cbv iota.
    rewrite (bind_read 4) by (rewrite !length_app, length_le_split; reflexivity).
    revert Dm. generalize (u32_at 10 blob). intros ds Dm.
    fields. rewrite u32_small by exact Rn.
    unfold len. rewrite Nat2Z.id. rewrite Dm. reflexivity.
Qed.

Lemma minimal_layout : bmp_layout minimal_WriteBMPToOpenFile.
Proof.
  intros pal d. unfold minimal_WriteBMPToOpenFile. split; [|split].
  - rewrite !length_app, !length_le_split. cbn. lia.
  - reflexivity.
  - fields. change (14 mod 2 ^ 32) with 14. reflexivity.
Qed.

(** *** Subframes, frames, appendix records, animations *)

Lemma subframe_roundtrip sf :
  Subframe_wf sf ->
  exists bs, emits (write_subframe sf) bs
    /\ forall i st, decodes (load_subframe i st) bs (step_counted st sf).
Proof.
  intros (Hb & Hu & Hs & Hx & Hy). eexists. split.
  - unfold write_subframe. apply emits_write.
    rewrite !pack_h_ok, !pack_B_ok by assumption. reflexivity.
  - intros i [sfs n] rest. unfold load_subframe.
    rewrite (bind_read 8) by reflexivity.
    fields.
    rewrite !signed16_wrap, !u8_small by assumption.
    destruct sf as [bid unk sid [px py]]. reflexivity.
Qed.

Lemma land_128_small n : 0 <= n <= 127 -> Z.land n 128 = 0.
Proof.
  intros H. apply Z.bits_inj'. intros m Hm.
  rewrite Z.land_spec, Z.bits_0.
  change 128 with (2 ^ 7). rewrite Z.pow2_bits_eqb by lia.
  destruct (Z.eqb_spec 7 m) as [<-|]; [|apply andb_false_r].
  rewrite andb_true_r.
  rewrite <- (Z.mod_small n (2 ^ 7)) by (change (2 ^ 7) with 128; lia).
  apply Z.mod_pow2_bits_high. lia.
Qed.

Lemma lor_128_add n : 0 <= n <= 127 -> Z.lor n 128 = n + 128.
Proof.
  intros H. pose proof (land_128_small n H) as L.
  rewrite <- (Z.lxor_lor _ _ L). symmetry. now apply Z.add_nocarry_lxor.
Qed.

Lemma land_128_flagged n : 0 <= n <= 127 -> (Z.land (n + 128) 128 =? 0) = false.
Proof.
  intros H. apply Z.eqb_neq. intros E.
  apply land_128_0 in E; lia.
Qed.

Lemma land_127_flagged n : 0 <= n <= 127 -> Z.land (n + 128) 127 = n.
Proof.
  intros H.
  assert (E : Z.land (n + 128) 127 = (n + 128) mod 2 ^ 7)
    by (apply (Z.land_ones (n + 128) 7); lia).
  rewrite E. change (2 ^ 7) with 128.
  replace (n + 128) with (n + 1 * 128) by lia.
  rewrite Z.mod_add by lia. apply Z.mod_small. lia.
Qed.

Lemma land_128_clear n : 0 <= n <= 127 -> (Z.land n 128 =? 0) = true.
Proof. intros H. apply Z.eqb_eq. now apply land_128_small. Qed.

Lemma frame_head_roundtrip f :
  Frame_wf f ->
  exists bs, emits (write_frame_head f) bs
    /\ decodes load_frame_head bs
         (len (Frame.subframes f), Frame.unknown f,
          Frame.optional1 f, Frame.optional2 f,
          Frame.optional3 f, Frame.optional4 f).
Proof.
  intros (Hn & Hu & P1 & P2 & _).
  pose proof (len_nonneg (Frame.subframes f)) as Hn0.
  unfold write_frame_head.
  destruct P1 as [[-> ->] | (a1 & a2 & -> & -> & Ha1 & Ha2)];
    destruct P2 as [[-> ->] | (a3 & a4 & -> & -> & Ha3 & Ha4)];
    cbn [is_not_None orb pack_2B_int py_int with_arg];
    rewrite ?lor_128_add by lia;
    rewrite !pack_B_ok by (assumption || (unfold u8; lia));
    cbn [pack_all app];
    (eexists; split; [reflexivity|]);
    intros rest; unfold load_frame_head; cbn [app];
    run_reader; fields; rewrite !u8_small by (assumption || (unfold u8; lia));
    rewrite ?land_128_flagged, ?land_128_clear, ?land_127_flagged by lia;
    cbn [negb]; run_reader; fields;
    rewrite ?u8_small by (assumption || (unfold u8; lia));
    reflexivity.
Qed.

Lemma frame_roundtrip f :
  Frame_wf f ->
  exists bs, emits (write_frame f) bs
    /\ forall i st, decodes (load_frame i st) bs (step_frame st f).
Proof.
  intros Wf. destruct (frame_head_roundtrip f Wf) as (bh & Eh & Dh).
  destruct Wf as (_ & _ & _ & _ & Ws).
  destruct (loop_roundtrip _ _ _ _ subframe_roundtrip _ Ws) as (bsf & Es & Ds).
  exists (bh ++ bsf). split.
  - unfold write_frame. now apply emits_bind.
  - intros i [[frs nlf] nlsf] rest. unfold load_frame.
    rewrite <- app_assoc, (bind_Return _ _ _ _ _ (Dh _)).
    unfold len at 1. rewrite Nat2Z.id.
    rewrite (bind_Return _ _ _ _ _ (Ds 0 ([], nlsf) rest)).
    rewrite fold_step_counted. cbn [app]. destruct f; reflexivity.
Qed.

Lemma appendix_roundtrip ap :
  appendix_wf ap ->
  exists bs, emits (write_appendix ap) bs
    /\ forall i st, decodes (load_appendix i st) bs (step_counted st ap).
Proof.
  intros (a0 & a1 & a2 & a3 & -> & H0 & H1 & H2 & H3). eexists. split.
  - unfold write_appendix. apply emits_write.
    cbn [py_index nth_error with_arg].
    rewrite !pack_I_ok by assumption. reflexivity.
  - intros i [aps n] rest. unfold load_appendix. cbv [le_split]. cbn [app].
    run_reader. fields. rewrite !u32_small by assumption. reflexivity.
Qed.

Lemma animation_roundtrip a :
  Animation_wf a ->
  exists bs, emits (write_animation a) bs
    /\ forall i st, decodes (load_animation i st) bs (step_animation st a).
Proof.
  intros (H1 & (Hl & Ht & Hr & Hb) & (Hx & Hy) & H2 & Hnf & Wf & E3 & H3 & Wa).
  destruct (loop_roundtrip _ _ _ _ frame_roundtrip _ Wf) as (bf & Ef & Df).
  destruct (loop_roundtrip _ _ _ _ appendix_roundtrip _ Wa) as (ba & Ea & Da).
  eexists. split.
  - unfold write_animation.
    apply emits_bind; [apply emits_write;
                       rewrite !pack_I_ok by assumption; reflexivity|].
    apply emits_bind; [exact Ef|].
    apply emits_bind; [apply emits_write;
                       rewrite !pack_I_ok by assumption; reflexivity|].
    exact Ea.
  - intros i [anims cn] rest. unfold load_animation.
    cbv [le_split]. cbn [app]. rewrite <- !app_assoc. cbn [app].
    rewrite bind_read_firstn by (cbn [length]; lia). cbn [firstn skipn].
    fields. rewrite !u32_small by assumption.
    unfold len at 1. rewrite Nat2Z.id.
    rewrite (bind_Return _ _ _ _ _ (Df 0 _ _)), fold_step_frame.
    cbv beta iota.
    rewrite bind_read_firstn by (cbn [length]; lia). cbn [firstn skipn].
    fields. rewrite !u32_small by assumption.
    rewrite E3 at 1. unfold len at 1. rewrite Nat2Z.id.
    rewrite (bind_Return _ _ _ _ _ (Da 0 _ _)), fold_step_counted.
    cbv beta iota. cbn [app]. unfold step_animation.
    destruct a as [u1 [bl bt br bb] [ox oy] u2 frs aps u3].
    cbn in E3 |- *. subst u3. reflexivity.
Qed.

Lemma animations_roundtrip anims :
  Forall Animation_wf anims ->
  exists bs, emits (for_each anims write_animation) bs
    /\ forall cn,
         decodes (for_range (length anims) 0 load_animation ([], cn)) bs
           (anims,
            mkCounters (num_loaded_frames cn + total_frames anims)
              (num_loaded_subframes cn + total_subframes anims)
              (num_loaded_anims cn + total_appendix anims)).
Proof.
  intros W.
  destruct (loop_roundtrip _ _ _ _ animation_roundtrip _ W) as (bs & E & D).
  exists bs. split; [exact E|]. intros cn rest.
  rewrite D, fold_step_animation. reflexivity.
Qed.

Lemma count_subframes_sum frs n : count_subframes frs n = n + subframes_in frs.
Proof.
  unfold count_subframes, subframes_in, sumZ.
  revert n; induction frs as [|f frs IH]; intros n; cbn [fold_left map fold_right].
  - lia.
  - rewrite IH. lia.
Qed.

Lemma count_totals_sum anims :
  count_totals anims = (total_frames anims, total_subframes anims).
Proof.
  unfold count_totals.
  assert (G : forall a b0,
             fold_left
               (fun '(num_frames, num_subframes) anim =>
                  (num_frames + len (Animation.frames anim),
                   count_subframes (Animation.frames anim) num_subframes))
               anims (a, b0)
             = (a + total_frames anims, b0 + total_subframes anims)).
  { unfold total_frames, total_subframes, sumZ.
    induction anims as [|an anims IH]; intros a b0; cbn [fold_left map fold_right].
    - f_equal; lia.
    - rewrite IH, count_subframes_sum. f_equal; lia. }
  rewrite G. reflexivity.
Qed.

(** *** The whole container *)

Lemma header_roundtrip na nf ns no :
  u32 na -> u32 nf -> u32 ns -> u32 no ->
  decodes load_header
    ((le_split 4 na ++ []) ++ (le_split 4 nf ++ []) ++ (le_split 4 ns ++ [])
       ++ (le_split 4 no ++ []))
    (mkHeader na nf ns no).
Proof.
  intros Ha Hf Hs Ho rest. unfold load_header.
  cbv [le_split]. cbn [app]. run_reader. fields.
  rewrite !u32_small by assumption. reflexivity.
Qed.

Lemma Load_sections_roundtrip W c :
  bmp_layout W ->
  PRTFile_wf c ->
  Forall (fun p => length (Palette.colors p) = 256%nat) (palettes c) ->
  Forall Bitmap_padded (bitmaps c) ->
  u32 (len (master_data (bitmaps c))) ->
  exists bs,
    wrote (Write W c) (bs ++ extra_data c)
      (W master_palette (master_data (bitmaps c)))
    /\ decodes (Load_sections (W master_palette (master_data (bitmaps c)))) bs
         (mkParsed (palettes c) (bitmaps c)
            (mkHeader (len (animations c)) (total_frames (animations c))
               (total_subframes (animations c)) (num_optional_entries c))
            (animations c)
            (mkCounters (total_frames (animations c))
               (total_subframes (animations c))
               (total_appendix (animations c)))).
Proof.
  intros HW (Rp & Wp & Rb & Wb & Ra & Wa & Rf & Rs & Ro) P256 Ppad Rm.
  destruct (palettes_roundtrip (palettes c) Rp) as (bP & EP & DP).
  { apply Forall_forall. intros p Hp. split.
    - now apply (proj1 (Forall_forall _ _) Wp).
    - now apply (proj1 (Forall_forall _ _) P256). }
  destruct (bitmaps_roundtrip W (palettes c) (bitmaps c) HW Rb) as (bB & EB & DB);
    [|exact Rm|].
  { apply Forall_forall. intros bm Hbm. split.
    - now apply (proj1 (Forall_forall _ _) Wb).
    - now apply (proj1 (Forall_forall _ _) Ppad). }
  destruct (animations_roundtrip (animations c) Wa) as (bA & EA & DA).
  set (blob := W master_palette (master_data (bitmaps c))) in *.
  set (bH := (le_split 4 (len (animations c)) ++ [])
             ++ (le_split 4 (total_frames (animations c)) ++ [])
             ++ (le_split 4 (total_subframes (animations c)) ++ [])
             ++ (le_split 4 (num_optional_entries c) ++ [])).
  exists (bP ++ bB ++ bH ++ bA). split.
  - unfold Write. rewrite count_totals_sum.
    assert (G : wrote
                  (_WritePalettes (palettes c) >>
                   _WriteBitmaps W (bitmaps c) >>
                   prt_write (pack_all [pack_I (len (animations c))]) >>
                   prt_write (pack_all [pack_I (total_frames (animations c))]) >>
                   prt_write (pack_all [pack_I (total_subframes (animations c))]) >>
                   prt_write (pack_all [pack_I (num_optional_entries c)]) >>
                   for_each (animations c) write_animation >>
                   prt_write (Return (extra_data c)))
                  (bP ++ bB ++ (le_split 4 (len (animations c)) ++ [])
                    ++ (le_split 4 (total_frames (animations c)) ++ [])
                    ++ (le_split 4 (total_subframes (animations c)) ++ [])
                    ++ (le_split 4 (num_optional_entries c) ++ [])
                    ++ bA ++ extra_data c)
                  ([] ++ blob ++ [] ++ [] ++ [] ++ [] ++ [] ++ [])).
    { apply wrote_bind; [exact EP|].
      apply wrote_bind; [exact EB|].
      do 4 (apply wrote_bind;
            [apply emits_write; rewrite pack_I_ok by assumption; reflexivity|]).
      apply wrote_bind; [exact EA|]. reflexivity. }
    unfold wrote in G |- *. rewrite G. f_equal. f_equal.
    + unfold bH. rewrite <- !app_assoc. reflexivity.
    + cbn [app]. apply app_nil_r.
  - unfold Load_sections.
    eapply decodes_bind; [exact DP|].
    eapply decodes_bind; [exact DB|].
    eapply decodes_bind; [now apply header_roundtrip|].
    cbn [num_anims]. unfold len at 1. rewrite Nat2Z.id.
    intros rest. rewrite (bind_Return _ _ _ _ _ (DA (mkCounters 0 0 0) rest)).
    reflexivity.
Qed.

(** Writing a container that has the shape of a loaded one, whose
    palettes have 256 colors and whose pixel buffers have the length
    [Write] declares, and loading the result, gives the container back. *)
Lemma Write_Load_roundtrip W c :
  bmp_layout W ->
  PRTFile_wf c ->
  Forall (fun p => length (Palette.colors p) = 256%nat) (palettes c) ->
  Forall Bitmap_padded (bitmaps c) ->
  u32 (len (master_data (bitmaps c))) ->
  exists prt bmp,
    Write W c = ((prt, bmp), Return tt) /\ Load prt bmp = Return c.
Proof.
  intros HW Wc P256 Ppad Rm.
  destruct (Load_sections_roundtrip W c HW Wc P256 Ppad Rm) as (bs & Ew & D).
  exists (bs ++ extra_data c), (W master_palette (master_data (bitmaps c))).
  split; [exact Ew|].
  unfold Load.
  rewrite (bind_Return _ _ _ _ _ (D _)).
  unfold check_counts.
  cbn [p_header p_counters p_animations num_anims num_frames num_subframes
       num_loaded_frames num_loaded_subframes].
  fold (len (animations c)). rewrite !Z.eqb_refl. cbn [negb].
  rewrite bind_ret_l. unfold ret. destruct c; reflexivity.
Qed.

(** ** The sections of a palette entry *)

Lemma header_split (hdr : list byte) :
  length hdr = 8%nat -> hdr = bytes_at 0 4 hdr ++ le_split 4 (u32_at 4 hdr).
Proof.
  intros L. unfold u32_at, bytes_at. change (skipn 0 hdr) with hdr.
  assert (L4 : length (skipn 4 hdr) = 4%nat) by (rewrite length_skipn; lia).
  rewrite (firstn_all2 (n := 4) (skipn 4 hdr)) by lia.
  rewrite (split_le_combine' _ 4 L4). symmetry. apply firstn_skipn.
Qed.

Lemma count_split (cnt : list byte) :
  length cnt = 4%nat -> cnt = le_split 4 (u32_at 0 cnt).
Proof.
  intros L. unfold u32_at, bytes_at. change (skipn 0 cnt) with cnt.
  rewrite firstn_all2 by lia. symmetry. now apply split_le_combine'.
Qed.

Lemma load_colors_inv n :
  forall i pal s pal' s',
    for_range n i
      (fun (_ : Z) cs => entry <- _ReadAndUnpack 4 ;;
                         ret (cs ++ [unpack_color entry])) pal s
    = Return (pal', s') ->
    exists es, length es = n /\ Forall (fun e => length e = 4%nat) es
      /\ s = concat es ++ s' /\ pal' = pal ++ map unpack_color es.
Proof.
  induction n as [|n IH]; intros i pal s pal' s' H; cbn [for_range] in H.
  - apply ret_inv in H. injection H as -> ->. exists [].
    repeat split; [constructor | now rewrite app_nil_r].
  - apply bind_inv in H. destruct H as (pal1 & s1 & H1 & H).
    apply bind_inv in H1. destruct H1 as (e & s2 & R & H1).
    apply ret_inv in H1. injection H1 as -> ->.
    apply read_inv in R. destruct R as [-> Le].
    apply IH in H. destruct H as (es & Ln & Fe & -> & ->).
    exists (e :: es). cbn [length concat map]. repeat split.
    + now rewrite Ln.
    + now constructor.
    + now rewrite <- app_assoc.
    + now rewrite <- app_assoc.
Qed.

Lemma load_colors_ok es :
  Forall (fun e => length e = 4%nat) es ->
  forall i pal t,
    for_range (length es) i
      (fun (_ : Z) cs => entry <- _ReadAndUnpack 4 ;;
                         ret (cs ++ [unpack_color entry])) pal (concat es ++ t)
    = Return (pal ++ map unpack_color es, t).
Proof.
  induction 1 as [|e es Le _ IH]; intros i pal t; cbn [length for_range concat map].
  - now rewrite app_nil_r.
  - rewrite <- app_assoc. unfold bind at 1. rewrite (bind_read 4) by exact Le.
    unfold ret at 1. rewrite IH, <- app_assoc. reflexivity.
Qed.

(** What the tag loop has read when it returns. *)
Lemma load_palette_tags_sections fuel :
  forall n pal s pal' s',
    load_palette_tags fuel n pal s = Return (pal', s') ->
    exists secs,
      s = flat_map section_bytes secs ++ s'
      /\ tags_run n secs
      /\ pal' = pal ++ flat_map section_colors secs.
Proof.
  induction fuel as [|fuel IH]; intros n pal s pal' s' H;
    cbn [load_palette_tags] in H.
  - destruct (Z.gtb_spec n 0); [discriminate|].
    apply ret_inv in H. injection H as -> ->. exists [].
    cbn. rewrite app_nil_r. repeat split. lia.
  - destruct (Z.gtb_spec n 0) as [Hn|Hn].
    2:{ apply ret_inv in H. injection H as -> ->. exists [].
        cbn. rewrite app_nil_r. repeat split. lia. }
    apply bind_inv in H. destruct H as (hdr & s1 & R & H).
    apply read_inv in R. destruct R as [-> Lh].
    pose proof (header_split hdr Lh) as Eh.
    destruct (bytes_eqb (bytes_at 0 4 hdr) tag_PPAL) eqn:EP.
    { apply bytes_eqb_eq in EP.
      destruct (Z.eqb_spec (u32_at 4 hdr) 1048) as [ES|ES]; [|discriminate].
      cbn [negb] in H. apply IH in H. destruct H as (secs & -> & Hr & ->).
      exists (PPAL_section :: secs). cbn [flat_map section_bytes section_colors app tags_run].
      rewrite Eh, EP, ES at 1. repeat split; try lia; try assumption.
      all: try (now rewrite <- !app_assoc). }
    destruct (bytes_eqb (bytes_at 0 4 hdr) tag_RIFF) eqn:ER; [discriminate|].
    destruct (bytes_eqb (bytes_at 0 4 hdr) tag_head) eqn:EH.
    { apply bytes_eqb_eq in EH.
      destruct (Z.eqb_spec (u32_at 4 hdr) 4) as [ES|ES]; [|discriminate].
      cbn [negb] in H. apply bind_inv in H. destruct H as (cnt & s2 & R & H).
      apply read_inv in R. destruct R as [-> Lc].
      apply IH in H. destruct H as (secs & -> & Hr & ->).
      exists (head_section (u32_at 0 cnt) :: secs).
      cbn [flat_map section_bytes section_colors app tags_run].
      rewrite <- (count_split cnt Lc).
      rewrite Eh, EH, ES at 1. repeat split; try lia; try assumption;
        try apply u32_at_range.
      all: try (now rewrite <- !app_assoc). }
    destruct (bytes_eqb (bytes_at 0 4 hdr) tag_data) eqn:ED; [|discriminate].
    apply bytes_eqb_eq in ED.
    destruct (Z.eqb_spec (u32_at 4 hdr) 1024) as [ES|ES]; [|discriminate].
    cbn [negb] in H. apply bind_inv in H. destruct H as (pal1 & s2 & L256 & H).
    apply load_colors_inv in L256. destruct L256 as (es & Ln & Fe & -> & ->).
    apply IH in H. destruct H as (secs & -> & Hr & ->).
    exists (data_section es :: secs).
    cbn [flat_map section_bytes section_colors tags_run].
    rewrite Eh, ED, ES at 1. repeat split; try lia; try assumption.
    all: try (now rewrite <- !app_assoc).
Qed.

(** Every run of sections is read as such, with fuel for one turn per
    section. *)
Lemma load_palette_tags_run secs :
  forall n pal fuel t,
    tags_run n secs -> (length secs < fuel)%nat ->
    load_palette_tags fuel n pal (flat_map section_bytes secs ++ t)
    = Return (pal ++ flat_map section_colors secs, t).
Proof.
  induction secs as [|sec secs IH]; intros n pal fuel t Hr Hf.
  - cbn [tags_run] in Hr. cbn. rewrite app_nil_r. now apply tags_done.
  - cbn [tags_run] in Hr. destruct Hr as [Hn Hr].
    destruct fuel as [|fuel]; [lia|]. cbn [length] in Hf.
    cbn [flat_map]. rewrite <- app_assoc.
    destruct sec as [|count|entries]; cbn [section_bytes section_colors].
    + rewrite tags_PPAL; [|lia|reflexivity..].
      cbn [app]. apply IH; [exact Hr | lia].
    + destruct Hr as [Hc Hr]. rewrite <- app_assoc.
      rewrite tags_head;
        [|lia|reflexivity|apply length_le_split|reflexivity..].
      replace (u32_at 0 (le_split 4 count)) with count
        by (fields; symmetry; now apply u32_small).
      cbn [app]. apply IH; [exact Hr | lia].
    + destruct Hr as (L256 & Fe & Hr). rewrite <- app_assoc.
      cbn [load_palette_tags]. destruct (Z.gtb_spec n 0); [|lia].
      rewrite (bind_read 8) by reflexivity.
      change (bytes_eqb (bytes_at 0 4 (tag_data ++ le_split 4 1024)) tag_PPAL)
        with false.
      change (bytes_eqb (bytes_at 0 4 (tag_data ++ le_split 4 1024)) tag_RIFF)
        with false.
      change (bytes_eqb (bytes_at 0 4 (tag_data ++ le_split 4 1024)) tag_head)
        with false.
      change (bytes_eqb (bytes_at 0 4 (tag_data ++ le_split 4 1024)) tag_data)
        with true.
      change (negb (u32_at 4 (tag_data ++ le_split 4 1024) =? 1024)) with false.
      cbv iota. rewrite <- L256.
      rewrite (bind_Return _ _ _ _ _ (load_colors_ok entries Fe 0 pal _)).
      rewrite (app_assoc pal). apply IH; [exact Hr | lia].
Qed.

Lemma section_bytes_length secs :
  (length secs <= length (flat_map section_bytes secs))%nat.
Proof.
  induction secs as [|sec secs IH]; [reflexivity|].
  cbn [flat_map length]. rewrite length_app.
  assert (1 <= length (section_bytes sec))%nat; [|lia].
  destruct sec; cbn [section_bytes]; rewrite !length_app; cbn [length tag_PPAL tag_head tag_data]; lia.
Qed.

Lemma tags_run_colors secs :
  forall n, tags_run n secs ->
    length (flat_map section_colors secs) = (256 * data_sections secs)%nat.
Proof.
  induction secs as [|sec secs IH]; intros n Hr; [reflexivity|].
  cbn [tags_run] in Hr. destruct Hr as [_ Hr].
  cbn [flat_map]. rewrite length_app.
  destruct sec as [|count|entries]; cbn [section_colors data_sections length].
  - now rewrite (IH _ Hr).
  - destruct Hr as [_ Hr]. now rewrite (IH _ Hr).
  - destruct Hr as (L & _ & Hr). rewrite length_map, L, (IH _ Hr). lia.
Qed.

Lemma load_palette_sections s pal s' :
  load_palette s = Return (pal, s') ->
  exists secs,
    s = flat_map section_bytes secs ++ s'
    /\ tags_run 2 secs /\ pal = entry_palette secs.
Proof.
  unfold load_palette. intros H.
  apply bind_inv in H. destruct H as (cs & s1 & T & H).
  apply ret_inv in H. injection H as -> ->.
  apply load_palette_tags_sections in T. destruct T as (secs & -> & Hr & ->).
  exists secs. repeat split; assumption.
Qed.

Lemma load_palette_run secs t :
  tags_run 2 secs ->
  load_palette (flat_map section_bytes secs ++ t)
  = Return (entry_palette secs, t).
Proof.
  intros Hr. unfold load_palette.
  rewrite (bind_Return _ _ _ (flat_map section_colors secs) t); [reflexivity|].
  rewrite (load_palette_tags_run secs 2 [] _ t Hr); [reflexivity|].
  rewrite length_app. pose proof (section_bytes_length secs). lia.
Qed.

Lemma palettes_loop_sections n :
  forall i pals s pals' s',
    for_range n i (fun (_ : Z) pals => pal <- load_palette ;; ret (pals ++ [pal]))
      pals s = Return (pals', s') ->
    exists entries,
      length entries = n
      /\ s = flat_map (flat_map section_bytes) entries ++ s'
      /\ Forall (tags_run 2) entries
      /\ pals' = pals ++ map entry_palette entries.
Proof.
  induction n as [|n IH]; intros i pals s pals' s' H; cbn [for_range] in H.
  - apply ret_inv in H. injection H as -> ->. exists [].
    repeat split; [constructor | now rewrite app_nil_r].
  - apply bind_inv in H. destruct H as (pals1 & s1 & H1 & H).
    apply bind_inv in H1. destruct H1 as (pal & s2 & L & H1).
    apply ret_inv in H1. injection H1 as -> ->.
    apply load_palette_sections in L. destruct L as (secs & -> & Hr & ->).
    apply IH in H. destruct H as (entries & Ln & -> & Fr & ->).
    exists (secs :: entries). cbn [length flat_map map]. repeat split.
    + now rewrite Ln.
    + now rewrite <- app_assoc.
    + now constructor.
    + now rewrite <- app_assoc.
Qed.

Lemma palettes_loop_run entries :
  Forall (tags_run 2) entries ->
  forall i pals t,
    for_range (length entries) i
      (fun (_ : Z) pals => pal <- load_palette ;; ret (pals ++ [pal])) pals
      (flat_map (flat_map section_bytes) entries ++ t)
    = Return (pals ++ map entry_palette entries, t).
Proof.
  induction 1 as [|secs entries Hr _ IH]; intros i pals t;
    cbn [length for_range flat_map map].
  - now rewrite app_nil_r.
  - rewrite <- app_assoc. unfold bind at 1.
    rewrite (bind_Return _ _ _ _ _ (load_palette_run secs _ Hr)).
    unfold ret at 1. rewrite IH, <- app_assoc. reflexivity.
Qed.

Lemma _LoadPalettes_sections s pals s' :
  _LoadPalettes [] s = Return (pals, s') ->
  exists entries,
    s = (tag_CPAL ++ le_split 4 (len entries))
        ++ flat_map (flat_map section_bytes) entries ++ s'
    /\ Forall (tags_run 2) entries
    /\ pals = map entry_palette entries.
Proof.
  unfold _LoadPalettes. intros H.
  apply bind_inv in H. destruct H as (hdr & s1 & R & H).
  apply read_inv in R. destruct R as [-> Lh].
  destruct (bytes_eqb (bytes_at 0 4 hdr) tag_CPAL) eqn:EC; [|discriminate].
  apply bytes_eqb_eq in EC. cbn [negb] in H.
  apply palettes_loop_sections in H. destruct H as (entries & Ln & -> & Fr & ->).
  exists entries. repeat split; try assumption.
  rewrite (header_split hdr Lh) at 1. rewrite EC.
  pose proof (u32_at_range 4 hdr). unfold len. rewrite Ln, Z2Nat.id by lia.
  reflexivity.
Qed.

Lemma _LoadPalettes_run entries t :
  u32 (len entries) -> Forall (tags_run 2) entries ->
  _LoadPalettes []
    ((tag_CPAL ++ le_split 4 (len entries))
     ++ flat_map (flat_map section_bytes) entries ++ t)
  = Return (map entry_palette entries, t).
Proof.
  intros R Fr. unfold _LoadPalettes.
  rewrite (bind_read 8) by (rewrite length_app, length_le_split; reflexivity).
  fields. rewrite u32_small by exact R.
  change (negb (bytes_eqb _ _)) with false. cbv iota.
  unfold len. rewrite Nat2Z.id.
  now rewrite (palettes_loop_run entries Fr 0 [] t).
Qed.

(** ** Writers that complete *)

Lemma wbind_inv {A B} (m : Writer A) (k : A -> Writer B) p bm v :
  wbind m k = ((p, bm), Return v) ->
  exists p1 b1 a p2 b2,
    m = ((p1, b1), Return a) /\ k a = ((p2, b2), Return v)
    /\ p = p1 ++ p2 /\ bm = b1 ++ b2.
Proof.
  unfold wbind. destruct m as [[p1 b1] [a|e|]]; try discriminate.
  destruct (k a) as [[p2 b2] o] eqn:E. intros [= <- <- ->].
  now exists p1, b1, a, p2, b2.
Qed.

Lemma prt_write_inv packed p bm :
  prt_write packed = ((p, bm), Return tt) -> packed = Return p /\ bm = [].
Proof.
  unfold prt_write. destruct packed; try discriminate.
  intros [= <- <-]. now split.
Qed.

Lemma pack_all_inv f rest bs :
  pack_all (f :: rest) = Return bs ->
  exists b1 b2, f = Return b1 /\ pack_all rest = Return b2 /\ bs = b1 ++ b2.
Proof.
  cbn [pack_all]. destruct f as [b1|e|]; try discriminate.
  destruct (pack_all rest) as [b2|e|]; try discriminate.
  intros [= <-]. now exists b1, b2.
Qed.

Lemma pack_I_inv v bs : pack_I v = Return bs -> u32 v /\ bs = le_split 4 v.
Proof.
  unfold pack_I. destruct (Z.leb_spec 0 v); [|discriminate].
  destruct (Z.leb_spec v 4294967295); [|discriminate].
  cbn [andb]. intros [= <-]. split; [split; assumption | reflexivity].
Qed.

Lemma pack_h_inv v bs : pack_h v = Return bs -> i16 v /\ bs = le_split 2 v.
Proof.
  unfold pack_h. destruct (Z.leb_spec (-32768) v); [|discriminate].
  destruct (Z.leb_spec v 32767); [|discriminate].
  cbn [andb]. intros [= <-]. split; [split; assumption | reflexivity].
Qed.

Lemma pack_B_inv v bs : pack_B v = Return bs -> u8 v /\ bs = le_split 1 v.
Proof.
  unfold pack_B. destruct (Z.leb_spec 0 v); [|discriminate].
  destruct (Z.leb_spec v 255); [|discriminate].
  cbn [andb]. intros [= <-]. split; [split; assumption | reflexivity].
Qed.

Lemma for_each_inv {A} (body : A -> Writer unit) (P : A -> Prop) :
  (forall a out, body a = (out, Return tt) -> P a) ->
  forall l out, for_each l body = (out, Return tt) -> Forall P l.
Proof.
  intros Hb. induction l as [|a l IH]; intros [p b0] H; [constructor|].
  cbn [for_each] in H. apply wbind_inv in H.
  destruct H as (p1 & b1 & [] & p2 & b2 & H1 & H2 & _).
  constructor; [exact (Hb _ _ H1) | exact (IH _ H2)].
Qed.

Lemma land_128_cases n :
  Z.land n 128 = if Z.testbit n 7 then 128 else 0.
Proof.
  apply Z.bits_inj'. intros m Hm. rewrite Z.land_spec.
  change 128 with (2 ^ 7) at 1. rewrite Z.pow2_bits_eqb by lia.
  destruct (Z.eqb_spec 7 m) as [<-|Hne].
  - rewrite andb_true_r. destruct (Z.testbit n 7) eqn:T; [reflexivity|].
    now rewrite Z.bits_0.
  - rewrite andb_false_r. destruct (Z.testbit n 7).
    + change 128 with (2 ^ 7). rewrite Z.pow2_bits_eqb by lia.
      symmetry. now apply Z.eqb_neq.
    + now rewrite Z.bits_0.
Qed.

Lemma lor_128_ge n : n <= Z.lor n 128.
Proof.
  pose proof (Z.add_lor_land n 128) as A. rewrite land_128_cases in A.
  destruct (Z.testbit n 7); lia.
Qed.

(** A frame that [Write] completes on has its [unknown] value, its
    second optional pair and its subframes within their formats. *)
Lemma write_frame_completes f out :
  write_frame f = (out, Return tt) -> Frame_fields_wf f.
Proof.
  destruct out as [p b0]. unfold write_frame. intros H.
  apply wbind_inv in H. destruct H as (p1 & b1 & [] & p2 & b2 & Hh & Hs & _).
  assert (Ws : Forall Subframe_wf (Frame.subframes f)).
  { apply (for_each_inv write_subframe Subframe_wf) in Hs; [exact Hs|].
    intros sf [q r] W. unfold write_subframe in W.
    apply prt_write_inv in W. destruct W as [W _].
    do 5 (apply pack_all_inv in W;
          let x := fresh "f" in let y := fresh "r" in
          destruct W as (x & y & ? & W & ?)).
    repeat match goal with
           | H : pack_h _ = Return _ |- _ => apply pack_h_inv in H; destruct H as [? _]
           | H : pack_B _ = Return _ |- _ => apply pack_B_inv in H; destruct H as [? _]
           end.
    unfold Subframe_wf. tauto. }
  unfold write_frame_head in Hh. cbv zeta in Hh.
  apply wbind_inv in Hh. destruct Hh as (q1 & c1 & [] & q2 & c2 & H0 & Hh & _).
  apply wbind_inv in Hh. destruct Hh as (q3 & c3 & [] & q4 & c4 & _ & H34 & _).
  apply prt_write_inv in H0. destruct H0 as [H0 _].
  apply pack_all_inv in H0. destruct H0 as (x1 & y1 & _ & H0 & _).
  apply pack_all_inv in H0. destruct H0 as (x2 & y2 & Hu & _ & _).
  apply pack_B_inv in Hu. destruct Hu as [Hu _].
  unfold Frame_fields_wf.
  destruct (Frame.optional3 f) as [a|] eqn:E3;
    destruct (Frame.optional4 f) as [b1'|] eqn:E4;
    cbn [is_not_None orb] in Hu, H34.
  - apply prt_write_inv in H34. destruct H34 as [H34 _].
    unfold pack_2B_int in H34. cbn [py_int with_arg] in H34.
    apply pack_all_inv in H34. destruct H34 as (z1 & w1 & Ha & H34 & _).
    apply pack_all_inv in H34. destruct H34 as (z2 & w2 & Hb & _ & _).
    apply pack_B_inv in Ha. apply pack_B_inv in Hb.
    split; [|split; [|exact Ws]].
    + unfold u8 in *. pose proof (lor_128_ge (Frame.unknown f)).
      assert (0 <= Frame.unknown f) by (apply (Z.lor_nonneg _ 128); lia).
      lia.
    + right. exists a, b1'. split; [reflexivity|]. split; [reflexivity|].
      split; [apply Ha | apply Hb].
  - discriminate.
  - discriminate.
  - split; [exact Hu|]. split; [left; now split | exact Ws].
Qed.

(** ** The records of the bitmap table *)

Lemma load_bitmap_record bmp ds pals i bmps s bmps' s' :
  load_bitmap bmp ds pals i bmps s = Return (bmps', s') ->
  exists rec,
    s = rec ++ s' /\ record_ok pals rec
    /\ bmps' = bmps ++ [record_bitmap bmp ds pals rec].
Proof.
  unfold load_bitmap. intros H.
  apply bind_inv in H. destruct H as (rec & s1 & R & H).
  apply read_inv in R. destruct R as [-> L].
  destruct (Z.ltb_spec (i16_at 18 rec) 0) as [A|A]; [discriminate|].
  destruct (Z.gtb_spec (i16_at 18 rec) (Z.of_nat (length pals) - 1)) as [B|B];
    [discriminate|].
  cbn [orb] in H. apply bind_inv in H. destruct H as (data & s2 & R & H).
  apply blob_read_inv in R. destruct R as (Hmax & -> & ->).
  apply ret_inv in H. injection H as -> ->.
  exists rec. split; [reflexivity|]. split; [|reflexivity].
  unfold record_ok, len. repeat split; try assumption; lia.
Qed.

Lemma bitmaps_loop_records bmp ds pals n :
  forall i bmps s bmps' s',
    for_range n i (load_bitmap bmp ds pals) bmps s = Return (bmps', s') ->
    exists recs,
      length recs = n /\ s = concat recs ++ s'
      /\ Forall (record_ok pals) recs
      /\ bmps' = bmps ++ map (record_bitmap bmp ds pals) recs.
Proof.
  induction n as [|n IH]; intros i bmps s bmps' s' H; cbn [for_range] in H.
  - apply ret_inv in H. injection H as -> ->. exists [].
    repeat split; [constructor | now rewrite app_nil_r].
  - apply bind_inv in H. destruct H as (bmps1 & s1 & H1 & H).
    apply load_bitmap_record in H1. destruct H1 as (rec & -> & Hr & ->).
    apply IH in H. destruct H as (recs & Ln & -> & Fr & ->).
    exists (rec :: recs). cbn [length concat map]. repeat split.
    + now rewrite Ln.
    + now rewrite <- app_assoc.
    + now constructor.
    + now rewrite <- app_assoc.
Qed.

Lemma _LoadBitmaps_records bmp pals s bmps s' :
  _LoadBitmaps bmp pals [] s = Return (bmps, s') ->
  exists recs,
    s = le_split 4 (len recs) ++ concat recs ++ s'
    /\ Forall (record_ok pals) recs
    /\ bmps = map (record_bitmap bmp (u32_at 10 bmp) pals) recs.
Proof.
  unfold _LoadBitmaps. intros H.
  destruct (Nat.eqb_spec (length (firstn 14 bmp)) 14) as [L|L]; [|discriminate].
  cbn [negb] in H.
  destruct (negb (bytes_eqb (bytes_at 0 2 (firstn 14 bmp)) sig_BM)); [discriminate|].
  apply bind_inv in H. destruct H as (cnt & s1 & R & H).
  apply read_inv in R. destruct R as [-> Lc].
  apply bitmaps_loop_records in H. destruct H as (recs & Ln & -> & Fr & ->).
  rewrite length_firstn in L. rewrite u32_at_firstn by lia.
  exists recs. repeat split; try assumption.
  rewrite (count_split cnt Lc) at 1.
  pose proof (u32_at_range 0 cnt). unfold len. rewrite Ln, Z2Nat.id by lia.
  reflexivity.
Qed.

(** * The claims *)

(** ** Colors *)

(** Claim C2: a palette entry stored as the four bytes (b, g, r, flags) is
    decoded to the color (red = r, green = g, blue = b, flags = flags), so
    the stored bytes (10, 20, 30, 40) give (red 30, green 20, blue 10,
    flags 40); a color whose fields are bytes is written as the four bytes
    (blue, green, red, flags); and writing a decoded entry gives back the
    four stored bytes. *)
Theorem color_channel_swap (b0 b1 b2 b3 : byte) (c : Color.t)
    (Hc : Color_wf c) :
  unpack_color [b0; b1; b2; b3]
  = Color.mk (byte.unsigned b2) (byte.unsigned b1) (byte.unsigned b0)
      (byte.unsigned b3)
  /\ unpack_color [Byte.x0a; Byte.x14; Byte.x1e; Byte.x28] = Color.mk 30 20 10 40
  /\ write_color c
     = (([byte.of_Z (Color.b c); byte.of_Z (Color.g c);
          byte.of_Z (Color.r c); byte.of_Z (Color.flags c)], []), Return tt)
  /\ write_color (unpack_color [b0; b1; b2; b3])
     = (([b0; b1; b2; b3], []), Return tt).
Proof.
  assert (E : unpack_color [b0; b1; b2; b3]
              = Color.mk (byte.unsigned b2) (byte.unsigned b1)
                  (byte.unsigned b0) (byte.unsigned b3)).
  { unfold unpack_color, u8_at. cbn [bytes_at skipn firstn].
    now rewrite !le_combine_1. }
  split; [exact E|]. split; [reflexivity|]. split.
  - exact (write_color_emits c Hc).
  - rewrite E.
    pose proof (write_color_emits
                  (Color.mk (byte.unsigned b2) (byte.unsigned b1)
                     (byte.unsigned b0) (byte.unsigned b3))) as W.
    cbn [Color.r Color.g Color.b Color.flags] in W.
    rewrite !byte.of_Z_unsigned in W. apply W.
    unfold Color_wf, u8; cbn.
    pose proof (byte.unsigned_range b0). pose proof (byte.unsigned_range b1).
    pose proof (byte.unsigned_range b2). pose proof (byte.unsigned_range b3).
    change (2 ^ 8) with 256 in *. lia.
Qed.

Lemma color_channel_swap_witness :
  write_color (Color.mk 30 20 10 40)
  = (([Byte.x0a; Byte.x14; Byte.x1e; Byte.x28], []), Return tt)
  /\ write_color (unpack_color [Byte.x0a; Byte.x14; Byte.x1e; Byte.x28])
     = (([Byte.x0a; Byte.x14; Byte.x1e; Byte.x28], []), Return tt).
Proof.
  assert (Hc : Color_wf (Color.mk 30 20 10 40))
    by (unfold Color_wf, u8; cbn; lia).
  destruct (color_channel_swap Byte.x0a Byte.x14 Byte.x1e Byte.x28
              (Color.mk 30 20 10 40) Hc) as (_ & _ & H3 & H4).
  split; [exact H3 | exact H4].
Defined.

(** ** Frames *)

Lemma byte_flag (c : byte) :
  (Z.land (byte.unsigned c) 128 =? 0) = negb (Z.testbit (byte.unsigned c) 7).
Proof. destruct c; reflexivity. Qed.

Lemma byte_masked (c : byte) :
  (if Z.testbit (byte.unsigned c) 7 then Z.land (byte.unsigned c) 127
   else byte.unsigned c)
  = Z.clearbit (byte.unsigned c) 7.
Proof. destruct c; reflexivity. Qed.

Lemma u8_at_0 (c : byte) l : u8_at 0 (c :: l) = byte.unsigned c.
Proof. unfold u8_at. cbn [bytes_at skipn firstn]. apply le_combine_1. Qed.

Lemma u8_at_1 (c u : byte) l : u8_at 1 (c :: u :: l) = byte.unsigned u.
Proof. unfold u8_at. cbn [bytes_at skipn firstn]. apply le_combine_1. Qed.

Lemma gate_spec (v : byte) s :
  (if negb (Z.land (byte.unsigned v) 128 =? 0)
   then o <- _ReadAndUnpack 2 ;;
        ret (Z.land (byte.unsigned v) 127, Some (u8_at 0 o), Some (u8_at 1 o))
   else ret (byte.unsigned v, None, None)) s
  = match optional_pair_spec (Z.testbit (byte.unsigned v) 7) s with
    | Return (o1, o2, s') => Return ((Z.clearbit (byte.unsigned v) 7, o1, o2), s')
    | Raise e => Raise e
    | OutOfFuel => OutOfFuel
    end.
Proof.
  rewrite byte_flag, negb_involutive, <- byte_masked.
  unfold optional_pair_spec.
  destruct (Z.testbit (byte.unsigned v) 7); [|reflexivity].
  destruct s as [|o1 [|o2 s2]]; [reflexivity | reflexivity |].
  run_reader. now rewrite u8_at_0, u8_at_1.
Qed.

Lemma load_frame_head_spec s : load_frame_head s = frame_head_spec s.
Proof.
  unfold load_frame_head, frame_head_spec.
  destruct s as [|c [|u s1]]; [reflexivity | reflexivity |].
  rewrite bind_read_firstn by (cbn [length]; lia). cbn [firstn skipn].
  rewrite !u8_at_0, !u8_at_1.
  unfold bind at 1. rewrite gate_spec.
  destruct (optional_pair_spec (Z.testbit (byte.unsigned c) 7) s1)
    as [[[o1 o2] s2]| |]; [|reflexivity..].
  unfold bind at 1. rewrite gate_spec.
  destruct (optional_pair_spec (Z.testbit (byte.unsigned u) 7) s2)
    as [[[o3 o4] s3]| |]; reflexivity.
Qed.

(** Given enough bytes, the subframe loop reads as many records as it is
    asked to. *)
Lemma subframes_read n :
  forall i sfs k s,
    (8 * n <= length s)%nat ->
    exists new,
      for_range n i load_subframe (sfs, k) s
      = Return ((sfs ++ new, k + Z.of_nat n), skipn (8 * n) s)
      /\ length new = n.
Proof.
  induction n as [|n IH]; intros i sfs k s L.
  - exists []. cbn. rewrite app_nil_r, Z.add_0_r. split; reflexivity.
  - cbn [for_range]. unfold load_subframe at 1.
    rewrite bind_assoc, bind_read_firstn by lia. rewrite bind_ret_l.
    destruct (IH (i + 1)
                (sfs ++ [Subframe.mk (i16_at 0 (firstn 8 s)) (u8_at 2 (firstn 8 s))
                           (u8_at 3 (firstn 8 s))
                           (Point.mk (i16_at 4 (firstn 8 s)) (i16_at 6 (firstn 8 s)))])
                (k + 1) (skipn 8 s)) as (new & E & Ln).
    { rewrite length_skipn. lia. }
    rewrite E. eexists (_ :: new). split.
    + rewrite <- app_assoc, skipn_skipn. cbn [app].
      replace (8 * S n)%nat with (8 * n + 8)%nat by lia.
      replace (k + Z.of_nat (S n)) with (k + 1 + Z.of_nat n) by lia.
      reflexivity.
    + cbn [length]. now rewrite Ln.
Qed.

Lemma subframes_short n :
  forall i st s,
    (length s < 8 * n)%nat ->
    exists e, for_range n i load_subframe st s = Raise e.
Proof.
  induction n as [|n IH]; intros i [sfs k] s L; [lia|].
  cbn [for_range]. unfold load_subframe at 1. rewrite bind_assoc.
  destruct (Nat.lt_ge_cases (length s) 8) as [S8|S8].
  - unfold bind. rewrite read_short by exact S8. now eexists.
  - rewrite bind_read_firstn by lia. rewrite bind_ret_l.
    apply IH. rewrite length_skipn. lia.
Qed.

(** Claim C3: the two leading bytes of a frame gate the two optional
    pairs independently.  [load_frame_head] is the spec's
    [frame_head_spec] on every stream: bit 0x80 of [subframeCountByte]
    set means two more bytes are read as [optional1, optional2], clear
    means both are [None]; the same, independently, for [unknownByte] and
    [optional3, optional4]; both bytes are kept with the bit cleared.
    The frame then holds as many subframe records as the masked count
    says, 8 bytes each, and fails if the stream has fewer. *)
Theorem frame_optional_gating :
  (forall s, load_frame_head s = frame_head_spec s)
  /\ (forall i frs nlf nlsf s cnt unk o1 o2 o3 o4 s1,
        frame_head_spec s = Return (cnt, unk, o1, o2, o3, o4, s1) ->
        ((8 * Z.to_nat cnt <= length s1)%nat ->
         exists sfs,
           load_frame i (frs, nlf, nlsf) s
           = Return ((frs ++ [Frame.mk sfs unk o1 o2 o3 o4], nlf + 1, nlsf + cnt),
                     skipn (8 * Z.to_nat cnt) s1)
           /\ len sfs = cnt)
        /\ ((length s1 < 8 * Z.to_nat cnt)%nat ->
            exists e, load_frame i (frs, nlf, nlsf) s = Raise e)).
Proof.
  split; [exact load_frame_head_spec|].
  intros i frs nlf nlsf s cnt unk o1 o2 o3 o4 s1 H.
  rewrite <- load_frame_head_spec in H.
  pose proof (load_frame_head_inv _ _ _ _ _ _ _ _ H) as (Hc & _).
  unfold load_frame. rewrite (bind_Return _ _ _ _ _ H). split.
  - intros L.
    destruct (subframes_read (Z.to_nat cnt) 0 [] nlsf s1 L) as (new & E & Ln).
    rewrite (bind_Return _ _ _ _ _ E). exists new. split.
    + cbn [app]. rewrite Z2Nat.id by lia. reflexivity.
    + unfold len. rewrite Ln. lia.
  - intros L.
    destruct (subframes_short (Z.to_nat cnt) 0 ([], nlsf) s1 L) as (e & E).
    exists e. unfold bind. now rewrite E.
Qed.

Lemma frame_optional_gating_witness :
  exists sfs,
    load_frame 0 ([], 0, 0)
      [Byte.x81; Byte.x05; Byte.x03; Byte.x04;
       Byte.x07; Byte.x00; Byte.x09; Byte.x08; Byte.xfe; Byte.xff; Byte.x2c; Byte.x01]
    = Return (([] ++ [Frame.mk sfs 5 (Some 3) (Some 4) None None], 0 + 1, 0 + 1),
              skipn (8 * Z.to_nat 1)
                [Byte.x07; Byte.x00; Byte.x09; Byte.x08; Byte.xfe; Byte.xff;
                 Byte.x2c; Byte.x01])
    /\ len sfs = 1.
Proof.
  refine (proj1 (proj2 frame_optional_gating 0 [] 0 0 _ 1 5 (Some 3) (Some 4)
                   None None _ _) _).
  - reflexivity.
  - cbn. lia.
Defined.

(** With one member of a pair present and the other absent, the frame
    loop of [Write] sets the flag bit and then raises at [int(None)]. *)
Lemma write_frame_half_pair_raises f a :
  Frame.optional1 f = Some a -> Frame.optional2 f = None ->
  forall out, write_frame f <> (out, Return tt).
Proof.
  intros H1 H2 out. unfold write_frame, write_frame_head. rewrite H1, H2.
  cbn [is_not_None orb pack_2B_int py_int with_arg prt_write].
  destruct (prt_write _) as [[p bm] [[]|e|]]; cbn; discriminate.
Qed.

(** Claim C4: on the frame with [optional1 = 3] and [optional2] absent,
    [Write] emits the subframe-count byte with bit 0x80 set and the
    unknown byte, and then raises [TypeError]: the two optional bytes the
    claim expects are not emitted. *)
Theorem write_frame_half_pair :
  write_frame Sample.half_pair_frame
  = (([Byte.x80; Byte.x00], []), Raise TypeError).
Proof. reflexivity. Qed.

Lemma subframes_emit sfs :
  Forall Subframe_wf sfs ->
  exists bs, emits (for_each sfs write_subframe) bs
             /\ length bs = (8 * length sfs)%nat.
Proof.
  induction 1 as [|sf sfs (Hb & Hu & Hs & Hx & Hy) _ (bs & E & L)].
  - exists []. split; reflexivity.
  - eexists. split.
    + cbn [for_each]. apply emits_bind; [|exact E].
      unfold write_subframe. apply emits_write.
      rewrite !pack_h_ok, !pack_B_ok by assumption. reflexivity.
    + rewrite length_app, L, !length_app, !length_le_split.
      cbn [length]. lia.
Qed.

Lemma byte_of_u8 v : 0 <= v <= 255 -> byte.unsigned (byte.of_Z v) = v.
Proof.
  intros H. rewrite byte.unsigned_of_Z. unfold byte.wrap.
  apply Z.mod_small. change (2 ^ 8) with 256. lia.
Qed.

(** Claim C10, as stated, fails: among the frames of 128 subframes
    without [optional1, optional2] are some that [Write] cannot write.
    With an [unknown] value of 256 it raises [struct.error] before
    writing a byte of the frame; with [optional3] present and [optional4]
    absent it writes the two leading bytes and raises [TypeError]. *)
Lemma write_frame_count_counterexample :
  (128 <= len (Frame.subframes Sample.frame_128_unknown_256) <= 255
   /\ Frame.optional1 Sample.frame_128_unknown_256 = None
   /\ Frame.optional2 Sample.frame_128_unknown_256 = None
   /\ write_frame Sample.frame_128_unknown_256
      = (([], []), Raise struct_error))
  /\ (128 <= len (Frame.subframes Sample.frame_128_half_pair) <= 255
      /\ Frame.optional1 Sample.frame_128_half_pair = None
      /\ Frame.optional2 Sample.frame_128_half_pair = None
      /\ write_frame Sample.frame_128_half_pair
         = (([Byte.x80; Byte.x80], []), Raise TypeError)).
Proof.
  split; (split; [vm_compute; split; discriminate|]);
    repeat split; reflexivity.
Qed.

(** Claim C10, amended: a frame with 128 to 255 subframes and no
    [optional1, optional2], its other fields within their formats -- an
    [unknown] value from 0 to 255, [optional3] and [optional4] both absent
    or both byte values, every subframe field in the range of its format
    -- is written without error, yet the subframe-count byte it emits has
    bit 0x80 set: a reader takes it for the flag, reads a pair that was
    never there and a count of [len - 128].  For frames of at most 127
    subframes and fields as [Load] produces them, the frame is read back
    as it was.  The condition on the other fields cannot be dropped:
    every frame that is written without error meets it. *)
Theorem write_frame_count_overflow (f : Frame.t)
    (Hf : Frame_fields_wf f)
    (H1 : Frame.optional1 f = None) (H2 : Frame.optional2 f = None)
    (Hn : 128 <= len (Frame.subframes f) <= 255) :
  (exists u tail,
     write_frame f
     = ((byte.of_Z (len (Frame.subframes f)) :: u :: tail, []), Return tt)
     /\ byte.unsigned (byte.of_Z (len (Frame.subframes f)))
        = len (Frame.subframes f)
     /\ Z.land (len (Frame.subframes f)) 128 = 128
     /\ Z.land (len (Frame.subframes f)) 127 = len (Frame.subframes f) - 128
     /\ forall rest,
          exists unk o1 o2 o3 o4 s',
            load_frame_head
              (byte.of_Z (len (Frame.subframes f)) :: u :: tail ++ rest)
            = Return (len (Frame.subframes f) - 128, unk,
                      Some o1, Some o2, o3, o4, s'))
  /\ (forall g, Frame_wf g ->
        exists bs, emits (write_frame g) bs
          /\ forall i st, decodes (load_frame i st) bs (step_frame st g))
  /\ (forall g out, write_frame g = (out, Return tt) -> Frame_fields_wf g).
Proof.
  split; [|split; [exact frame_roundtrip | exact write_frame_completes]].
  destruct Hf as (Hu & P2 & Ws).
  destruct (subframes_emit _ Ws) as (bsf & Es & Ls).
  set (n := len (Frame.subframes f)) in *.
  assert (Hm : 0 <= n - 128 <= 127) by lia.
  assert (Hland : Z.land n 127 = n - 128).
  { replace n with (n - 128 + 128) at 1 by lia. now apply land_127_flagged. }
  assert (Hflag : (Z.land n 128 =? 0) = false).
  { replace n with (n - 128 + 128) by lia. now apply land_128_flagged. }
  assert (H128 : Z.land n 128 = 128).
  { replace n with (n - 128 + 128) at 1 by lia.
    rewrite <- lor_128_add by exact Hm.
    rewrite Z.land_lor_distr_l, land_128_small by exact Hm. reflexivity. }
  assert (Hbyte : byte.unsigned (byte.of_Z n) = n) by (apply byte_of_u8; lia).
  assert (Hlen : (4 <= length bsf)%nat).
  { rewrite Ls. unfold n, len in Hn. lia. }
  assert (W : exists u pair2,
             write_frame_head f = ((byte.of_Z n :: u :: pair2, []), Return tt)).
  { unfold write_frame_head. rewrite H1, H2. fold n.
    cbn [is_not_None orb].
    destruct P2 as [[-> ->] | (a3 & a4 & -> & -> & Ha3 & Ha4)];
      cbn [is_not_None orb pack_2B_int py_int with_arg].
    - rewrite !pack_B_ok by (assumption || lia). do 2 eexists. reflexivity.
    - assert (Hu' : 0 <= Z.lor (Frame.unknown f) 128 <= 255).
      { unfold u8 in Hu. split; [apply Z.lor_nonneg; lia|].
        destruct (Z_le_gt_dec (Frame.unknown f) 127) as [Lo|Hi].
        - rewrite lor_128_add by lia. lia.
        - replace (Frame.unknown f) with (Frame.unknown f - 128 + 128) by lia.
          rewrite <- (lor_128_add (Frame.unknown f - 128)) by lia.
          rewrite <- Z.lor_assoc. change (Z.lor 128 128) with 128.
          rewrite lor_128_add by lia. lia. }
      rewrite !pack_B_ok by (assumption || lia). do 2 eexists. reflexivity. }
  destruct W as (u & pair2 & W).
  exists u, (pair2 ++ bsf). split; [|split; [|split; [|split]]];
    try assumption.
  - unfold write_frame. rewrite W. unfold emits, wrote in Es. rewrite Es.
    cbn [wbind app]. reflexivity.
  - intros rest. rewrite load_frame_head_spec. unfold frame_head_spec.
    assert (T : Z.testbit (byte.unsigned (byte.of_Z n)) 7 = true).
    { pose proof (byte_flag (byte.of_Z n)) as F. rewrite Hbyte, Hflag in F.
      rewrite Hbyte. now destruct (Z.testbit n 7). }
    assert (C : Z.clearbit (byte.unsigned (byte.of_Z n)) 7 = n - 128).
    { rewrite <- byte_masked, T, Hbyte. exact Hland. }
    rewrite T, C. unfold optional_pair_spec at 1.
    rewrite <- app_assoc.
    destruct (pair2 ++ bsf ++ rest) as [|o1 [|o2 [|x3 [|x4 t]]]] eqn:E;
      try (apply (f_equal (@length byte)) in E;
           rewrite !length_app in E; cbn [length] in E; lia).
    unfold optional_pair_spec.
    destruct (Z.testbit (byte.unsigned u) 7); do 6 eexists; reflexivity.
Qed.

Lemma write_frame_count_overflow_witness :
  Frame_fields_wf Sample.frame_128
  /\ 128 <= len (Frame.subframes Sample.frame_128) <= 255
  /\ exists u tail,
       write_frame Sample.frame_128
       = ((byte.of_Z 128 :: u :: tail, []), Return tt)
       /\ Z.land 128 128 = 128 /\ Z.land 128 127 = 0.
Proof.
  assert (Hf : Frame_fields_wf Sample.frame_128).
  { unfold Frame_fields_wf, Sample.frame_128; cbn [Frame.unknown Frame.optional3
      Frame.optional4 Frame.subframes].
    split; [unfold u8; lia|]. split; [now left|].
    apply Forall_forall. intros sf Hsf. apply repeat_spec in Hsf. subst sf.
    unfold Subframe_wf, i16, u8; cbn. lia. }
  assert (Hn : 128 <= len (Frame.subframes Sample.frame_128) <= 255)
    by (vm_compute; split; discriminate).
  split; [exact Hf|]. split; [exact Hn|].
  destruct (write_frame_count_overflow Sample.frame_128 Hf eq_refl eq_refl Hn)
    as [(u & tail & E & _ & L1 & L2 & _) _].
  exists u, tail. split; [exact E|]. split; reflexivity.
Defined.

(** ** Counts *)

(** Claim C5: once the three sections of a stream have been parsed, a
    difference between a declared total of the animation header and the
    total parsed -- the number of animations, of frames or of subframes --
    makes [Load] raise one of the three count-mismatch errors; and a
    [Load] that returns has parsed exactly the declared totals.  The
    stream that declares 5 frames and holds 4 raises "incorrect number of
    frames loaded (4, expected 5)". *)
Theorem count_mismatch_fails (prt bmp : list byte) :
  (forall p rest,
     Load_sections bmp prt = Return (p, rest) ->
     len (p_animations p) <> num_anims (p_header p)
     \/ total_frames (p_animations p) <> num_frames (p_header p)
     \/ total_subframes (p_animations p) <> num_subframes (p_header p) ->
     exists e, Load prt bmp = Raise (PRTLoadError e) /\ count_mismatch e)
  /\ (forall c,
        Load prt bmp = Return c ->
        exists p,
          Load_sections bmp prt = Return (p, extra_data c)
          /\ animations c = p_animations p
          /\ num_anims (p_header p) = len (animations c)
          /\ num_frames (p_header p) = total_frames (animations c)
          /\ num_subframes (p_header p) = total_subframes (animations c))
  /\ Load Sample.prt_five_frames_declared Sample.bmp_empty
     = Raise (PRTLoadError (IncorrectFrames 4 5)).
Proof.
  split; [|split].
  - intros p rest HS Hne.
    pose proof (Load_sections_inv _ _ _ _ HS) as (_ & _ & _ & _ & C).
    unfold Load. rewrite (bind_Return _ _ _ _ _ HS).
    unfold bind, check_counts. rewrite C.
    cbn [num_loaded_frames num_loaded_subframes num_loaded_anims].
    fold (len (p_animations p)).
    destruct (Z.eqb_spec (len (p_animations p)) (num_anims (p_header p)));
      cbn [negb]; [|eexists; split; [reflexivity | exact I]].
    destruct (Z.eqb_spec (total_frames (p_animations p)) (num_frames (p_header p)));
      cbn [negb]; [|eexists; split; [reflexivity | exact I]].
    destruct (Z.eqb_spec (total_subframes (p_animations p))
                (num_subframes (p_header p)));
      cbn [negb]; [|eexists; split; [reflexivity | exact I]].
    exfalso. tauto.
  - intros c H. destruct (Load_inv _ _ _ H) as (p & HS & -> & E1 & E2 & E3).
    pose proof (Load_sections_inv _ _ _ _ HS) as (_ & _ & _ & _ & C).
    rewrite C in E2, E3. cbn [num_loaded_frames num_loaded_subframes] in E2, E3.
    exists p. cbn [animations extra_data] in *. repeat split; congruence.
  - vm_compute. reflexivity.
Qed.

Lemma count_mismatch_fails_witness :
  exists e,
    Load Sample.prt_five_frames_declared Sample.bmp_empty
    = Raise (PRTLoadError e) /\ count_mismatch e.
Proof.
  refine (proj1 (count_mismatch_fails Sample.prt_five_frames_declared
                   Sample.bmp_empty)
            (mkParsed [] [] (mkHeader 1 5 0 0)
               [Animation.mk 0 (Rect.mk 0 0 0 0) (Point.mk 0 0) 0
                  [Frame.mk [] 0 None None None None;
                   Frame.mk [] 0 None None None None;
                   Frame.mk [] 0 None None None None;
                   Frame.mk [] 0 None None None None] [] 0]
               (mkCounters 4 0 0))
            [] _ _).
  - vm_compute. reflexivity.
  - right. left. vm_compute. discriminate.
Defined.

(** ** Indices *)

Lemma bind_ext {A B} (m : Reader A) (k1 k2 : A -> Reader B) s :
  (forall a s1, k1 a s1 = k2 a s1) -> bind m k1 s = bind m k2 s.
Proof. intros H. unfold bind. destruct (m s) as [[a s1]| |]; auto. Qed.

Lemma for_range_split {St} (body : Z -> St -> Reader St) k :
  forall m i st s,
    for_range (k + m) i body st s
    = bind (for_range k i body st)
        (fun st' => for_range m (i + Z.of_nat k) body st') s.
Proof.
  induction k as [|k IH]; intros m i st s.
  - cbn [Nat.add for_range]. rewrite bind_ret_l. now rewrite Z.add_0_r.
  - cbn [Nat.add for_range]. rewrite bind_assoc.
    apply bind_ext. intros st1 s1. rewrite IH.
    apply bind_ext. intros st2 s2. f_equal. lia.
Qed.

Lemma load_bitmap_bad_id bmp data_start pals i bmps s :
  (20 <= length s)%nat ->
  i16_at 18 s < 0 \/ i16_at 18 s > len pals - 1 ->
  load_bitmap bmp data_start pals i bmps s
  = Raise (PRTLoadError (PaletteIdOutOfRange i (i16_at 18 s))).
Proof.
  intros L H. unfold load_bitmap.
  rewrite bind_read_firstn by exact L.
  rewrite !i16_at_firstn by lia.
  destruct (Z.ltb_spec (i16_at 18 s) 0) as [A|A]; [reflexivity|].
  destruct (Z.gtb_spec (i16_at 18 s) (Z.of_nat (length pals) - 1)) as [B|B];
    [reflexivity|].
  unfold len in H. lia.
Qed.

(** Claim C6: a bitmap record whose [paletteId] is below 0 or above
    [len(palettes) - 1] makes the bitmap loop, and with it [Load], raise
    the out-of-range error that names the record and the index -- whatever
    records came before it; so the bitmaps of a loaded container all have
    a valid [palette_id].  A [paletteId] equal to the number of palettes
    is such a record. *)
Theorem palette_id_out_of_range_fails
    (prt bmp : list byte) (pals : list Palette.t) (s1 : list byte)
    (k : nat) (bmps : list Bitmap.t) (s3 : list byte)
    (HP : _LoadPalettes [] prt = Return (pals, s1))
    (Hbmp : (14 <= length bmp)%nat)
    (Hsig : bytes_at 0 2 bmp = sig_BM)
    (Hcnt : (4 <= length s1)%nat)
    (Hk : (k < Z.to_nat (u32_at 0 s1))%nat)
    (Hprev : for_range k 0 (load_bitmap bmp (u32_at 10 bmp) pals) []
               (skipn 4 s1) = Return (bmps, s3))
    (Hrec : (20 <= length s3)%nat)
    (Hbad : i16_at 18 s3 < 0 \/ i16_at 18 s3 > len pals - 1) :
  Load prt bmp
  = Raise (PRTLoadError (PaletteIdOutOfRange (Z.of_nat k) (i16_at 18 s3)))
  /\ (i16_at 18 s3 = len pals ->
      Load prt bmp = Raise (PRTLoadError (PaletteIdOutOfRange (Z.of_nat k) (len pals))))
  /\ (forall prt' bmp' c,
        Load prt' bmp' = Return c ->
        Forall (fun bm => 0 <= Bitmap.palette_id bm <= len (palettes c) - 1)
          (bitmaps c)).
Proof.
  assert (G : Load prt bmp
              = Raise (PRTLoadError (PaletteIdOutOfRange (Z.of_nat k) (i16_at 18 s3)))).
  { unfold Load, Load_sections.
    rewrite !bind_assoc, (bind_Return _ _ _ _ _ HP).
    rewrite bind_assoc. unfold _LoadBitmaps.
    rewrite length_firstn, Nat.min_l by exact Hbmp. cbn [Nat.eqb negb].
    rewrite !bytes_at_firstn, u32_at_firstn by lia. rewrite Hsig.
    change (negb (bytes_eqb sig_BM sig_BM)) with false. cbv iota.
    rewrite bind_assoc, bind_read_firstn by exact Hcnt.
    rewrite u32_at_firstn by lia.
    replace (Z.to_nat (u32_at 0 s1))
      with (k + S (Z.to_nat (u32_at 0 s1) - S k))%nat by lia.
    unfold bind at 1. rewrite for_range_split.
    rewrite (bind_Return _ _ _ _ _ Hprev). cbn [for_range].
    unfold bind at 1. rewrite (load_bitmap_bad_id _ _ _ _ _ _ Hrec Hbad).
    reflexivity. }
  split; [exact G|]. split.
  - intros E. now rewrite <- E.
  - intros prt' bmp' c H. apply Load_wf in H.
    destruct H as (_ & _ & _ & Wb & _).
    eapply Forall_impl; [|exact Wb]. intros bm (_ & R & _). exact R.
Qed.

Lemma palette_id_out_of_range_fails_witness :
  Load Sample.prt_bad_palette_id Sample.bmp_16
  = Raise (PRTLoadError (PaletteIdOutOfRange 0 0)).
Proof.
  refine (proj1 (palette_id_out_of_range_fails
                   Sample.prt_bad_palette_id Sample.bmp_16 []
                   (skipn 8 Sample.prt_bad_palette_id) 0 []
                   (skipn 12 Sample.prt_bad_palette_id) _ _ _ _ _ _ _ _)).
  - vm_compute. reflexivity.
  - vm_compute. lia.
  - vm_compute. reflexivity.
  - vm_compute. lia.
  - vm_compute. lia.
  - vm_compute. reflexivity.
  - vm_compute. lia.
  - right. vm_compute. reflexivity.
Defined.

(** Claim C7, as stated, fails: [Load] accepts a stream with no bitmaps
    and a subframe whose [bitmapId] is 7. *)
Lemma subframe_bitmap_id_counterexample :
  Load Sample.prt_one_animation Sample.bmp_empty
  = Return Sample.loaded_one_animation
  /\ exists a f sf,
       In a (animations Sample.loaded_one_animation)
       /\ In f (Animation.frames a) /\ In sf (Frame.subframes f)
       /\ ~ (0 <= Subframe.bitmap_id sf
             <= len (bitmaps Sample.loaded_one_animation) - 1).
Proof.
  split; [vm_compute; reflexivity|].
  eexists _, _, _. repeat split; try (left; reflexivity).
  vm_compute. intros [_ H]. apply H. reflexivity.
Qed.

(** Claim C7, amended: [Load] does not compare a subframe's bitmap index
    with the bitmap table.  A subframe record of 8 bytes is always
    accepted and its [bitmap_id] is the signed 16-bit value of its first
    two bytes; so in a loaded container every subframe's [bitmap_id] lies
    in [-32768, 32767], and nothing more is checked. *)
Theorem subframe_bitmap_id_as_stored
    (i : Z) (sfs : list Subframe.t) (n : Z) (s : list byte)
    (Hs : (8 <= length s)%nat)
    (prt bmp : list byte) (c : PRTFile) (HL : Load prt bmp = Return c) :
  load_subframe i (sfs, n) s
  = Return ((sfs ++ [Subframe.mk (i16_at 0 s) (u8_at 2 s) (u8_at 3 s)
                       (Point.mk (i16_at 4 s) (i16_at 6 s))], n + 1),
            skipn 8 s)
  /\ Forall (fun a =>
       Forall (fun f =>
         Forall (fun sf => -32768 <= Subframe.bitmap_id sf <= 32767)
           (Frame.subframes f))
         (Animation.frames a))
       (animations c).
Proof.
  split.
  - unfold load_subframe. rewrite bind_read_firstn by exact Hs.
    rewrite !i16_at_firstn, !u8_at_firstn by lia. reflexivity.
  - apply Load_wf in HL. destruct HL as (_ & _ & _ & _ & _ & Wa & _).
    eapply Forall_impl; [|exact Wa].
    intros a (_ & _ & _ & _ & _ & Wf & _).
    eapply Forall_impl; [|exact Wf].
    intros f (_ & _ & _ & _ & Ws).
    eapply Forall_impl; [|exact Ws].
    intros sf (R & _). exact R.
Qed.

Lemma subframe_bitmap_id_as_stored_witness :
  load_subframe 0 ([], 0)
    [Byte.xff; Byte.xff; Byte.x09; Byte.x08; Byte.xfe; Byte.xff; Byte.x2c; Byte.x01]
  = Return (([] ++ [Subframe.mk (-1) 9 8 (Point.mk (-2) 300)], 0 + 1), [])
  /\ Forall (fun a =>
       Forall (fun f =>
         Forall (fun sf => -32768 <= Subframe.bitmap_id sf <= 32767)
           (Frame.subframes f))
         (Animation.frames a))
       (animations Sample.loaded_one_animation).
Proof.
  refine (subframe_bitmap_id_as_stored 0 [] 0
            [Byte.xff; Byte.xff; Byte.x09; Byte.x08; Byte.xfe; Byte.xff;
             Byte.x2c; Byte.x01] _
            Sample.prt_one_animation Sample.bmp_empty
            Sample.loaded_one_animation _).
  - cbn. lia.
  - vm_compute. reflexivity.
Defined.

(** ** Palettes *)

(** Claim C8, as stated, fails: a palette entry whose [head] section
    carries a count of 0 loads as a palette of no colors. *)
Lemma palette_256_counterexample :
  Load Sample.prt_empty_palette Sample.bmp_empty
  = Return Sample.loaded_empty_palette
  /\ exists p, In p (palettes Sample.loaded_empty_palette)
               /\ length (Palette.colors p) <> 256%nat.
Proof.
  split; [vm_compute; reflexivity|].
  exists (Palette.mk []). split; [left; reflexivity | discriminate].
Qed.

(** Claim C8, amended: the palette table of a stream that [Load] accepts
    is the tag [CPAL], the number of entries and the entries, each a run
    of [PPAL], [head] and [data] sections that the tag loop reads under
    its counter: the counter starts at 2, each [PPAL] or [data] section
    read takes 1 off, each [head] section replaces it by the 32-bit count
    it carries, and the entry ends when the counter is not positive.  The
    palette of an entry holds the 256 colors of every [data] section so
    read, in order: 256 times the number of those sections.  Conversely
    every table of such runs is loaded that way; so the entry [PPAL],
    [head] with count [n], then [n] [data] sections gives a palette of
    [256 * n] colors -- 256 for the usual count of 1, none for 0. *)
Theorem palette_colors_in_blocks (prt bmp : list byte) (c : PRTFile)
    (HL : Load prt bmp = Return c) :
  Forall colors_in_blocks (palettes c)
  /\ (exists entries rest,
        prt = (tag_CPAL ++ le_split 4 (len entries))
              ++ flat_map (flat_map section_bytes) entries ++ rest
        /\ Forall (tags_run 2) entries
        /\ palettes c = map entry_palette entries
        /\ Forall (fun secs =>
             length (Palette.colors (entry_palette secs))
             = (256 * data_sections secs)%nat) entries)
  /\ (forall entries rest,
        u32 (len entries) -> Forall (tags_run 2) entries ->
        _LoadPalettes []
          ((tag_CPAL ++ le_split 4 (len entries))
           ++ flat_map (flat_map section_bytes) entries ++ rest)
        = Return (map entry_palette entries, rest))
  /\ (forall datas rest,
        u32 (len datas) ->
        Forall (fun es => length es = 256%nat
                          /\ Forall (fun e => length e = 4%nat) es) datas ->
        load_palette
          (flat_map section_bytes
             (PPAL_section :: head_section (len datas)
                :: map data_section datas) ++ rest)
        = Return (Palette.mk (flat_map (map unpack_color) datas), rest)
        /\ length (flat_map (map unpack_color) datas)
           = (256 * length datas)%nat).
Proof.
  split; [|split; [|split]].
  - apply Load_inv in HL. destruct HL as (p & HS & -> & _).
    apply Load_sections_inv in HS. destruct HS as ((_ & _ & B) & _). exact B.
  - apply Load_inv in HL. destruct HL as (p & HS & -> & _).
    cbn [palettes]. unfold Load_sections in HS.
    apply bind_inv in HS. destruct HS as (pals & s1 & HP & HS).
    apply bind_inv in HS. destruct HS as (bmps & s2 & _ & HS).
    apply bind_inv in HS. destruct HS as (hdr & s3 & _ & HS).
    apply bind_inv in HS. destruct HS as ([anims cn] & s4 & _ & HS).
    apply ret_inv in HS. injection HS as -> _. cbn [p_palettes].
    apply _LoadPalettes_sections in HP. destruct HP as (entries & -> & Fr & ->).
    exists entries, s1. repeat split; try assumption.
    eapply Forall_impl; [|exact Fr]. intros secs Hr.
    exact (tags_run_colors secs 2 Hr).
  - intros entries rest R Fr. now apply _LoadPalettes_run.
  - intros datas rest R Fd.
    assert (Hrun : forall n, n = len datas -> tags_run n (map data_section datas)).
    { clear R. induction Fd as [|es datas (L & Fe) _ IH]; intros n ->.
      - cbn. unfold len. cbn. lia.
      - rewrite len_cons. cbn [map tags_run].
        pose proof (len_nonneg datas). repeat split; try assumption; try lia.
        apply IH. lia. }
    assert (Hr : tags_run 2 (PPAL_section :: head_section (len datas)
                               :: map data_section datas)).
    { cbn [tags_run]. repeat split; try lia; try apply R. now apply Hrun. }
    assert (Ec : flat_map section_colors
                   (PPAL_section :: head_section (len datas)
                      :: map data_section datas)
                 = flat_map (map unpack_color) datas).
    { cbn [flat_map section_colors app]. clear.
      induction datas as [|es datas IH]; [reflexivity|].
      cbn [map flat_map section_colors]. now rewrite IH. }
    split.
    + rewrite (load_palette_run _ rest Hr). unfold entry_palette.
      now rewrite Ec.
    + rewrite <- Ec, (tags_run_colors _ 2 Hr). cbn [data_sections].
      f_equal. clear. induction datas as [|es datas IH]; [reflexivity|].
      cbn [map data_sections length]. now rewrite IH.
Qed.

Lemma palette_colors_in_blocks_witness :
  Forall colors_in_blocks (palettes Sample.loaded_full)
  /\ (exists entries rest,
        Sample.prt_full
        = (tag_CPAL ++ le_split 4 (len entries))
          ++ flat_map (flat_map section_bytes) entries ++ rest
        /\ Forall (tags_run 2) entries
        /\ palettes Sample.loaded_full = map entry_palette entries
        /\ Forall (fun secs =>
             length (Palette.colors (entry_palette secs))
             = (256 * data_sections secs)%nat) entries)
  /\ load_palette
       (flat_map section_bytes
          (PPAL_section :: head_section (len [Sample.entries256])
             :: map data_section [Sample.entries256]) ++ [])
     = Return (Palette.mk (flat_map (map unpack_color) [Sample.entries256]), [])
  /\ length (flat_map (map unpack_color) [Sample.entries256])
     = (256 * length [Sample.entries256])%nat.
Proof.
  assert (HL : Load Sample.prt_full Sample.bmp_16 = Return Sample.loaded_full)
    by (vm_compute; reflexivity).
  split; [|split].
  - exact (proj1 (palette_colors_in_blocks Sample.prt_full Sample.bmp_16
                    Sample.loaded_full HL)).
  - exact (proj1 (proj2 (palette_colors_in_blocks Sample.prt_full Sample.bmp_16
                           Sample.loaded_full HL))).
  - refine (proj2 (proj2 (proj2 (palette_colors_in_blocks Sample.prt_full
                                   Sample.bmp_16 Sample.loaded_full HL)))
              [Sample.entries256] [] _ _).
    + vm_compute. split; discriminate.
    + constructor; [|constructor]. split; [apply repeat_length|].
      apply Forall_forall. intros e He. apply repeat_spec in He.
      subst e. reflexivity.
Defined.

(** ** Bitmaps *)

Lemma bmp_slice_len bmp pos n :
  0 <= pos -> 0 <= n ->
  len (bmp_slice bmp pos n) = Z.min n (Z.max 0 (len bmp - pos)).
Proof.
  intros Hp Hn. unfold bmp_slice, len.
  rewrite length_firstn, length_skipn. lia.
Qed.

(** Claim C9, as stated, fails: a bitmap of width 5 and height 2 whose
    record stores a [paddedWidth] of 4 loads with a pixel buffer of 8
    bytes, not [((5 + 3) & ~3) * 2 = 16]. *)
Lemma pixel_buffer_counterexample :
  Load Sample.prt_narrow_bitmap Sample.bmp_16
  = Return Sample.loaded_narrow_bitmap
  /\ exists bm, In bm (bitmaps Sample.loaded_narrow_bitmap)
       /\ Bitmap.width bm = 5 /\ Bitmap.height bm = 2
       /\ len (Bitmap.data bm) = 8
       /\ padded_width (Bitmap.width bm) * Bitmap.height bm = 16.
Proof.
  split; [vm_compute; reflexivity|].
  eexists. split; [left; reflexivity|]. repeat split.
Qed.

(** Claim C9, amended: the pixel buffer of a loaded bitmap is what the
    companion blob holds from [offset + dataStart] on, up to
    [paddedWidth * height] bytes, where [paddedWidth] is the field stored
    in the bitmap's record, not a value computed from [width].  Its length
    is [paddedWidth * height] when the blob holds that many bytes there,
    and what is left of the blob otherwise.  The product is at most
    [sys.maxsize]: on a record that declares more the loop raises
    [OverflowError] at the read of the pixel buffer.  So the bitmaps of a
    loaded container are those of the 20-byte records that follow the
    palette table and the bitmap count in the stream, one for one. *)
Theorem pixel_buffer_is_blob_slice
    (bmp : list byte) (data_start : Z) (pals : list Palette.t) (i : Z)
    (bmps : list Bitmap.t) (s : list byte)
    (Hds : 0 <= data_start)
    (Hs : (20 <= length s)%nat)
    (Hid : 0 <= i16_at 18 s <= len pals - 1)
    (prt : list byte) (c : PRTFile) (HL : Load prt bmp = Return c) :
  (u32_at 0 s * u32_at 8 s <= PY_SSIZE_T_MAX ->
   exists bm,
     load_bitmap bmp data_start pals i bmps s = Return (bmps ++ [bm], skipn 20 s)
     /\ Bitmap.width bm = u32_at 12 s /\ Bitmap.height bm = u32_at 8 s
     /\ Bitmap.data bm
        = bmp_slice bmp (u32_at 4 s + data_start) (u32_at 0 s * u32_at 8 s)
     /\ len (Bitmap.data bm)
        = Z.min (u32_at 0 s * u32_at 8 s)
            (Z.max 0 (len bmp - (u32_at 4 s + data_start))))
  /\ (PY_SSIZE_T_MAX < u32_at 0 s * u32_at 8 s ->
      load_bitmap bmp data_start pals i bmps s = Raise OverflowError)
  /\ (exists recs rest,
        _LoadPalettes [] prt
        = Return (palettes c, le_split 4 (len recs) ++ concat recs ++ rest)
        /\ Forall (record_ok (palettes c)) recs
        /\ bitmaps c
           = map (record_bitmap bmp (u32_at 10 bmp) (palettes c)) recs
        /\ Forall (fun rec =>
             len (Bitmap.data
                    (record_bitmap bmp (u32_at 10 bmp) (palettes c) rec))
             = Z.min (u32_at 0 rec * u32_at 8 rec)
                 (Z.max 0 (len bmp - (u32_at 4 rec + u32_at 10 bmp)))) recs).
Proof.
  assert (Hhead :
            load_bitmap bmp data_start pals i bmps s
            = (data <- lift (bmp_read_at bmp (u32_at 4 s + data_start)
                               (u32_at 0 s * u32_at 8 s)) ;;
               ret (bmps ++
                      [Bitmap.mk (palette_at pals (i16_at 18 s)) (i16_at 18 s)
                         (i16_at 16 s) (u32_at 12 s) (u32_at 8 s) data]))
                (skipn 20 s)).
  { unfold load_bitmap. rewrite bind_read_firstn by exact Hs.
    rewrite !i16_at_firstn, !u32_at_firstn by lia.
    destruct (Z.ltb_spec (i16_at 18 s) 0) as [A|A]; [lia|].
    destruct (Z.gtb_spec (i16_at 18 s) (Z.of_nat (length pals) - 1)) as [B|B];
      [unfold len in Hid; lia|].
    reflexivity. }
  split; [|split].
  - intros Hmax. eexists. rewrite Hhead.
    rewrite (bind_Return _ _ _ _ _ (blob_read_ok _ _ _ _ Hmax)).
    split; [reflexivity|].
    cbn [Bitmap.width Bitmap.height Bitmap.data].
    repeat split.
    pose proof (u32_at_range 0 s). pose proof (u32_at_range 4 s).
    pose proof (u32_at_range 8 s).
    apply bmp_slice_len; nia.
  - intros Hbig. rewrite Hhead. apply bind_Raise. now apply blob_read_big.
  - apply Load_inv in HL. destruct HL as (p & HS & -> & _).
    cbn [bitmaps palettes]. unfold Load_sections in HS.
    apply bind_inv in HS. destruct HS as (pals' & s1 & HP & HS).
    apply bind_inv in HS. destruct HS as (bmps' & s2 & HB & HS).
    apply bind_inv in HS. destruct HS as (hdr & s3 & _ & HS).
    apply bind_inv in HS. destruct HS as ([anims cn] & s4 & HA & HS).
    apply ret_inv in HS. injection HS as -> _. cbn [p_bitmaps p_palettes].
    apply _LoadBitmaps_records in HB. destruct HB as (recs & -> & Fr & ->).
    exists recs, s2. repeat split; try assumption.
    eapply Forall_impl; [|exact Fr]. intros rec (L & Hi & Hm).
    cbn [record_bitmap Bitmap.data].
    pose proof (u32_at_range 0 rec). pose proof (u32_at_range 4 rec).
    pose proof (u32_at_range 8 rec). pose proof (u32_at_range 10 bmp).
    apply bmp_slice_len; nia.
Qed.

Lemma pixel_buffer_is_blob_slice_witness :
  (exists bm,
     load_bitmap Sample.bmp_16 14 [Sample.palette256] 0 []
       (Sample.bitmap_record 8 0 2 5 1 0)
     = Return ([] ++ [bm], skipn 20 (Sample.bitmap_record 8 0 2 5 1 0))
     /\ Bitmap.width bm = 5 /\ Bitmap.height bm = 2
     /\ len (Bitmap.data bm) = 16)
  /\ load_bitmap Sample.bmp_16 14 [Sample.palette256] 0 []
       (Sample.bitmap_record 4294967295 0 4294967295 5 1 0)
     = Raise OverflowError.
Proof.
  assert (Hds : 0 <= 14) by lia.
  assert (HL : Load Sample.prt_full Sample.bmp_16 = Return Sample.loaded_full)
    by (vm_compute; reflexivity).
  split.
  - assert (Hs : (20 <= length (Sample.bitmap_record 8 0 2 5 1 0))%nat)
      by (vm_compute; lia).
    assert (Hid : 0 <= i16_at 18 (Sample.bitmap_record 8 0 2 5 1 0)
                  <= len [Sample.palette256] - 1)
      by (vm_compute; split; discriminate).
    assert (Hmax : u32_at 0 (Sample.bitmap_record 8 0 2 5 1 0)
                   * u32_at 8 (Sample.bitmap_record 8 0 2 5 1 0)
                   <= PY_SSIZE_T_MAX)
      by (vm_compute; discriminate).
    destruct (proj1 (pixel_buffer_is_blob_slice Sample.bmp_16 14
                       [Sample.palette256] 0 []
                       (Sample.bitmap_record 8 0 2 5 1 0) Hds Hs Hid
                       Sample.prt_full Sample.loaded_full HL) Hmax)
      as (bm & E & W & H & _ & L).
    exists bm. split; [exact E|]. split; [|split].
    + rewrite W. vm_compute. reflexivity.
    + rewrite H. vm_compute. reflexivity.
    + rewrite L. vm_compute. reflexivity.
  - refine (proj1 (proj2 (pixel_buffer_is_blob_slice Sample.bmp_16 14
                            [Sample.palette256] 0 []
                            (Sample.bitmap_record 4294967295 0 4294967295 5 1 0)
                            Hds _ _
                            Sample.prt_full Sample.loaded_full HL)) _).
    + vm_compute. lia.
    + vm_compute. split; discriminate.
    + vm_compute. reflexivity.
Defined.

(** ** Round trip *)

(** Claim C1, as stated, fails, in two ways.  A loaded container with a
    palette of no colors is written as an entry whose [data] section is
    empty, and loading that runs out of data.  A loaded bitmap of width 5
    and height 1 whose record stored a [paddedWidth] of 16 has 16 pixel
    bytes; [Write] declares a [paddedWidth] of 8, and loading the result
    gives the bitmap 8 pixel bytes. *)
Lemma roundtrip_counterexample :
  (Load Sample.prt_empty_palette Sample.bmp_empty
   = Return Sample.loaded_empty_palette
   /\ exists prt bmp,
        Write minimal_WriteBMPToOpenFile Sample.loaded_empty_palette
        = ((prt, bmp), Return tt)
        /\ Load prt bmp <> Return Sample.loaded_empty_palette)
  /\ (Load Sample.prt_wide_bitmap Sample.bmp_16
      = Return Sample.loaded_wide_bitmap
      /\ exists prt bmp,
           Write minimal_WriteBMPToOpenFile Sample.loaded_wide_bitmap
           = ((prt, bmp), Return tt)
           /\ Load prt bmp <> Return Sample.loaded_wide_bitmap).
Proof.
  split; (split; [vm_compute; reflexivity|]).
  - eexists _, _. split; [vm_compute; reflexivity|].
    vm_compute. discriminate.
  - eexists _, _. split; [vm_compute; reflexivity|].
    vm_compute. intros H. injection H as H.
    apply (f_equal (@length byte)) in H. discriminate.
Qed.

(** Claim C1, amended: let [Load] return a container whose palettes all
    have exactly 256 colors, whose bitmaps each have a pixel buffer of
    [((width + 3) & ~3) * height] bytes with that padded width below
    2^32, and whose pixel buffers together are shorter than 2^32 bytes.
    Then [Write] completes, and [Load] on the two byte strings it produced
    returns an equal container: the same palettes, bitmaps with their
    pixel bytes, animations with their frames, subframes and optional
    fields present or absent as before, appendix records and trailing
    extra data.  The companion-blob writer is any that keeps the layout of
    the spec. *)
Theorem load_write_load_roundtrip
    (WriteBMPToOpenFile : Palette.t -> list byte -> list byte)
    (prt0 bmp0 : list byte) (c : PRTFile)
    (HW : bmp_layout WriteBMPToOpenFile)
    (HL : Load prt0 bmp0 = Return c)
    (H256 : Forall (fun p => length (Palette.colors p) = 256%nat) (palettes c))
    (Hpad : Forall Bitmap_padded (bitmaps c))
    (Hm : len (master_data (bitmaps c)) <= 4294967295) :
  exists prt bmp,
    Write WriteBMPToOpenFile c = ((prt, bmp), Return tt)
    /\ Load prt bmp = Return c.
Proof.
  apply Write_Load_roundtrip; try assumption.
  - exact (Load_wf _ _ _ HL).
  - split; [apply len_nonneg | exact Hm].
Qed.

Lemma load_write_load_roundtrip_witness :
  exists prt bmp,
    Write minimal_WriteBMPToOpenFile Sample.loaded_full = ((prt, bmp), Return tt)
    /\ Load prt bmp = Return Sample.loaded_full.
Proof.
  refine (load_write_load_roundtrip minimal_WriteBMPToOpenFile
            Sample.prt_full Sample.bmp_16 Sample.loaded_full
            minimal_layout _ _ _ _).
  - vm_compute. reflexivity.
  - repeat constructor.
  - repeat constructor. vm_compute. discriminate.
  - vm_compute. discriminate.
Defined.

(** * Further properties of the codec *)

(** ** Readers depend only on what they consume *)

Lemma local_ret {A} (a : A) : local (ret a).
Proof.
  intros s a' s' H. apply ret_inv in H. injection H as <- <-.
  exists []. split; [reflexivity | intros t; reflexivity].
Qed.

Lemma local_raise {A} e : local (@raise A e).
Proof. intros s a s' H. discriminate. Qed.

Lemma local_lift {A} (o : outcome A) : local (lift o).
Proof.
  intros s a s' H. unfold lift in H. destruct o as [a0| |]; try discriminate.
  injection H as <- <-. exists []. split; [reflexivity | intros t; reflexivity].
Qed.

Lemma local_read n : local (_ReadAndUnpack n).
Proof.
  intros s a s' H. apply read_inv in H. destruct H as [-> L].
  exists a. split; [reflexivity | intros t; now apply read_app].
Qed.

Lemma local_bind {A B} (m : Reader A) (k : A -> Reader B) :
  local m -> (forall a, local (k a)) -> local (bind m k).
Proof.
  intros Hm Hk s b0 s' H. apply bind_inv in H. destruct H as (a & s1 & H1 & H2).
  destruct (Hm _ _ _ H1) as (p1 & -> & D1).
  destruct (Hk a _ _ _ H2) as (p2 & -> & D2).
  exists (p1 ++ p2). split; [apply app_assoc|].
  now apply decodes_bind with (a := a).
Qed.

Lemma local_for_range {St} (body : Z -> St -> Reader St) :
  (forall i st, local (body i st)) ->
  forall n i st, local (for_range n i body st).
Proof.
  intros Hb. induction n as [|n IH]; intros i st; cbn [for_range].
  - apply local_ret.
  - apply local_bind; [apply Hb | intros; apply IH].
Qed.

(** Taking the locality of a reader apart along its structure. *)
Ltac local_tac :=
  repeat match goal with
  | |- local (bind _ _) => apply local_bind; [|intros]
  | |- local (ret _) => apply local_ret
  | |- local (_ReadAndUnpack _) => apply local_read
  | |- local (raise _) => apply local_raise
  | |- local (lift _) => apply local_lift
  | |- local (for_range _ _ _ _) => apply local_for_range; intros
  | |- local (if ?c then _ else _) => destruct c
  | |- local (match ?p with (_, _) => _ end) => destruct p
  end.

(** The palette loop returns the same on the bytes it consumed, whatever
    follows and whatever fuel it has beyond their number. *)
Lemma load_palette_tags_local fuel :
  forall n pal s r s',
    load_palette_tags fuel n pal s = Return (r, s') ->
    exists pre, s = pre ++ s'
      /\ forall fuel' t, (length pre < fuel')%nat ->
           load_palette_tags fuel' n pal (pre ++ t) = Return (r, t).
Proof.
  induction fuel as [|fuel IH]; intros n pal s r s' H.
  - cbn [load_palette_tags] in H. destruct (Z.gtb_spec n 0); [discriminate|].
    apply ret_inv in H. injection H as <- <-.
    exists []. split; [reflexivity|]. intros fuel' t _. now apply tags_done.
  - cbn [load_palette_tags] in H. destruct (Z.gtb_spec n 0) as [Hn|Hn].
    2:{ apply ret_inv in H. injection H as <- <-.
        exists []. split; [reflexivity|]. intros fuel' t _. now apply tags_done. }
    apply bind_inv in H. destruct H as (hdr & s1 & R & H).
    apply read_inv in R. destruct R as [-> Lh].
    destruct (bytes_eqb (bytes_at 0 4 hdr) tag_PPAL) eqn:EP.
    { destruct (negb (u32_at 4 hdr =? 1048)) eqn:ES; [discriminate|].
      apply IH in H. destruct H as (pre & -> & D).
      exists (hdr ++ pre). split; [apply app_assoc|].
      intros fuel' t L. rewrite length_app in L.
      destruct fuel' as [|fuel']; [lia|].
      cbn [load_palette_tags]. destruct (Z.gtb_spec n 0); [|lia].
      rewrite <- app_assoc, (bind_read 8) by exact Lh.
      rewrite EP, ES. apply D. lia. }
    destruct (bytes_eqb (bytes_at 0 4 hdr) tag_RIFF) eqn:ER; [discriminate|].
    destruct (bytes_eqb (bytes_at 0 4 hdr) tag_head) eqn:EH.
    { destruct (negb (u32_at 4 hdr =? 4)) eqn:ES; [discriminate|].
      apply bind_inv in H. destruct H as (cnt & s2 & R & H).
      apply read_inv in R. destruct R as [-> Lc].
      apply IH in H. destruct H as (pre & -> & D).
      exists (hdr ++ cnt ++ pre). split; [now rewrite <- !app_assoc|].
      intros fuel' t L. rewrite !length_app in L.
      destruct fuel' as [|fuel']; [lia|].
      cbn [load_palette_tags]. destruct (Z.gtb_spec n 0); [|lia].
      rewrite <- !app_assoc, (bind_read 8) by exact Lh.
      rewrite EP, ER, EH, ES. rewrite (bind_read 4) by exact Lc.
      apply D. lia. }
    destruct (bytes_eqb (bytes_at 0 4 hdr) tag_data) eqn:ED; [|discriminate].
    destruct (negb (u32_at 4 hdr =? 1024)) eqn:ES; [discriminate|].
    apply bind_inv in H. destruct H as (pal1 & s2 & L256 & H).
    assert (LC : local (for_range 256 0
                          (fun (_ : Z) cs => entry <- _ReadAndUnpack 4 ;;
                                             ret (cs ++ [unpack_color entry])) pal))
      by (apply local_for_range; intros; local_tac).
    destruct (LC _ _ _ L256) as (pc & -> & Dc).
    apply IH in H. destruct H as (pre & -> & D).
    exists (hdr ++ pc ++ pre). split; [now rewrite <- !app_assoc|].
    intros fuel' t L. rewrite !length_app in L.
    destruct fuel' as [|fuel']; [lia|].
    cbn [load_palette_tags]. destruct (Z.gtb_spec n 0); [|lia].
    rewrite <- !app_assoc, (bind_read 8) by exact Lh.
    rewrite EP, ER, EH, ED, ES.
    rewrite (bind_Return _ _ _ _ _ (Dc _)). apply D. lia.
Qed.

Lemma local_load_palette : local load_palette.
Proof.
  intros s pal s' H. unfold load_palette in H.
  apply bind_inv in H. destruct H as (cs & s1 & T & H).
  apply ret_inv in H. injection H as -> ->.
  apply load_palette_tags_local in T. destruct T as (pre & -> & D).
  exists pre. split; [reflexivity|]. intros t. unfold load_palette.
  rewrite (bind_Return _ _ _ cs t); [reflexivity|].
  apply D. rewrite length_app. lia.
Qed.

Lemma local_LoadPalettes pals0 : local (_LoadPalettes pals0).
Proof.
  unfold _LoadPalettes. local_tac. apply local_load_palette.
Qed.

Lemma local_load_bitmap bmp ds pals i st : local (load_bitmap bmp ds pals i st).
Proof. unfold load_bitmap. local_tac. Qed.

Lemma local_LoadBitmaps bmp pals st : local (_LoadBitmaps bmp pals st).
Proof.
  unfold _LoadBitmaps. destruct (negb _); [intros s a s' H; discriminate|].
  local_tac. apply local_load_bitmap.
Qed.

Lemma local_load_subframe i st : local (load_subframe i st).
Proof. destruct st. unfold load_subframe. local_tac. Qed.

Lemma local_load_frame_head : local load_frame_head.
Proof. unfold load_frame_head. local_tac. Qed.

Lemma local_load_frame i st : local (load_frame i st).
Proof.
  destruct st as [[frs a] b0]. unfold load_frame.
  apply local_bind; [apply local_load_frame_head|].
  intros [[[[[c u] o1] o2] o3] o4].
  apply local_bind; [apply local_for_range; intros; apply local_load_subframe|].
  intros [sfs n]. apply local_ret.
Qed.

Lemma local_load_appendix i st : local (load_appendix i st).
Proof. destruct st. unfold load_appendix. local_tac. Qed.

Lemma local_load_animation i st : local (load_animation i st).
Proof.
  destruct st as [anims cn]. unfold load_animation.
  apply local_bind; [apply local_read|]. intros rec.
  apply local_bind; [apply local_for_range; intros; apply local_load_frame|].
  intros [[frs a] b0].
  apply local_bind; [apply local_read|]. intros u.
  apply local_bind; [apply local_for_range; intros; apply local_load_appendix|].
  intros [aps n]. apply local_ret.
Qed.

Lemma local_Load_sections bmp : local (Load_sections bmp).
Proof.
  unfold Load_sections.
  apply local_bind; [apply local_LoadPalettes|]. intros pals.
  apply local_bind; [apply local_LoadBitmaps|]. intros bmps.
  apply local_bind; [unfold load_header; local_tac|]. intros hdr.
  apply local_bind; [apply local_for_range; intros; apply local_load_animation|].
  intros [anims cn]. apply local_ret.
Qed.

(** Extra X1: the structured part of the main stream is self-delimiting.
    When [Load] returns, the stream is the bytes of the three sections
    followed by exactly [extra_data]; and the same sections followed by
    any other bytes load as the same container with those bytes as
    [extra_data].  The trailing bytes are never inspected. *)
Theorem Load_extra_data_verbatim (prt bmp : list byte) (c : PRTFile)
    (HL : Load prt bmp = Return c) :
  exists body,
    prt = body ++ extra_data c
    /\ forall t, Load (body ++ t) bmp = Return (with_extra_data c t).
Proof.
  destruct (Load_inv _ _ _ HL) as (p & HS & Ec & E1 & E2 & E3).
  destruct (local_Load_sections bmp _ _ _ HS) as (body & Eb & D).
  exists body. split; [exact Eb|]. intros t. unfold Load.
  rewrite (bind_Return _ _ _ _ _ (D t)). unfold check_counts.
  fold (len (p_animations p)). rewrite E1, E2, E3, !Z.eqb_refl. cbn [negb].
  rewrite bind_ret_l. unfold ret, with_extra_data. rewrite Ec. reflexivity.
Qed.

Lemma Load_extra_data_verbatim_witness :
  exists body,
    Sample.prt_one_animation = body ++ extra_data Sample.loaded_one_animation
    /\ forall t,
         Load (body ++ t) Sample.bmp_empty
         = Return (with_extra_data Sample.loaded_one_animation t).
Proof.
  refine (Load_extra_data_verbatim Sample.prt_one_animation Sample.bmp_empty
            Sample.loaded_one_animation _).
  vm_compute. reflexivity.
Defined.

(** ** What [Load] raises *)

Lemma raises_bind {A B} P (m : Reader A) (k : A -> Reader B) :
  raises_only P m -> (forall a, raises_only P (k a)) -> raises_only P (bind m k).
Proof.
  intros Hm Hk s e H. unfold bind in H.
  destruct (m s) as [[a s1]| e1 |] eqn:E; try discriminate.
  - exact (Hk a _ _ H).
  - injection H as <-. exact (Hm _ _ E).
Qed.

Lemma raises_ret {A} P (a : A) : raises_only P (ret a).
Proof. intros s e H. discriminate. Qed.

Lemma raises_for_range {St} P (body : Z -> St -> Reader St) :
  (forall i st, raises_only P (body i st)) ->
  forall n i st, raises_only P (for_range n i body st).
Proof.
  intros Hb. induction n as [|n IH]; intros i st; cbn [for_range].
  - apply raises_ret.
  - apply raises_bind; [apply Hb | intros; apply IH].
Qed.

Section SectionsRaise.

Variable bmp : list byte.

Lemma section_raise {A} k : section_error k -> raises_only (sections_raise bmp) (@raise A k).
Proof. intros Hk s e [= <-]. right. right. now exists k. Qed.

Lemma raises_read n : raises_only (sections_raise bmp) (_ReadAndUnpack n).
Proof.
  intros s e H. unfold _ReadAndUnpack in H.
  destruct (Nat.eqb _ _); [discriminate|]. injection H as <-.
  right. right. eexists. split; [reflexivity | exact I].
Qed.

(** Taking the exceptions of a reader apart along its structure. *)
Ltac raises_tac :=
  repeat match goal with
  | |- raises_only _ (bind _ _) => apply raises_bind; [|intros]
  | |- raises_only _ (ret _) => apply raises_ret
  | |- raises_only _ (_ReadAndUnpack _) => apply raises_read
  | |- raises_only _ (raise _) => apply section_raise; exact I
  | |- raises_only _ (for_range _ _ _ _) => apply raises_for_range; intros
  | |- raises_only _ (if ?c then _ else _) => destruct c
  | |- raises_only _ (match ?p with (_, _) => _ end) => destruct p
  end.

Lemma raises_load_palette_tags fuel :
  forall n pal, raises_only (sections_raise bmp) (load_palette_tags fuel n pal).
Proof.
  induction fuel as [|fuel IH]; intros n pal; cbn [load_palette_tags].
  - destruct (n >? 0); [intros s e H; discriminate | apply raises_ret].
  - destruct (n >? 0); [|apply raises_ret].
    apply raises_bind; [apply raises_read|]. intros hdr.
    raises_tac; apply IH.
Qed.

Lemma raises_load_palette : raises_only (sections_raise bmp) load_palette.
Proof.
  intros s e H. unfold load_palette in H. revert H.
  apply raises_bind; [apply raises_load_palette_tags | intros; apply raises_ret].
Qed.

Lemma raises_LoadPalettes pals0 :
  raises_only (sections_raise bmp) (_LoadPalettes pals0).
Proof. unfold _LoadPalettes. raises_tac. apply raises_load_palette. Qed.

Lemma raises_LoadBitmaps pals st :
  raises_only (sections_raise bmp) (_LoadBitmaps bmp pals st).
Proof.
  unfold _LoadBitmaps.
  destruct (Nat.eqb_spec (length (firstn 14 bmp)) 14) as [L|L]; cbn [negb].
  - destruct (bytes_eqb (bytes_at 0 2 (firstn 14 bmp)) sig_BM) eqn:ES;
      cbn [negb]; [|raises_tac].
    rewrite length_firstn in L.
    rewrite bytes_at_firstn in ES by lia. apply bytes_eqb_eq in ES.
    apply raises_bind; [apply raises_read|]. intros cnt.
    apply raises_for_range. intros i st'. unfold load_bitmap.
    apply raises_bind; [apply raises_read|]. intros rec.
    destruct (_ || _); [apply section_raise; exact I|].
    apply raises_bind; [|intros; apply raises_ret].
    intros s e H. unfold lift, bmp_read_at in H.
    destruct (_ >? _); [|discriminate]. injection H as <-.
    right. left. split; [reflexivity|]. split; [lia | exact ES].
  - intros s e [= <-]. left. split; [reflexivity|].
    rewrite length_firstn in L. lia.
Qed.

Lemma raises_load_frame i st : raises_only (sections_raise bmp) (load_frame i st).
Proof.
  destruct st as [[frs a] b0]. unfold load_frame.
  apply raises_bind; [unfold load_frame_head; raises_tac|].
  intros [[[[[c u] o1] o2] o3] o4].
  apply raises_bind.
  - apply raises_for_range. intros j [sfs n]. unfold load_subframe. raises_tac.
  - intros [sfs n]. apply raises_ret.
Qed.

Lemma raises_load_animation i st :
  raises_only (sections_raise bmp) (load_animation i st).
Proof.
  destruct st as [anims cn]. unfold load_animation.
  apply raises_bind; [apply raises_read|]. intros rec.
  apply raises_bind; [apply raises_for_range; intros; apply raises_load_frame|].
  intros [[frs a] b0].
  apply raises_bind; [apply raises_read|]. intros u.
  apply raises_bind.
  - apply raises_for_range. intros j [aps n]. unfold load_appendix. raises_tac.
  - intros [aps n]. apply raises_ret.
Qed.

Lemma raises_Load_sections :
  raises_only (sections_raise bmp) (Load_sections bmp).
Proof.
  unfold Load_sections.
  apply raises_bind; [apply raises_LoadPalettes|]. intros pals.
  apply raises_bind; [apply raises_LoadBitmaps|]. intros bmps.
  apply raises_bind; [unfold load_header; raises_tac|]. intros hdr.
  apply raises_bind; [apply raises_for_range; intros; apply raises_load_animation|].
  intros [anims cn]. apply raises_ret.
Qed.

End SectionsRaise.

(** Extra X2: [Load] ends on every pair of inputs, by returning a
    container or by raising: the [while] loop over the tags of a palette
    entry cannot run forever, whatever count a [head] section declares,
    because every turn consumes 8 bytes of a finite stream. *)
Theorem Load_returns_or_raises (prt bmp : list byte) :
  (exists c, Load prt bmp = Return c) \/ (exists e, Load prt bmp = Raise e).
Proof.
  pose proof (Load_never_OutOfFuel prt bmp) as H.
  destruct (Load prt bmp) as [c|e|]; [left | right | contradiction]; now eexists.
Qed.

(** Extra X3: the exceptions of [Load] on a freshly constructed object.
    It raises [struct.error] only when the companion blob is shorter than
    its 14-byte header, [OverflowError] only from the read of a pixel
    buffer, so only over a blob of at least 14 bytes that starts with
    [BM], and otherwise only [PRTLoadError]; never [TypeError] or
    [IndexError].  The first of its three final comparisons, "incorrect
    number of animations loaded", can never fail on such an object: its
    animation list holds one animation per turn of the loop, which has run
    once per declared animation. *)
Theorem Load_raises (prt bmp : list byte) (e : exn)
    (HL : Load prt bmp = Raise e) :
  ((e = struct_error /\ (length bmp < 14)%nat)
   \/ (e = OverflowError
       /\ (14 <= length bmp)%nat /\ bytes_at 0 2 bmp = sig_BM)
   \/ exists k, e = PRTLoadError k)
  /\ e <> TypeError /\ e <> IndexError
  /\ forall loaded expected,
       e <> PRTLoadError (IncorrectAnimations loaded expected).
Proof.
  unfold Load in HL.
  destruct ((p <- Load_sections bmp ;; _ <- check_counts p ;; ret p) prt)
    as [[p rest]|e'|] eqn:E; try discriminate.
  injection HL as ->. unfold bind in E.
  destruct (Load_sections bmp prt) as [[p s1]|e1|] eqn:ES; try discriminate.
  - pose proof (Load_sections_inv _ _ _ _ ES) as (_ & _ & (A1 & _) & _).
    unfold check_counts in E. fold (len (p_animations p)) in E.
    rewrite A1, Z.eqb_refl in E. cbn [negb] in E.
    destruct (negb (num_loaded_frames (p_counters p) =? num_frames (p_header p)));
      [injection E as <-;
       split; [right; right; now eexists | repeat split; discriminate]|].
    destruct (negb (num_loaded_subframes (p_counters p)
                    =? num_subframes (p_header p)));
      [injection E as <-;
       split; [right; right; now eexists | repeat split; discriminate]|].
    discriminate.
  - injection E as <-.
    destruct (raises_Load_sections bmp _ _ ES)
      as [[-> L] | [(-> & L & S) | (k & -> & Hk)]].
    + split; [left; now split | repeat split; discriminate].
    + split; [right; left; now repeat split | repeat split; discriminate].
    + split; [right; right; now eexists|].
      repeat split; try discriminate. intros a b0 [= ->]. exact Hk.
Qed.

Lemma Load_raises_witness :
  Load Sample.prt_huge_bitmap Sample.bmp_16 = Raise OverflowError
  /\ ((OverflowError = struct_error /\ (length Sample.bmp_16 < 14)%nat)
      \/ (OverflowError = OverflowError
          /\ (14 <= length Sample.bmp_16)%nat
          /\ bytes_at 0 2 Sample.bmp_16 = sig_BM)
      \/ exists k, OverflowError = PRTLoadError k)
  /\ OverflowError <> TypeError /\ OverflowError <> IndexError
  /\ forall loaded expected,
       OverflowError <> PRTLoadError (IncorrectAnimations loaded expected).
Proof.
  split; [vm_compute; reflexivity|].
  refine (Load_raises Sample.prt_huge_bitmap Sample.bmp_16 _ _).
  vm_compute. reflexivity.
Defined.

(** ** The shape of a loaded container *)

(** Extra X4: in a container that [Load] returned, every frame has at most
    127 subframes and an [unknown] value of at most 127 (bit 0x80 of both
    leading bytes is always masked off or clear), each optional pair is
    either wholly absent or wholly present with byte values, and every
    subframe field lies within its stored format. *)
Theorem loaded_frames_shape (prt bmp : list byte) (c : PRTFile)
    (HL : Load prt bmp = Return c) :
  forall a f, In a (animations c) -> In f (Animation.frames a) ->
    0 <= len (Frame.subframes f) <= 127
    /\ 0 <= Frame.unknown f <= 127
    /\ pair_wf (Frame.optional1 f) (Frame.optional2 f)
    /\ pair_wf (Frame.optional3 f) (Frame.optional4 f)
    /\ Forall Subframe_wf (Frame.subframes f).
Proof.
  intros a f Ha Hf. apply Load_wf in HL.
  destruct HL as (_ & _ & _ & _ & _ & Wa & _).
  pose proof (proj1 (Forall_forall _ _) Wa a Ha) as (_ & _ & _ & _ & _ & Wf & _).
  pose proof (proj1 (Forall_forall _ _) Wf f Hf) as (H1 & H2 & H3 & H4 & H5).
  pose proof (len_nonneg (Frame.subframes f)). repeat split; try assumption; lia.
Qed.

Lemma loaded_frames_shape_witness :
  0 <= len [Subframe.mk 7 9 8 (Point.mk (-2) 300)] <= 127
  /\ 0 <= 5 <= 127
  /\ pair_wf (Some 3) (Some 4)
  /\ pair_wf None None
  /\ Forall Subframe_wf [Subframe.mk 7 9 8 (Point.mk (-2) 300)].
Proof.
  refine (loaded_frames_shape Sample.prt_one_animation Sample.bmp_empty
            Sample.loaded_one_animation _ Sample.loaded_animation
            (Frame.mk [Subframe.mk 7 9 8 (Point.mk (-2) 300)] 5
               (Some 3) (Some 4) None None) _ _).
  - vm_compute. reflexivity.
  - left. reflexivity.
  - left. reflexivity.
Defined.

(** Extra X5: in a container that [Load] returned, every animation's
    [unknown3] is the number of its appendix records, every appendix
    record is a list of exactly four unsigned 32-bit values, and the
    animation's own fields and its number of frames fit in 32 bits. *)
Theorem loaded_animations_shape (prt bmp : list byte) (c : PRTFile)
    (HL : Load prt bmp = Return c) :
  forall a, In a (animations c) ->
    Animation.unknown3 a = len (Animation.appendix a)
    /\ (forall ap, In ap (Animation.appendix a) ->
          length ap = 4%nat /\ Forall u32 ap)
    /\ u32 (Animation.unknown1 a) /\ u32 (Animation.unknown2 a)
    /\ u32 (len (Animation.frames a)).
Proof.
  intros a Ha. apply Load_wf in HL.
  destruct HL as (_ & _ & _ & _ & _ & Wa & _).
  pose proof (proj1 (Forall_forall _ _) Wa a Ha)
    as (U1 & _ & _ & U2 & Nf & _ & E3 & _ & Wap).
  split; [exact E3|]. split; [|tauto].
  intros ap H.
  destruct (proj1 (Forall_forall _ _) Wap ap H)
    as (a0 & a1 & a2 & a3 & -> & R0 & R1 & R2 & R3).
  split; [reflexivity|].
  repeat (apply Forall_cons; [assumption|]). apply Forall_nil.
Qed.

Lemma loaded_animations_shape_witness :
  Animation.unknown3 Sample.loaded_animation
  = len (Animation.appendix Sample.loaded_animation)
  /\ (forall ap, In ap (Animation.appendix Sample.loaded_animation) ->
        length ap = 4%nat /\ Forall u32 ap)
  /\ u32 (Animation.unknown1 Sample.loaded_animation)
  /\ u32 (Animation.unknown2 Sample.loaded_animation)
  /\ u32 (len (Animation.frames Sample.loaded_animation)).
Proof.
  refine (loaded_animations_shape Sample.prt_one_animation Sample.bmp_empty
            Sample.loaded_one_animation _ Sample.loaded_animation _).
  - vm_compute. reflexivity.
  - left. reflexivity.
Defined.

(** Extra X6: in a container that [Load] returned, every bitmap's
    [palette] is the palette found at its [palette_id] in the palette
    table, its [palette_id] and [image_type] are signed 16-bit values and
    its [width] and [height] unsigned 32-bit values. *)
Theorem loaded_bitmaps_shape (prt bmp : list byte) (c : PRTFile)
    (HL : Load prt bmp = Return c) :
  forall bm, In bm (bitmaps c) ->
    nth_error (palettes c) (Z.to_nat (Bitmap.palette_id bm))
    = Some (Bitmap.palette bm)
    /\ i16 (Bitmap.palette_id bm) /\ i16 (Bitmap.image_type bm)
    /\ u32 (Bitmap.width bm) /\ u32 (Bitmap.height bm).
Proof.
  intros bm Hb. apply Load_wf in HL.
  destruct HL as (_ & _ & _ & Wb & _).
  pose proof (proj1 (Forall_forall _ _) Wb bm Hb) as (Ep & R & I1 & I2 & W & H).
  repeat split; try apply I1; try apply I2; try apply W; try apply H.
  rewrite Ep. unfold palette_at. apply nth_error_nth'.
  unfold len in R. lia.
Qed.

Lemma loaded_bitmaps_shape_witness :
  nth_error (palettes Sample.loaded_full) (Z.to_nat 0)
  = Some Sample.palette256
  /\ i16 0 /\ i16 1 /\ u32 5 /\ u32 2.
Proof.
  refine (loaded_bitmaps_shape Sample.prt_full Sample.bmp_16
            Sample.loaded_full _
            (Bitmap.mk Sample.palette256 0 1 5 2 Sample.pixels16) _).
  - vm_compute. reflexivity.
  - left. reflexivity.
Defined.

(** ** What [Load] rejects *)

Lemma bytes_eqb_neq (a b0 : list byte) : a <> b0 -> bytes_eqb a b0 = false.
Proof.
  intros H. destruct (bytes_eqb a b0) eqn:E; [|reflexivity].
  apply bytes_eqb_eq in E. contradiction.
Qed.

Lemma Load_of_sections_raise prt bmp e :
  Load_sections bmp prt = Raise e -> Load prt bmp = Raise e.
Proof. intros H. unfold Load, bind. now rewrite H. Qed.

Lemma Load_sections_of_palettes_raise prt bmp e :
  _LoadPalettes [] prt = Raise e -> Load_sections bmp prt = Raise e.
Proof. intros H. unfold Load_sections, bind. now rewrite H. Qed.

Lemma _LoadPalettes_count s pals s' :
  _LoadPalettes [] s = Return (pals, s') ->
  bytes_at 0 4 s = tag_CPAL /\ len pals = u32_at 4 s.
Proof.
  unfold _LoadPalettes. intros H.
  apply bind_inv in H. destruct H as (hdr & s1 & R & H).
  apply read_inv in R. destruct R as [-> L].
  assert (E4 : bytes_at 0 4 (hdr ++ s1) = bytes_at 0 4 hdr).
  { unfold bytes_at. cbn [skipn]. rewrite firstn_app.
    replace (4 - length hdr)%nat with 0%nat by lia.
    cbn [firstn]. apply app_nil_r. }
  assert (E8 : u32_at 4 (hdr ++ s1) = u32_at 4 hdr).
  { unfold u32_at, bytes_at. rewrite skipn_app, firstn_app, length_skipn.
    replace (4 - length hdr)%nat with 0%nat by lia.
    replace (4 - (length hdr - 4))%nat with 0%nat by lia.
    cbn [skipn firstn]. now rewrite app_nil_r. }
  rewrite E4, E8.
  destruct (bytes_eqb (bytes_at 0 4 hdr) tag_CPAL) eqn:E; [|discriminate].
  cbn [negb] in H. apply bytes_eqb_eq in E. split; [exact E|].
  apply (for_range_fold _ step_list (fun _ => True)) in H.
  - destruct H as (l & Hl & _ & ->). rewrite fold_step_list. cbn [app].
    pose proof (u32_at_range 4 hdr). apply Z2Nat_u32_len; [lia | exact Hl].
  - intros i st s0 st' s2 Hb. apply bind_inv in Hb.
    destruct Hb as (p & s3 & _ & Hb). apply ret_inv in Hb.
    injection Hb as -> ->. now exists p.
Qed.

(** Extra X7: the main stream must begin with the tag [CPAL].  A stream
    of fewer than 8 bytes makes [Load] raise "ran out of data: expected 8
    bytes"; a longer one whose first four bytes are not [CPAL] makes it
    raise the signature error carrying those four bytes -- in both cases
    whatever the companion blob holds, which is not looked at yet.  And
    when [Load] returns, the stream begins with [CPAL] and the container
    has exactly as many palettes as the 32-bit count after the tag
    declares. *)
Theorem Load_signature (prt bmp : list byte) :
  ((length prt < 8)%nat ->
   Load prt bmp = Raise (PRTLoadError (RanOutOfData 8 (length prt))))
  /\ ((8 <= length prt)%nat -> bytes_at 0 4 prt <> tag_CPAL ->
      Load prt bmp = Raise (PRTLoadError (BadSignature (bytes_at 0 4 prt))))
  /\ (forall c, Load prt bmp = Return c ->
        bytes_at 0 4 prt = tag_CPAL /\ len (palettes c) = u32_at 4 prt).
Proof.
  split; [|split].
  - intros L. apply Load_of_sections_raise, Load_sections_of_palettes_raise.
    unfold _LoadPalettes, bind. now rewrite read_short.
  - intros L Hne. apply Load_of_sections_raise, Load_sections_of_palettes_raise.
    unfold _LoadPalettes. rewrite bind_read_firstn by exact L.
    rewrite bytes_at_firstn by lia. now rewrite bytes_eqb_neq.
  - intros c HL. apply Load_inv in HL. destruct HL as (p & HS & -> & _).
    cbn [palettes]. unfold Load_sections in HS.
    apply bind_inv in HS. destruct HS as (pals & s1 & HP & HS).
    apply bind_inv in HS. destruct HS as (bmps & s2 & _ & HS).
    apply bind_inv in HS. destruct HS as (hdr & s3 & _ & HS).
    apply bind_inv in HS. destruct HS as ([anims cn] & s4 & _ & HS).
    apply ret_inv in HS. injection HS as -> _. cbn [p_palettes].
    exact (_LoadPalettes_count _ _ _ HP).
Qed.

Lemma Load_signature_witness :
  Load [Byte.x42; Byte.x4d; Byte.x00] Sample.bmp_empty
  = Raise (PRTLoadError (RanOutOfData 8 3))
  /\ Load (tag_PPAL ++ Sample.no_bitmaps ++ Sample.no_animations) Sample.bmp_empty
     = Raise (PRTLoadError (BadSignature tag_PPAL))
  /\ (bytes_at 0 4 Sample.prt_full = tag_CPAL
      /\ len (palettes Sample.loaded_full) = u32_at 4 Sample.prt_full).
Proof.
  split; [|split].
  - refine (proj1 (Load_signature [Byte.x42; Byte.x4d; Byte.x00]
                     Sample.bmp_empty) _).
    cbn. lia.
  - refine (proj1 (proj2 (Load_signature
                            (tag_PPAL ++ Sample.no_bitmaps ++ Sample.no_animations)
                            Sample.bmp_empty)) _ _).
    + vm_compute. lia.
    + vm_compute. discriminate.
  - refine (proj2 (proj2 (Load_signature Sample.prt_full Sample.bmp_16))
              Sample.loaded_full _).
    vm_compute. reflexivity.
Defined.

(** The first tag of the first palette entry, seen from [Load]. *)
Lemma Load_first_tag n hdr rest bmp e :
  1 <= n <= 4294967295 -> length hdr = 8%nat ->
  (forall fuel, (8 <= fuel)%nat ->
     load_palette_tags (S fuel) 2 [] (hdr ++ rest) = Raise e) ->
  Load (tag_CPAL ++ le_split 4 n ++ hdr ++ rest) bmp = Raise e.
Proof.
  intros Hn Lh Ht. apply Load_of_sections_raise, Load_sections_of_palettes_raise.
  unfold _LoadPalettes.
  assert (E : tag_CPAL ++ le_split 4 n ++ hdr ++ rest
              = (tag_CPAL ++ le_split 4 n) ++ hdr ++ rest)
    by now rewrite <- app_assoc.
  rewrite E, (bind_read 8) by (rewrite length_app, length_le_split; reflexivity).
  fields. rewrite u32_small by (unfold u32; lia).
  change (negb (bytes_eqb _ _)) with false. cbv iota.
  destruct (Z.to_nat n) as [|m] eqn:Em; [lia|].
  cbn [for_range]. unfold bind at 1. unfold bind at 1. unfold load_palette at 1.
  unfold bind at 1. rewrite Ht; [reflexivity|]. rewrite length_app. lia.
Qed.

(** Extra X8: a [RIFF] tag is recognised and refused.  Wherever the
    palette loop expects a tag and finds [RIFF], it raises "RIFF tag not
    implemented", whatever size the header declares and whatever follows:
    the payload is never read.  [Load] does so for a stream whose first
    palette entry starts with [RIFF], and for one where [RIFF] follows the
    [PPAL] header. *)
Theorem RIFF_not_implemented
    (fuel : nat) (n : Z) (pal : list Color.t) (sz rest : list byte)
    (count : Z) (bmp : list byte)
    (Hn : 0 < n) (Hsz : length sz = 4%nat)
    (Hcount : 1 <= count <= 4294967295) :
  load_palette_tags (S fuel) n pal (tag_RIFF ++ sz ++ rest)
  = Raise (PRTLoadError RIFFNotImplemented)
  /\ Load (tag_CPAL ++ le_split 4 count ++ (tag_RIFF ++ sz) ++ rest) bmp
     = Raise (PRTLoadError RIFFNotImplemented)
  /\ Load (tag_CPAL ++ le_split 4 count
             ++ (tag_PPAL ++ le_split 4 1048) ++ tag_RIFF ++ sz ++ rest) bmp
     = Raise (PRTLoadError RIFFNotImplemented).
Proof.
  assert (G : forall fuel' n' pal' rest', 0 < n' ->
            load_palette_tags (S fuel') n' pal' (tag_RIFF ++ sz ++ rest')
            = Raise (PRTLoadError RIFFNotImplemented)).
  { intros fuel' n' pal' rest' Hn'. cbn [load_palette_tags].
    destruct (Z.gtb_spec n' 0); [|lia].
    rewrite app_assoc, (bind_read 8) by (rewrite length_app, Hsz; reflexivity).
    assert (T : bytes_at 0 4 (tag_RIFF ++ sz) = tag_RIFF) by reflexivity.
    rewrite T. reflexivity. }
  split; [now apply G|]. split.
  - apply Load_first_tag; [exact Hcount | rewrite length_app, Hsz; reflexivity|].
    intros fuel' _. rewrite <- app_assoc. apply G. lia.
  - apply Load_first_tag; [exact Hcount | reflexivity|].
    intros [|fuel'] L; [lia|].
    rewrite tags_PPAL by (reflexivity || lia). apply G. lia.
Qed.

Lemma RIFF_not_implemented_witness :
  load_palette_tags 1 1 [] (tag_RIFF ++ le_split 4 0 ++ [])
  = Raise (PRTLoadError RIFFNotImplemented)
  /\ Load (tag_CPAL ++ le_split 4 1 ++ (tag_RIFF ++ le_split 4 0) ++ [])
       Sample.bmp_empty
     = Raise (PRTLoadError RIFFNotImplemented)
  /\ Load (tag_CPAL ++ le_split 4 1
             ++ (tag_PPAL ++ le_split 4 1048) ++ tag_RIFF ++ le_split 4 0 ++ [])
       Sample.bmp_empty
     = Raise (PRTLoadError RIFFNotImplemented).
Proof.
  refine (RIFF_not_implemented 0 1 [] (le_split 4 0) [] 1 Sample.bmp_empty
            _ _ _).
  - lia.
  - reflexivity.
  - lia.
Defined.

(** Extra X9: every section header of a palette entry is validated
    before anything of the section is read.  For a stream whose first
    palette entry starts with the 8-byte header [hdr], [Load] raises the
    size error of the tag when [PPAL] does not declare 1048, [head] does
    not declare 4 or [data] does not declare 1024 bytes -- the error
    carries the declared size -- and raises "unhandled tag", with the tag
    and the size, for any tag other than [PPAL], [RIFF], [head] and
    [data]. *)
Theorem palette_sections_validated
    (hdr rest bmp : list byte) (count : Z)
    (Hh : length hdr = 8%nat) (Hcount : 1 <= count <= 4294967295) :
  (bytes_at 0 4 hdr = tag_PPAL -> u32_at 4 hdr <> 1048 ->
   Load (tag_CPAL ++ le_split 4 count ++ hdr ++ rest) bmp
   = Raise (PRTLoadError (UnexpectedPPALSize (u32_at 4 hdr))))
  /\ (bytes_at 0 4 hdr = tag_head -> u32_at 4 hdr <> 4 ->
      Load (tag_CPAL ++ le_split 4 count ++ hdr ++ rest) bmp
      = Raise (PRTLoadError (UnexpectedHeadSize (u32_at 4 hdr))))
  /\ (bytes_at 0 4 hdr = tag_data -> u32_at 4 hdr <> 1024 ->
      Load (tag_CPAL ++ le_split 4 count ++ hdr ++ rest) bmp
      = Raise (PRTLoadError (UnexpectedDataSize (u32_at 4 hdr))))
  /\ (bytes_at 0 4 hdr <> tag_PPAL -> bytes_at 0 4 hdr <> tag_RIFF ->
      bytes_at 0 4 hdr <> tag_head -> bytes_at 0 4 hdr <> tag_data ->
      Load (tag_CPAL ++ le_split 4 count ++ hdr ++ rest) bmp
      = Raise (PRTLoadError (UnhandledTag (bytes_at 0 4 hdr) (u32_at 4 hdr)))).
Proof.
  assert (U : forall fuel,
            load_palette_tags (S fuel) 2 [] (hdr ++ rest)
            = (let tag := bytes_at 0 4 hdr in
               let section_size := u32_at 4 hdr in
               if bytes_eqb tag tag_PPAL then
                 if negb (section_size =? 1048)
                 then raise (UnexpectedPPALSize section_size)
                 else load_palette_tags fuel (2 - 1) []
               else if bytes_eqb tag tag_RIFF then raise RIFFNotImplemented
               else if bytes_eqb tag tag_head then
                 if negb (section_size =? 4)
                 then raise (UnexpectedHeadSize section_size)
                 else cnt <- _ReadAndUnpack 4 ;;
                      load_palette_tags fuel (u32_at 0 cnt) []
               else if bytes_eqb tag tag_data then
                 if negb (section_size =? 1024)
                 then raise (UnexpectedDataSize section_size)
                 else pal' <- for_range 256 0
                                (fun _ cs => entry <- _ReadAndUnpack 4 ;;
                                             ret (cs ++ [unpack_color entry])) [] ;;
                      load_palette_tags fuel (2 - 1) pal'
               else raise (UnhandledTag tag section_size)) rest).
  { intros fuel. cbn [load_palette_tags]. change (2 >? 0) with true. cbv iota.
    now rewrite (bind_read 8) by exact Hh. }
  repeat split.
  - intros T S. apply Load_first_tag; [exact Hcount | exact Hh|].
    intros fuel _. rewrite U. cbv zeta. rewrite T.
    change (bytes_eqb tag_PPAL tag_PPAL) with true. cbv iota.
    apply Z.eqb_neq in S. now rewrite S.
  - intros T S. apply Load_first_tag; [exact Hcount | exact Hh|].
    intros fuel _. rewrite U. cbv zeta. rewrite T.
    change (bytes_eqb tag_head tag_PPAL) with false.
    change (bytes_eqb tag_head tag_RIFF) with false.
    change (bytes_eqb tag_head tag_head) with true. cbv iota.
    apply Z.eqb_neq in S. now rewrite S.
  - intros T S. apply Load_first_tag; [exact Hcount | exact Hh|].
    intros fuel _. rewrite U. cbv zeta. rewrite T.
    change (bytes_eqb tag_data tag_PPAL) with false.
    change (bytes_eqb tag_data tag_RIFF) with false.
    change (bytes_eqb tag_data tag_head) with false.
    change (bytes_eqb tag_data tag_data) with true. cbv iota.
    apply Z.eqb_neq in S. now rewrite S.
  - intros T1 T2 T3 T4. apply Load_first_tag; [exact Hcount | exact Hh|].
    intros fuel _. rewrite U. cbv zeta.
    now rewrite !bytes_eqb_neq by assumption.
Qed.

Lemma palette_sections_validated_witness :
  Load (tag_CPAL ++ le_split 4 1 ++ (tag_PPAL ++ le_split 4 1044) ++ [])
    Sample.bmp_empty
  = Raise (PRTLoadError (UnexpectedPPALSize 1044))
  /\ Load (tag_CPAL ++ le_split 4 1 ++ (tag_CPAL ++ le_split 4 7) ++ [])
       Sample.bmp_empty
     = Raise (PRTLoadError (UnhandledTag tag_CPAL 7)).
Proof.
  split.
  - refine (proj1 (palette_sections_validated (tag_PPAL ++ le_split 4 1044) []
                     Sample.bmp_empty 1 _ _) _ _).
    + reflexivity.
    + lia.
    + reflexivity.
    + vm_compute. discriminate.
  - refine (proj2 (proj2 (proj2 (palette_sections_validated
                                   (tag_CPAL ++ le_split 4 7) []
                                   Sample.bmp_empty 1 _ _))) _ _ _ _).
    + reflexivity.
    + lia.
    + vm_compute. discriminate.
    + vm_compute. discriminate.
    + vm_compute. discriminate.
    + vm_compute. discriminate.
Defined.

(** Extra X10: the header of the companion blob is checked as soon as the
    palettes are loaded, before the bitmap count is read from the main
    stream, so even a container without bitmaps needs a valid blob.  A
    blob shorter than 14 bytes makes [Load] raise [struct.error], not
    [PRTLoadError]; a blob that does not start with [BM] makes it raise
    "not a valid BMP file".  A [Load] that returns had a blob of at least
    14 bytes starting with [BM]. *)
Theorem companion_header_checked
    (prt bmp : list byte) (pals : list Palette.t) (s1 : list byte)
    (HP : _LoadPalettes [] prt = Return (pals, s1)) :
  ((length bmp < 14)%nat -> Load prt bmp = Raise struct_error)
  /\ ((14 <= length bmp)%nat -> bytes_at 0 2 bmp <> sig_BM ->
      Load prt bmp = Raise (PRTLoadError InvalidBMP))
  /\ (forall c, Load prt bmp = Return c ->
        (14 <= length bmp)%nat /\ bytes_at 0 2 bmp = sig_BM).
Proof.
  assert (U : Load_sections bmp prt
              = (bmps <- _LoadBitmaps bmp pals [] ;;
                 hdr <- load_header ;;
                 '(anims, cn) <- for_range (Z.to_nat (num_anims hdr)) 0
                                   load_animation ([], mkCounters 0 0 0) ;;
                 ret (mkParsed pals bmps hdr anims cn)) s1).
  { unfold Load_sections. now rewrite (bind_Return _ _ _ _ _ HP). }
  split; [|split].
  - intros L. apply Load_of_sections_raise. rewrite U.
    unfold bind, _LoadBitmaps. rewrite length_firstn.
    destruct (Nat.eqb_spec (Nat.min 14 (length bmp)) 14); [lia | reflexivity].
  - intros L Hne. apply Load_of_sections_raise. rewrite U.
    unfold bind, _LoadBitmaps. rewrite length_firstn, Nat.min_l by exact L.
    cbn [Nat.eqb negb]. rewrite bytes_at_firstn by lia.
    now rewrite bytes_eqb_neq.
  - intros c HL. apply Load_inv in HL. destruct HL as (p & HS & _).
    rewrite U in HS. apply bind_inv in HS. destruct HS as (bmps & s2 & HB & _).
    unfold _LoadBitmaps in HB. rewrite length_firstn in HB.
    destruct (Nat.eqb_spec (Nat.min 14 (length bmp)) 14) as [L|L];
      [|discriminate].
    cbn [negb] in HB. rewrite bytes_at_firstn in HB by lia.
    destruct (bytes_eqb (bytes_at 0 2 bmp) sig_BM) eqn:E; [|discriminate].
    apply bytes_eqb_eq in E. split; [lia | exact E].
Qed.

Lemma companion_header_checked_witness :
  Load Sample.prt_one_animation [Byte.x42; Byte.x4d] = Raise struct_error
  /\ Load Sample.prt_one_animation (repeat Byte.x00 14)
     = Raise (PRTLoadError InvalidBMP).
Proof.
  assert (HP : _LoadPalettes [] Sample.prt_one_animation
               = Return ([], skipn 8 Sample.prt_one_animation))
    by (vm_compute; reflexivity).
  split.
  - refine (proj1 (companion_header_checked Sample.prt_one_animation
                     [Byte.x42; Byte.x4d] [] _ HP) _).
    cbn. lia.
  - refine (proj1 (proj2 (companion_header_checked Sample.prt_one_animation
                            (repeat Byte.x00 14) [] _ HP)) _ _).
    + cbn. lia.
    + vm_compute. discriminate.
Defined.

(** ** Row padding *)

(** Extra X11: [(width + 3) & ~3], the padded width [Write] declares, is
    the width rounded up to the next multiple of 4, for every integer
    width: it is [4 * ((width + 3) / 4)], a multiple of 4, at least the
    width and at most 3 more, and the width itself when that is already a
    multiple of 4. *)
Theorem padded_width_rounds_up (w : Z) :
  padded_width w = 4 * ((w + 3) / 4)
  /\ padded_width w mod 4 = 0
  /\ w <= padded_width w <= w + 3
  /\ (w mod 4 = 0 -> padded_width w = w).
Proof.
  assert (E : padded_width w = 4 * ((w + 3) / 4)).
  { unfold padded_width. rewrite <- Z.ldiff_land.
    change 3 with (Z.ones 2) at 2. rewrite Z.ldiff_ones_r by lia.
    rewrite Z.shiftl_mul_pow2, Z.shiftr_div_pow2 by lia.
    change (2 ^ 2) with 4. lia. }
  pose proof (Z.div_mod (w + 3) 4 ltac:(lia)) as D.
  pose proof (Z.mod_pos_bound (w + 3) 4 ltac:(lia)) as B.
  rewrite E. split; [reflexivity|]. split; [|split].
  - rewrite Z.mul_comm. apply Z.mod_mul. lia.
  - lia.
  - intros M.
    assert (Hw : w = 4 * (w / 4)).
    { pose proof (Z.div_mod w 4 ltac:(lia)). lia. }
    assert (Q : (w + 3) / 4 = w / 4).
    { symmetry. apply Z.div_unique with (r := 3); lia. }
    rewrite Q. lia.
Qed.

Lemma padded_width_rounds_up_witness :
  padded_width 5 = 8 /\ 8 mod 4 = 0 /\ padded_width 8 = 8.
Proof.
  split; [|split; [reflexivity|]].
  - rewrite (proj1 (padded_width_rounds_up 5)). reflexivity.
  - apply (proj2 (proj2 (proj2 (padded_width_rounds_up 8)))). reflexivity.
Defined.

(** ** What [Write] cannot store *)

Lemma pack_B_big v : 256 <= v -> pack_B v = Raise struct_error.
Proof.
  intros H. unfold pack_B.
  destruct (Z.leb_spec v 255); [lia|]. now rewrite andb_false_r.
Qed.

(** Extra X12: a frame with 256 or more subframes cannot be written.
    Whether or not its first optional pair is present, [struct.pack]
    refuses the subframe count as a byte: the frame loop raises
    [struct.error] before writing any byte of the frame. *)
Theorem write_frame_too_many_subframes (f : Frame.t)
    (Hn : 256 <= len (Frame.subframes f)) :
  write_frame f = (([], []), Raise struct_error).
Proof.
  unfold write_frame, write_frame_head. cbv zeta.
  assert (B : pack_B (if is_not_None (Frame.optional1 f)
                         || is_not_None (Frame.optional2 f)
                      then Z.lor (len (Frame.subframes f)) 128
                      else len (Frame.subframes f))
              = Raise struct_error).
  { apply pack_B_big. destruct (_ || _); [|exact Hn].
    pose proof (lor_128_ge (len (Frame.subframes f))). lia. }
  cbn [pack_all]. rewrite B. reflexivity.
Qed.

Lemma write_frame_too_many_subframes_witness :
  write_frame Sample.frame_256 = (([], []), Raise struct_error).
Proof.
  refine (write_frame_too_many_subframes Sample.frame_256 _).
  vm_compute. discriminate.
Defined.

(** Extra X13: take a frame of at most 127 subframes whose first
    optional pair is wholly absent or wholly present with byte values,
    whose [optional3] and [optional4] are absent and whose [unknown] value
    is from 128 to 255.  Its head is written without error, [unknown] as
    it is, so bit 0x80 of that byte reads as the flag of the second pair:
    reading the head back gives the same subframe count and first pair,
    [unknown - 128], and takes the two bytes that follow the head -- the
    start of the first subframe, or of whatever comes next -- for
    [optional3] and [optional4]. *)
Theorem write_frame_unknown_overflow (f : Frame.t)
    (Hn : len (Frame.subframes f) <= 127)
    (Hu : 128 <= Frame.unknown f <= 255)
    (H12 : pair_wf (Frame.optional1 f) (Frame.optional2 f))
    (H3 : Frame.optional3 f = None) (H4 : Frame.optional4 f = None) :
  exists bs,
    emits (write_frame_head f) bs
    /\ forall o3 o4 rest,
         load_frame_head (bs ++ o3 :: o4 :: rest)
         = Return (len (Frame.subframes f), Frame.unknown f - 128,
                   Frame.optional1 f, Frame.optional2 f,
                   Some (byte.unsigned o3), Some (byte.unsigned o4), rest).
Proof.
  pose proof (len_nonneg (Frame.subframes f)) as Hn0.
  assert (Hm : 0 <= Frame.unknown f - 128 <= 127) by lia.
  assert (F1 : (Z.land (Frame.unknown f) 128 =? 0) = false).
  { replace (Frame.unknown f) with (Frame.unknown f - 128 + 128) by lia.
    now apply land_128_flagged. }
  assert (F2 : Z.land (Frame.unknown f) 127 = Frame.unknown f - 128).
  { replace (Frame.unknown f) with (Frame.unknown f - 128 + 128) at 1 by lia.
    now apply land_127_flagged. }
  unfold write_frame_head. rewrite H3, H4.
  destruct H12 as [[-> ->] | (a1 & a2 & -> & -> & Ha1 & Ha2)];
    cbn [is_not_None orb pack_2B_int py_int with_arg];
    rewrite ?lor_128_add by lia;
    rewrite !pack_B_ok by (assumption || (unfold u8; lia));
    cbn [pack_all app];
    (eexists; split; [reflexivity|]);
    intros o3 o4 rest; unfold load_frame_head; cbn [app];
    run_reader; fields; rewrite !u8_small by (assumption || (unfold u8; lia));
    rewrite ?land_128_flagged, ?land_128_clear, ?land_127_flagged, ?F1, ?F2 by lia;
    cbn [negb]; run_reader; fields;
    rewrite ?u8_small by (assumption || (unfold u8; lia));
    rewrite ?F1, ?F2; cbn [negb]; run_reader;
    rewrite ?u8_at_0, ?u8_at_1, ?le_combine_1; reflexivity.
Qed.

Lemma write_frame_unknown_overflow_witness :
  exists bs,
    emits (write_frame_head Sample.frame_unknown_200) bs
    /\ forall o3 o4 rest,
         load_frame_head (bs ++ o3 :: o4 :: rest)
         = Return (len (Frame.subframes Sample.frame_unknown_200),
                   Frame.unknown Sample.frame_unknown_200 - 128,
                   Frame.optional1 Sample.frame_unknown_200,
                   Frame.optional2 Sample.frame_unknown_200,
                   Some (byte.unsigned o3), Some (byte.unsigned o4), rest).
Proof.
  refine (write_frame_unknown_overflow Sample.frame_unknown_200 _ _ _ _ _).
  - vm_compute. discriminate.
  - vm_compute. split; discriminate.
  - left. split; reflexivity.
  - reflexivity.
  - reflexivity.
Defined.

(** ** The writer monad *)

Lemma prt_only_write packed : prt_only (prt_write packed).
Proof. unfold prt_only, prt_write. now destruct packed. Qed.

Lemma prt_only_wret {A} (a : A) : prt_only (wret a).
Proof. reflexivity. Qed.

Lemma prt_only_bind {A B} (m : Writer A) (k : A -> Writer B) :
  prt_only m -> (forall a, prt_only (k a)) -> prt_only (wbind m k).
Proof.
  unfold prt_only, wbind. destruct m as [[p1 b1] [a|e|]]; cbn [fst snd];
    intros -> Hk; try reflexivity.
  specialize (Hk a). destruct (k a) as [[p2 b2] o]. cbn [fst snd] in *.
  now subst.
Qed.

Lemma prt_only_for_each {A} (l : list A) (body : A -> Writer unit) :
  (forall a, prt_only (body a)) -> prt_only (for_each l body).
Proof.
  intros Hb. induction l as [|a l IH]; cbn [for_each].
  - apply prt_only_wret.
  - apply prt_only_bind; [apply Hb | intros; exact IH].
Qed.

(** Writers that only write to the main stream. *)
Ltac prt_only_tac :=
  repeat match goal with
  | |- prt_only (wbind _ _) => apply prt_only_bind; [|intros]
  | |- prt_only (prt_write _) => apply prt_only_write
  | |- prt_only (wret _) => apply prt_only_wret
  | |- prt_only (for_each _ _) => apply prt_only_for_each; intros
  | |- prt_only (if ?c then _ else _) => destruct c
  end.

Lemma prt_only_WritePalettes pals : prt_only (_WritePalettes pals).
Proof.
  unfold _WritePalettes. prt_only_tac. unfold write_palette. prt_only_tac.
  unfold write_color. prt_only_tac.
Qed.

Lemma prt_only_write_frame f : prt_only (write_frame f).
Proof.
  unfold write_frame, write_frame_head. cbv zeta. prt_only_tac.
  all: unfold write_subframe; prt_only_tac.
Qed.

Lemma prt_only_write_animation a : prt_only (write_animation a).
Proof.
  unfold write_animation. cbv zeta. prt_only_tac.
  - apply prt_only_write_frame.
  - unfold write_appendix. prt_only_tac.
Qed.

Lemma prt_only_bitmaps_meta bmps :
  forall pre, prt_only (write_bitmaps_meta bmps pre).
Proof.
  induction bmps as [|bm bmps IH]; intros pre; cbn [write_bitmaps_meta].
  - apply prt_only_wret.
  - apply prt_only_bind; [apply prt_only_write | intros; apply IH].
Qed.

Lemma bitmaps_meta_returns bmps :
  forall pre out m,
    write_bitmaps_meta bmps pre = (out, Return m) -> m = pre ++ master_data bmps.
Proof.
  induction bmps as [|bm bmps IH]; intros pre out m H; cbn [write_bitmaps_meta] in H.
  - injection H as _ <-. unfold master_data. cbn. now rewrite app_nil_r.
  - destruct out as [p b0]. apply wbind_inv in H.
    destruct H as (p1 & b1 & [] & p2 & b2 & _ & H & _).
    apply IH in H. rewrite H, master_data_cons. now rewrite <- app_assoc.
Qed.

(** The part of [Write] after the bitmap table only writes to the main
    stream. *)
Lemma prt_only_Write_tail c :
  prt_only
    (let '(num_frames, num_subframes) := count_totals (animations c) in
     prt_write (pack_all [pack_I (len (animations c))]) >>
     prt_write (pack_all [pack_I num_frames]) >>
     prt_write (pack_all [pack_I num_subframes]) >>
     prt_write (pack_all [pack_I (num_optional_entries c)]) >>
     for_each (animations c) write_animation >>
     prt_write (Return (extra_data c))).
Proof.
  destruct (count_totals (animations c)) as [nf ns]. prt_only_tac.
  apply prt_only_write_animation.
Qed.

(** Extra X14: [Write] touches the companion blob in one place only.
    Whatever the container and however [Write] ends, what it has written
    to the blob is either nothing -- an exception came before the bitmap
    table was complete -- or the whole output of [WriteBMPToOpenFile] for
    the pixel buffers of all bitmaps, concatenated in table order; and it
    is the latter whenever [Write] completes. *)
Theorem Write_blob_all_or_nothing
    (WriteBMPToOpenFile : Palette.t -> list byte -> list byte) (c : PRTFile) :
  (snd (fst (Write WriteBMPToOpenFile c)) = []
   \/ snd (fst (Write WriteBMPToOpenFile c))
      = WriteBMPToOpenFile master_palette (master_data (bitmaps c)))
  /\ (snd (Write WriteBMPToOpenFile c) = Return tt ->
      snd (fst (Write WriteBMPToOpenFile c))
      = WriteBMPToOpenFile master_palette (master_data (bitmaps c))).
Proof.
  unfold Write.
  pose proof (prt_only_WritePalettes (palettes c)) as HP.
  pose proof (prt_only_Write_tail c) as HT.
  destruct (_WritePalettes (palettes c)) as [[p1 b1] o1].
  unfold prt_only in HP. cbn [fst snd] in HP. subst b1.
  match type of HT with prt_only ?t => set (tail := t) in * end.
  destruct tail as [[p3 b3] o3]. unfold prt_only in HT. cbn [fst snd] in HT.
  subst b3.
  destruct o1 as [[]|e|]; cbn [wbind fst snd];
    [|split; [now left | discriminate]..].
  unfold _WriteBitmaps.
  destruct (prt_write (pack_all [pack_I (len (bitmaps c))])) as [[p2 b2] o2] eqn:E2.
  pose proof (prt_only_write (pack_all [pack_I (len (bitmaps c))])) as H2.
  rewrite E2 in H2. unfold prt_only in H2. cbn [fst snd] in H2. subst b2.
  destruct o2 as [[]|e|]; cbn [wbind fst snd];
    [|split; [now left | discriminate]..].
  pose proof (prt_only_bitmaps_meta (bitmaps c) []) as HM.
  destruct (write_bitmaps_meta (bitmaps c) []) as [[pm bmm] om] eqn:EM.
  unfold prt_only in HM. cbn [fst snd] in HM. subst bmm.
  destruct om as [m|e|]; cbn [wbind fst snd app];
    [|split; [now left | discriminate]..].
  apply bitmaps_meta_returns in EM. cbn [app] in EM. subst m.
  rewrite !app_nil_r. split; [now right | reflexivity].
Qed.

Lemma Write_blob_all_or_nothing_witness :
  snd (Write minimal_WriteBMPToOpenFile Sample.loaded_full) = Return tt
  /\ snd (fst (Write minimal_WriteBMPToOpenFile Sample.loaded_full))
     = minimal_WriteBMPToOpenFile master_palette Sample.pixels16.
Proof.
  split; [vm_compute; reflexivity|].
  apply (proj2 (Write_blob_all_or_nothing minimal_WriteBMPToOpenFile
                  Sample.loaded_full)).
  vm_compute. reflexivity.
Defined.

(** ** Appendix records *)

Lemma write_appendix_firstn ap :
  (4 <= length ap)%nat -> write_appendix ap = write_appendix (firstn 4 ap).
Proof.
  destruct ap as [|a0 [|a1 [|a2 [|a3 more]]]]; cbn [length]; try lia.
  reflexivity.
Qed.

Lemma for_each_map {A} (g : A -> A) (body : A -> Writer unit) l :
  Forall (fun a => body a = body (g a)) l ->
  for_each l body = for_each (map g l) body.
Proof.
  induction 1 as [|a l Ha _ IH]; cbn [for_each map]; [reflexivity|].
  now rewrite Ha, IH.
Qed.

Lemma write_animation_truncate a :
  Forall (fun ap => (4 <= length ap)%nat) (Animation.appendix a) ->
  write_animation a = write_animation (truncate_appendix a).
Proof.
  intros H. unfold write_animation, truncate_appendix.
  cbn [Animation.unknown1 Animation.bounding_box Animation.offset
       Animation.unknown2 Animation.frames Animation.appendix Animation.unknown3].
  rewrite <- (for_each_map (firstn 4) write_appendix); [reflexivity|].
  eapply Forall_impl; [|exact H]. intros ap. apply write_appendix_firstn.
Qed.

Lemma count_totals_truncate anims :
  count_totals (map truncate_appendix anims) = count_totals anims.
Proof.
  rewrite !count_totals_sum. unfold total_frames, total_subframes.
  rewrite !map_map. reflexivity.
Qed.

Lemma Write_truncate W c :
  Forall (fun a => Forall (fun ap => (4 <= length ap)%nat) (Animation.appendix a))
    (animations c) ->
  Write W c = Write W (truncate_appendices c).
Proof.
  intros H. unfold Write, truncate_appendices.
  cbn [palettes bitmaps animations num_optional_entries extra_data].
  rewrite count_totals_truncate.
  rewrite <- (for_each_map truncate_appendix write_animation).
  - unfold len. now rewrite length_map.
  - eapply Forall_impl; [|exact H]. intros a. apply write_animation_truncate.
Qed.

(** Extra X15: an appendix record is written through its first four
    entries only.  A record with fewer than four makes the write of the
    record raise [IndexError] before anything of it is written.  Entries
    beyond the fourth are dropped without notice: when every record has at
    least four entries, [Write] does exactly what it does on the container
    with every record cut to its first four entries.  If moreover that cut
    container is canonical -- fields as [Load] produces them, palettes of
    256 colors, pixel buffers of the length [Write] declares, less than
    2^32 pixel bytes in all -- and the blob writer has the layout the spec
    gives, then [Write] completes and [Load] on what it wrote returns the
    cut container. *)
Theorem appendix_written_by_four
    (WriteBMPToOpenFile : Palette.t -> list byte -> list byte)
    (c : PRTFile) :
  (forall ap, (length ap < 4)%nat ->
     write_appendix ap = (([], []), Raise IndexError))
  /\ (Forall (fun a =>
         Forall (fun r => (4 <= length r)%nat) (Animation.appendix a))
         (animations c) ->
      Write WriteBMPToOpenFile c
      = Write WriteBMPToOpenFile (truncate_appendices c)
      /\ (bmp_layout WriteBMPToOpenFile ->
          PRTFile_canonical (truncate_appendices c) ->
          exists prt bmp,
            Write WriteBMPToOpenFile c = ((prt, bmp), Return tt)
            /\ Load prt bmp = Return (truncate_appendices c))).
Proof.
  split.
  - intros ap Hap.
    destruct ap as [|a0 [|a1 [|a2 [|a3 more]]]]; cbn [length] in Hap; try lia;
      reflexivity.
  - intros Hlen. split; [exact (Write_truncate _ _ Hlen)|].
    intros HW Hc. rewrite (Write_truncate _ _ Hlen).
    destruct Hc as (Wf & P & B & M).
    apply Write_Load_roundtrip; try assumption.
    split; [apply len_nonneg | exact M].
Qed.

Lemma appendix_written_by_four_witness :
  write_appendix [1; 2; 3] = (([], []), Raise IndexError)
  /\ Write minimal_WriteBMPToOpenFile Sample.container_long_appendix
     = Write minimal_WriteBMPToOpenFile
         (truncate_appendices Sample.container_long_appendix)
  /\ exists prt bmp,
       Write minimal_WriteBMPToOpenFile Sample.container_long_appendix
       = ((prt, bmp), Return tt)
       /\ Load prt bmp = Return (truncate_appendices Sample.container_long_appendix).
Proof.
  assert (Hc : PRTFile_canonical
                 (truncate_appendices Sample.container_long_appendix)).
  { split; [|split; [|split]].
    - apply (Load_wf Sample.prt_one_animation Sample.bmp_empty).
      vm_compute. reflexivity.
    - constructor.
    - constructor.
    - vm_compute. discriminate. }
  assert (Hlen : Forall (fun a =>
                   Forall (fun r => (4 <= length r)%nat) (Animation.appendix a))
                   (animations Sample.container_long_appendix))
    by (repeat constructor).
  split; [|split].
  - refine (proj1 (appendix_written_by_four minimal_WriteBMPToOpenFile
                     Sample.container_long_appendix) [1; 2; 3] _).
    cbn. lia.
  - exact (proj1 (proj2 (appendix_written_by_four minimal_WriteBMPToOpenFile
                           Sample.container_long_appendix) Hlen)).
  - exact (proj2 (proj2 (appendix_written_by_four minimal_WriteBMPToOpenFile
                           Sample.container_long_appendix) Hlen)
             minimal_layout Hc).
Defined.

(** ** Containers built in memory *)

(** Extra X16: the round trip does not need a container that came from
    [Load].  Take a blob writer of the layout the spec gives and a
    canonical container: fields as [Load] produces them, palettes of
    exactly 256 colors, pixel buffers of the length [Write] declares, less
    than 2^32 pixel bytes in all -- whether loaded, built or edited in
    memory.  [Write] completes on it and [Load] on what it wrote returns
    the same container; so two canonical containers that [Write] turns
    into the same bytes are the same container. *)
Theorem canonical_roundtrip_injective
    (WriteBMPToOpenFile : Palette.t -> list byte -> list byte)
    (c1 c2 : PRTFile)
    (HW : bmp_layout WriteBMPToOpenFile)
    (H1 : PRTFile_canonical c1) (H2 : PRTFile_canonical c2) :
  (exists prt bmp,
     Write WriteBMPToOpenFile c1 = ((prt, bmp), Return tt)
     /\ Load prt bmp = Return c1)
  /\ (Write WriteBMPToOpenFile c1 = Write WriteBMPToOpenFile c2 -> c1 = c2).
Proof.
  assert (R : forall c, PRTFile_canonical c ->
            exists prt bmp,
              Write WriteBMPToOpenFile c = ((prt, bmp), Return tt)
              /\ Load prt bmp = Return c).
  { intros c (Wf & P & B & M). apply Write_Load_roundtrip; try assumption.
    split; [apply len_nonneg | exact M]. }
  split; [now apply R|]. intros E.
  destruct (R c1 H1) as (p1 & b1 & W1 & L1).
  destruct (R c2 H2) as (p2 & b2 & W2 & L2).
  rewrite E, W2 in W1. injection W1 as <- <-. rewrite L2 in L1.
  now injection L1.
Qed.

Lemma canonical_roundtrip_injective_witness :
  (exists prt bmp,
     Write minimal_WriteBMPToOpenFile Sample.loaded_full = ((prt, bmp), Return tt)
     /\ Load prt bmp = Return Sample.loaded_full)
  /\ Write minimal_WriteBMPToOpenFile Sample.loaded_full
     <> Write minimal_WriteBMPToOpenFile Sample.loaded_one_animation.
Proof.
  assert (H1 : PRTFile_canonical Sample.loaded_full).
  { split; [|split; [|split]].
    - apply (Load_wf Sample.prt_full Sample.bmp_16). vm_compute. reflexivity.
    - constructor; [reflexivity | constructor].
    - constructor; [|constructor]. split; vm_compute; [discriminate | reflexivity].
    - vm_compute. discriminate. }
  assert (H2 : PRTFile_canonical Sample.loaded_one_animation).
  { split; [|split; [|split]].
    - apply (Load_wf Sample.prt_one_animation Sample.bmp_empty).
      vm_compute. reflexivity.
    - constructor.
    - constructor.
    - vm_compute. discriminate. }
  split.
  - exact (proj1 (canonical_roundtrip_injective minimal_WriteBMPToOpenFile
                    Sample.loaded_full Sample.loaded_one_animation
                    minimal_layout H1 H2)).
  - intros E.
    apply (proj2 (canonical_roundtrip_injective minimal_WriteBMPToOpenFile
                    Sample.loaded_full Sample.loaded_one_animation
                    minimal_layout H1 H2)) in E.
    discriminate E.
Defined.

(** ** What [Write] does not check *)

Lemma emits_unique w p1 b1 p2 :
  w = ((p1, b1), Return tt) -> emits w p2 -> p1 = p2 /\ b1 = [].
Proof. unfold emits, wrote. intros -> [= -> ->]. now split. Qed.

Lemma Write_returns_blob
    (WriteBMPToOpenFile : Palette.t -> list byte -> list byte)
    (c : PRTFile) (prt bmp : list byte) :
  Write WriteBMPToOpenFile c = ((prt, bmp), Return tt) ->
  bmp = WriteBMPToOpenFile master_palette (master_data (bitmaps c)).
Proof.
  unfold Write. intros Hw. apply wbind_inv in Hw.
  destruct Hw as (p1 & b1 & [] & p2 & b2 & W1 & Hw & _ & ->).
  pose proof (prt_only_WritePalettes (palettes c)) as HP.
  rewrite W1 in HP. unfold prt_only in HP. cbn [fst snd] in HP. subst b1.
  apply wbind_inv in Hw.
  destruct Hw as (p3 & b3 & [] & p4 & b4 & W3 & W4 & _ & ->).
  pose proof (prt_only_Write_tail c) as HT. cbv beta in W4.
  rewrite W4 in HT. unfold prt_only in HT. cbn [fst snd] in HT. subst b4.
  unfold _WriteBitmaps in W3. apply wbind_inv in W3.
  destruct W3 as (pc & bc & [] & pm & bmm & Wc & W3 & _ & ->).
  apply prt_write_inv in Wc. destruct Wc as [_ ->].
  apply wbind_inv in W3.
  destruct W3 as (pr & br & m & pz & bz & Wm & Wz & _ & ->).
  injection Wz as _ <-.
  pose proof (prt_only_bitmaps_meta (bitmaps c) []) as HM.
  rewrite Wm in HM. unfold prt_only in HM. cbn [fst snd] in HM. subst br.
  apply bitmaps_meta_returns in Wm. subst m.
  cbn [app]. now rewrite app_nil_r.
Qed.

(** Extra X17: [Write] does not check that a bitmap's [palette_id] names
    an existing palette.  Take a blob writer of the layout the spec gives
    and a container whose palette table has fewer than 2^32 palettes, each
    of exactly 256 colors with byte-valued channels, and whose first
    bitmap has a [palette_id] below 0 or beyond the last palette.  If
    [Write] completes on it, then what it wrote cannot be loaded: [Load]
    raises the out-of-range error for bitmap 0 and that index. *)
Theorem Write_accepts_bad_palette_id
    (WriteBMPToOpenFile : Palette.t -> list byte -> list byte)
    (c : PRTFile) (bm : Bitmap.t) (more : list Bitmap.t)
    (prt bmp : list byte)
    (HW : bmp_layout WriteBMPToOpenFile)
    (Hn : u32 (len (palettes c)))
    (Hp : Forall (fun p => Palette_wf p /\ length (Palette.colors p) = 256%nat)
            (palettes c))
    (Hb : bitmaps c = bm :: more)
    (Hid : Bitmap.palette_id bm < 0
           \/ Bitmap.palette_id bm > len (palettes c) - 1)
    (Hw : Write WriteBMPToOpenFile c = ((prt, bmp), Return tt)) :
  Load prt bmp
  = Raise (PRTLoadError (PaletteIdOutOfRange 0 (Bitmap.palette_id bm))).
Proof.
  pose proof (Write_returns_blob _ _ _ _ Hw) as Hblob.
  destruct (palettes_roundtrip (palettes c) Hn Hp) as (bP & EP & DP).
  unfold Write in Hw. apply wbind_inv in Hw.
  destruct Hw as (p1 & b1 & [] & p2 & b2 & W1 & Hw & -> & _).
  destruct (emits_unique _ _ _ _ W1 EP) as [-> _].
  apply wbind_inv in Hw.
  destruct Hw as (p3 & b3 & [] & p4 & b4 & W3 & _ & -> & _).
  unfold _WriteBitmaps in W3. rewrite Hb in W3. apply wbind_inv in W3.
  destruct W3 as (pc & bc & [] & pm & bmm & Wc & W3 & -> & _).
  apply prt_write_inv in Wc. destruct Wc as [Wc _].
  apply pack_all_inv in Wc. destruct Wc as (c1 & c2 & Wc & Wnil & ->).
  injection Wnil as <-. apply pack_I_inv in Wc. destruct Wc as [Rc ->].
  apply wbind_inv in W3.
  destruct W3 as (pr & br & m & pz & bz & W3 & Wz & -> & _).
  injection Wz as <- _. cbn [write_bitmaps_meta] in W3. apply wbind_inv in W3.
  destruct W3 as (rec & brec & [] & pt & bt & Wr & _ & -> & _).
  apply prt_write_inv in Wr. destruct Wr as [Wr _].
  do 6 (apply pack_all_inv in Wr;
        let x := fresh "f" in let y := fresh "r" in
        destruct Wr as (x & y & ? & Wr & ->)).
  injection Wr as <-.
  repeat match goal with
         | H : pack_I _ = Return _ |- _ =>
             apply pack_I_inv in H; destruct H as [? ->]
         | H : pack_h _ = Return _ |- _ =>
             apply pack_h_inv in H; destruct H as [? ->]
         end.
  subst bmp. destruct (HW master_palette (master_data (bitmaps c)))
    as (L14 & Sig & _).
  set (blob := WriteBMPToOpenFile master_palette (master_data (bitmaps c))) in *.
  apply Load_of_sections_raise. unfold Load_sections.
  rewrite <- !app_assoc. rewrite (bind_Return _ _ _ _ _ (DP _)).
  unfold bind at 1. unfold _LoadBitmaps.
  rewrite length_firstn, Nat.min_l by exact L14. cbn [Nat.eqb negb].
  rewrite !bytes_at_firstn, u32_at_firstn by lia. rewrite Sig.
  change (negb (bytes_eqb sig_BM sig_BM)) with false. cbv iota.
  rewrite (bind_read 4) by apply length_le_split.
  generalize (u32_at 10 blob). intros ds.
  assert (E0 : u32_at 0 (le_split 4 (len (bm :: more))) = len (bm :: more)).
  { fields. now apply u32_small. }
  rewrite E0. unfold len at 1. rewrite Nat2Z.id. cbn [length for_range].
  unfold bind at 1. cbn [app].
  match goal with
  | |- context [load_bitmap blob ds (palettes c) 0 [] ?s] =>
      assert (G : load_bitmap blob ds (palettes c) 0 [] s
                  = Raise (PRTLoadError
                             (PaletteIdOutOfRange 0 (Bitmap.palette_id bm))));
      [ assert (I18 : i16_at 18 s = Bitmap.palette_id bm)
          by (fields; now apply signed16_wrap);
        assert (L20 : (20 <= length s)%nat)
          by (rewrite !length_app, !length_le_split; lia);
        pose proof (load_bitmap_bad_id blob ds (palettes c) 0 [] s L20) as G0;
        rewrite I18 in G0; exact (G0 Hid)
      | ]
  end.
  now rewrite G.
Qed.

Lemma Write_accepts_bad_palette_id_witness :
  exists prt bmp,
    Write minimal_WriteBMPToOpenFile Sample.container_bad_palette_id
    = ((prt, bmp), Return tt)
    /\ Load prt bmp = Raise (PRTLoadError (PaletteIdOutOfRange 0 1)).
Proof.
  assert (Hp : Forall (fun p => Palette_wf p /\ length (Palette.colors p) = 256%nat)
                 (palettes Sample.container_bad_palette_id)).
  { constructor; [|constructor]. split; [|reflexivity].
    apply (proj1 (Forall_forall _ _)
             (proj1 (proj2 (Load_wf Sample.prt_full Sample.bmp_16
                              Sample.loaded_full eq_refl)))).
    left. reflexivity. }
  eexists _, _. split; [vm_compute; reflexivity|].
  refine (Write_accepts_bad_palette_id minimal_WriteBMPToOpenFile
            Sample.container_bad_palette_id
            (Bitmap.mk Sample.palette256 1 1 5 2 Sample.pixels16) []
            _ _ minimal_layout _ Hp eq_refl _ _).
  - vm_compute. split; discriminate.
  - right. vm_compute. reflexivity.
  - vm_compute. reflexivity.
Defined.

(** ** Truncated streams *)

Lemma starves_ret {A} (a : A) : starves (ret a).
Proof.
  intros s t a' s' H. apply ret_inv in H. injection H as -> ->.
  left. now exists s.
Qed.

Lemma starves_raise {A} e : starves (@raise A e).
Proof. intros s t a s' H. discriminate. Qed.

Lemma starves_lift {A} (o : outcome A) : starves (lift o).
Proof.
  intros s t a s' H. unfold lift in H |- *.
  destruct o as [a0| |]; try discriminate.
  injection H as <- <-. left. now exists s.
Qed.

Lemma starves_read n : starves (_ReadAndUnpack n).
Proof.
  intros s t a s' H. destruct (le_lt_dec n (length s)) as [L|L].
  - left. assert (L' : (n <= length (s ++ t))%nat) by (rewrite length_app; lia).
    rewrite (read_enough n (s ++ t) L') in H.
    injection H as <- <-. exists (skipn n s). split.
    + rewrite skipn_app. replace (n - length s)%nat with 0%nat by lia.
      reflexivity.
    + rewrite read_enough by exact L. f_equal. f_equal.
      rewrite firstn_app. replace (n - length s)%nat with 0%nat by lia.
      cbn [firstn]. now rewrite app_nil_r.
  - right. exists (PRTLoadError (RanOutOfData n (length s))). split.
    + now exists n, (length s).
    + now apply read_short.
Qed.

Lemma starves_bind {A B} (m : Reader A) (k : A -> Reader B) :
  starves m -> (forall a, starves (k a)) -> starves (bind m k).
Proof.
  intros Hm Hk s t b0 s' H. apply bind_inv in H.
  destruct H as (a & s1 & H1 & H2).
  destruct (Hm _ _ _ _ H1) as [(u & -> & E1)|(e & Pe & E1)].
  - rewrite (bind_Return _ _ _ _ _ E1). exact (Hk a _ _ _ _ H2).
  - right. exists e. split; [exact Pe | now apply bind_Raise].
Qed.

Lemma starves_for_range {St} (body : Z -> St -> Reader St) :
  (forall i st, starves (body i st)) ->
  forall n i st, starves (for_range n i body st).
Proof.
  intros Hb. induction n as [|n IH]; intros i st; cbn [for_range].
  - apply starves_ret.
  - apply starves_bind; [apply Hb | intros; apply IH].
Qed.

(** Taking the property apart along the structure of a reader. *)
Ltac starves_tac :=
  repeat match goal with
  | |- starves (bind _ _) => apply starves_bind; [|intros]
  | |- starves (ret _) => apply starves_ret
  | |- starves (_ReadAndUnpack _) => apply starves_read
  | |- starves (raise _) => apply starves_raise
  | |- starves (lift _) => apply starves_lift
  | |- starves (for_range _ _ _ _) => apply starves_for_range; intros
  | |- starves (if ?c then _ else _) => destruct c
  | |- starves (match ?p with (_, _) => _ end) => destruct p
  end.

(** The palette loop on a cut stream, with fuel for the bytes that are
    left. *)
Lemma load_palette_tags_starves fuel :
  forall n pal s t r s',
    load_palette_tags fuel n pal (s ++ t) = Return (r, s') ->
    forall fuel', (length s < fuel')%nat ->
      (exists u, s' = u ++ t /\ load_palette_tags fuel' n pal s = Return (r, u))
      \/ (exists e, out_of_data e /\ load_palette_tags fuel' n pal s = Raise e).
Proof.
  induction fuel as [|fuel IH]; intros n pal s t r s' H fuel' Lf.
  - cbn [load_palette_tags] in H. destruct (Z.gtb_spec n 0); [discriminate|].
    apply ret_inv in H. injection H as -> ->.
    left. exists s. split; [reflexivity | now apply tags_done].
  - cbn [load_palette_tags] in H. destruct (Z.gtb_spec n 0) as [Hn|Hn].
    2:{ apply ret_inv in H. injection H as -> ->.
        left. exists s. split; [reflexivity | now apply tags_done]. }
    destruct fuel' as [|fuel']; [lia|].
    cbn [load_palette_tags]. destruct (Z.gtb_spec n 0); [|lia].
    destruct (le_lt_dec 8 (length s)) as [L8|L8].
    2:{ right. exists (PRTLoadError (RanOutOfData 8 (length s))). split.
        - now exists 8%nat, (length s).
        - apply bind_Raise. now apply read_short. }
    rewrite <- (firstn_skipn 8 s) in H, Lf |- *.
    assert (Lh : length (firstn 8 s) = 8%nat)
      by (rewrite length_firstn; lia).
    revert H Lf. generalize (firstn 8 s) (skipn 8 s) Lh. clear L8 Lh.
    intros hdr s1 Lh H Lf. rewrite length_app in Lf.
    rewrite <- app_assoc, (bind_read 8) in H by exact Lh.
    rewrite !(bind_read 8) by exact Lh.
    destruct (bytes_eqb (bytes_at 0 4 hdr) tag_PPAL) eqn:EP.
    { destruct (negb (u32_at 4 hdr =? 1048)) eqn:ES; [discriminate|].
      apply (IH _ _ _ _ _ _ H). lia. }
    destruct (bytes_eqb (bytes_at 0 4 hdr) tag_RIFF) eqn:ER; [discriminate|].
    destruct (bytes_eqb (bytes_at 0 4 hdr) tag_head) eqn:EH.
    { destruct (negb (u32_at 4 hdr =? 4)) eqn:ES; [discriminate|].
      apply bind_inv in H. destruct H as (cnt & s2 & R & H).
      destruct (starves_read 4 _ _ _ _ R) as [(u & -> & E1)|(e & Pe & E1)].
      - rewrite (bind_Return _ _ _ _ _ E1).
        apply read_inv in E1. destruct E1 as [-> Lc].
        rewrite length_app in Lf. apply (IH _ _ _ _ _ _ H). lia.
      - right. exists e. split; [exact Pe | now apply bind_Raise]. }
    destruct (bytes_eqb (bytes_at 0 4 hdr) tag_data) eqn:ED; [|discriminate].
    destruct (negb (u32_at 4 hdr =? 1024)) eqn:ES; [discriminate|].
    apply bind_inv in H. destruct H as (pal1 & s2 & L256 & H).
    assert (SC : starves (for_range 256 0
                            (fun (_ : Z) cs => entry <- _ReadAndUnpack 4 ;;
                                               ret (cs ++ [unpack_color entry])) pal))
      by (apply starves_for_range; intros; starves_tac).
    assert (LC : local (for_range 256 0
                          (fun (_ : Z) cs => entry <- _ReadAndUnpack 4 ;;
                                             ret (cs ++ [unpack_color entry])) pal))
      by (apply local_for_range; intros; local_tac).
    destruct (SC _ _ _ _ L256) as [(u & -> & E1)|(e & Pe & E1)].
    + rewrite (bind_Return _ _ _ _ _ E1).
      destruct (LC _ _ _ E1) as (pc & -> & _).
      rewrite length_app in Lf. apply (IH _ _ _ _ _ _ H). lia.
    + right. exists e. split; [exact Pe | now apply bind_Raise].
Qed.

Lemma starves_load_palette : starves load_palette.
Proof.
  intros s t pal s' H. unfold load_palette in H |- *.
  apply bind_inv in H. destruct H as (cs & s1 & T & H).
  apply ret_inv in H. injection H as -> ->.
  destruct (load_palette_tags_starves _ _ _ _ _ _ _ T (S (length s)))
    as [(u & -> & E1)|(e & Pe & E1)]; [lia| |].
  - left. exists u. split; [reflexivity|].
    now rewrite (bind_Return _ _ _ _ _ E1).
  - right. exists e. split; [exact Pe | now apply bind_Raise].
Qed.

Lemma starves_LoadPalettes pals0 : starves (_LoadPalettes pals0).
Proof.
  unfold _LoadPalettes. starves_tac. apply starves_load_palette.
Qed.

Lemma starves_LoadBitmaps bmp pals st : starves (_LoadBitmaps bmp pals st).
Proof.
  unfold _LoadBitmaps. destruct (negb _); [intros s t a s' H; discriminate|].
  starves_tac. unfold load_bitmap. starves_tac.
Qed.

Lemma starves_load_frame i st : starves (load_frame i st).
Proof.
  destruct st as [[frs a] b0]. unfold load_frame.
  apply starves_bind; [unfold load_frame_head; starves_tac|].
  intros [[[[[c u] o1] o2] o3] o4].
  apply starves_bind.
  - apply starves_for_range. intros j [sfs k]. unfold load_subframe.
    starves_tac.
  - intros [sfs n]. apply starves_ret.
Qed.

Lemma starves_load_animation i st : starves (load_animation i st).
Proof.
  destruct st as [anims cn]. unfold load_animation.
  apply starves_bind; [apply starves_read|]. intros rec.
  apply starves_bind; [apply starves_for_range; intros; apply starves_load_frame|].
  intros [[frs a] b0].
  apply starves_bind; [apply starves_read|]. intros u.
  apply starves_bind.
  - apply starves_for_range. intros j [aps k]. unfold load_appendix.
    starves_tac.
  - intros [aps n]. apply starves_ret.
Qed.

Lemma starves_Load_sections bmp : starves (Load_sections bmp).
Proof.
  unfold Load_sections.
  apply starves_bind; [apply starves_LoadPalettes|]. intros pals.
  apply starves_bind; [apply starves_LoadBitmaps|]. intros bmps.
  apply starves_bind; [unfold load_header; starves_tac|]. intros hdr.
  apply starves_bind;
    [apply starves_for_range; intros; apply starves_load_animation|].
  intros [anims cn]. apply starves_ret.
Qed.

(** Extra X18: a truncated main stream is always detected.  If [Load]
    returns a container on a stream, then on the same stream with more
    bytes cut off its end than the container's [extra_data] holds, [Load]
    raises the error of [_ReadAndUnpack], that it ran out of data: it got
    fewer bytes than a record needs.  No cut inside the three sections
    loads as a smaller container, and none raises another error. *)
Theorem truncation_detected (prt bmp : list byte) (c : PRTFile)
    (p q : list byte)
    (HL : Load prt bmp = Return c)
    (Hs : prt = p ++ q)
    (Hq : (length (extra_data c) < length q)%nat) :
  exists n k,
    (k < n)%nat
    /\ Load p bmp = Raise (PRTLoadError (RanOutOfData n k)).
Proof.
  destruct (Load_inv _ _ _ HL) as (pd & HS & _). subst prt.
  destruct (starves_Load_sections bmp _ _ _ _ HS) as [(u & E & _)|(e & Pe & E)].
  - apply (f_equal (@length byte)) in E. rewrite length_app in E. lia.
  - destruct Pe as (n & k & Lk & ->). exists n, k. split; [exact Lk|].
    now apply Load_of_sections_raise.
Qed.

Lemma truncation_detected_witness :
  exists n k,
    (k < n)%nat
    /\ Load (firstn 30 Sample.prt_one_animation) Sample.bmp_empty
       = Raise (PRTLoadError (RanOutOfData n k)).
Proof.
  refine (truncation_detected Sample.prt_one_animation Sample.bmp_empty
            Sample.loaded_one_animation
            (firstn 30 Sample.prt_one_animation)
            (skipn 30 Sample.prt_one_animation) _ _ _).
  - vm_compute. reflexivity.
  - symmetry. apply firstn_skipn.
  - vm_compute. lia.
Defined.

(** ** What the count errors report *)

(** Extra X19: which of the final comparisons of [Load] fails, and what
    it reports.  Once the three sections are parsed, a frame total that
    differs from the declared one raises "incorrect number of frames
    loaded" with the loaded and the declared number, whatever the subframe
    totals are.  With the frame totals equal, a subframe total that
    differs raises "incorrect number of subframes loaded", and both
    numbers of that error are the loaded total: the declared number of
    subframes is not reported. *)
Theorem count_error_reports (prt bmp : list byte) (p : parsed)
    (rest : list byte)
    (HS : Load_sections bmp prt = Return (p, rest)) :
  (total_frames (p_animations p) <> num_frames (p_header p) ->
   Load prt bmp
   = Raise (PRTLoadError
              (IncorrectFrames (total_frames (p_animations p))
                 (num_frames (p_header p)))))
  /\ (total_frames (p_animations p) = num_frames (p_header p) ->
      total_subframes (p_animations p) <> num_subframes (p_header p) ->
      Load prt bmp
      = Raise (PRTLoadError
                 (IncorrectSubframes (total_subframes (p_animations p))
                    (total_subframes (p_animations p))))).
Proof.
  pose proof (Load_sections_inv _ _ _ _ HS) as (_ & _ & (A1 & _) & _ & C).
  unfold Load. rewrite (bind_Return _ _ _ _ _ HS).
  unfold bind, check_counts. rewrite C.
  cbn [num_loaded_frames num_loaded_subframes num_loaded_anims].
  fold (len (p_animations p)). rewrite A1, Z.eqb_refl. cbn [negb].
  split.
  - intros Hf.
    destruct (Z.eqb_spec (total_frames (p_animations p)) (num_frames (p_header p)));
      [contradiction | reflexivity].
  - intros Hf Hs. rewrite Hf, Z.eqb_refl. cbn [negb].
    destruct (Z.eqb_spec (total_subframes (p_animations p))
                (num_subframes (p_header p)));
      [contradiction | reflexivity].
Qed.

Lemma count_error_reports_witness :
  Load Sample.prt_five_frames_declared Sample.bmp_empty
  = Raise (PRTLoadError (IncorrectFrames 4 5))
  /\ Load Sample.prt_two_subframes_declared Sample.bmp_empty
     = Raise (PRTLoadError (IncorrectSubframes 1 1)).
Proof.
  split.
  - refine (proj1 (count_error_reports Sample.prt_five_frames_declared
                     Sample.bmp_empty
                     (mkParsed [] [] (mkHeader 1 5 0 0)
                        [Animation.mk 0 (Rect.mk 0 0 0 0) (Point.mk 0 0) 0
                           (repeat (Frame.mk [] 0 None None None None) 4)
                           [] 0]
                        (mkCounters 4 0 0)) [] _) _).
    + vm_compute. reflexivity.
    + vm_compute. discriminate.
  - refine (proj2 (count_error_reports Sample.prt_two_subframes_declared
                     Sample.bmp_empty
                     (mkParsed [] [] (mkHeader 1 1 2 7)
                        [Sample.loaded_animation] (mkCounters 1 1 1))
                     [Byte.x4d] _) _ _).
    + vm_compute. reflexivity.
    + vm_compute. reflexivity.
    + vm_compute. discriminate.
Defined.
